(** * PyPowerVisualization: the data adapter and the topology store of
    [static/js/main.js], embedded in Rocq.

    The file follows the two classes of the script:
    - [Adapter] embeds [PyPowerDataAdapter] (field normalization, type
      inference, coordinate synthesis, validation, [convertData]);
    - [Viz] embeds the part of [PowerFlowVisualization] that owns the node and
      link collections, the selection and the link-creation mode.

    JavaScript numbers are IEEE binary64 values, modelled by Rocq's primitive
    floats; JavaScript objects read by field name are finite maps from
    property names to values; objects that are shared and mutated in place
    (nodes, links) live in an arena and are referred to by their address. *)

From Stdlib Require Import Floats ZArith Ascii.
From stdpp Require Import gmap strings list pretty.

Set Warnings "-inexact-float".
Local Open Scope string_scope.

(** ** JavaScript values and errors *)

(** The scalar values a JSON payload field can hold, [undefined] for a
    property that is absent, and the members of [Object.prototype], which
    a lookup by a computed key in an object literal can return. *)
Inductive value :=
  | VUndefined
  | VNull
  | VBool (b : bool)
  | VNum (f : float)
  | VStr (s : string)
  | VMember (k : string).          (* [Object.prototype[k]], an object *)

#[global] Instance value_inhabited : Inhabited value := populate VUndefined.

(** The exceptions the embedded code can raise. *)
Inductive js_error :=
  | TypeError                      (* property read on undefined, call of a non-function *)
  | Error (msg : string).          (* [throw new Error(msg)] *)

Inductive result (A : Type) :=
  | Ok (a : A)
  | Throw (e : js_error).
Arguments Ok {A} a.
Arguments Throw {A} e.

Definition rbind {A B} (r : result A) (k : A -> result B) : result B :=
  match r with
  | Ok a => k a
  | Throw e => Throw e
  end.

(** [arr.map(f)] for a callback that may throw: the first exception ends the
    traversal. The callback receives the element and its index. *)
Fixpoint map_result {A B} (f : nat -> A -> result B) (i : nat) (l : list A)
  : result (list B) :=
  match l with
  | [] => Ok []
  | a :: l' =>
      rbind (f i a) (fun b =>
      rbind (map_result f (S i) l') (fun bs => Ok (b :: bs)))
  end.

(** An object read by property name; a missing property reads [undefined].
    The names the script reads with [get] are written out in it
    ([node.id], [link.source], ...), and none of them is a member of
    [Object.prototype]. *)
Abbreviation obj := (gmap string value).

Definition get (o : obj) (k : string) : value := default VUndefined (o !! k).

(** ToBoolean. *)
Definition truthy (v : value) : bool :=
  match v with
  | VUndefined | VNull => false
  | VBool b => b
  | VNum f => negb (PrimFloat.is_zero f || PrimFloat.is_nan f)
  | VStr s => negb (String.eqb s "")
  | VMember _ => true
  end.

(** [a || b]. *)
Definition js_or (a b : value) : value := if truthy a then a else b.
Infix "|||" := js_or (at level 50, left associativity).

(** The property names of [Object.prototype] in a browser (ECMAScript with
    its Annex B); the page adds none. *)
Definition Object_prototype_keys : list string :=
  [ "constructor"; "__defineGetter__"; "__defineSetter__"; "hasOwnProperty";
    "__lookupGetter__"; "__lookupSetter__"; "isPrototypeOf";
    "propertyIsEnumerable"; "toString"; "valueOf"; "__proto__";
    "toLocaleString" ].

Definition inherited (k : string) : bool :=
  existsb (String.eqb k) Object_prototype_keys.

(** [table[k]] for an object literal [table] and a computed key [k]: an own
    property, else a member of [Object.prototype], else [undefined]. *)
Inductive member (A : Type) :=
  | Own (a : A)
  | Inherited
  | Absent.
Arguments Own {A} a.
Arguments Inherited {A}.
Arguments Absent {A}.

Definition lookup_member {A} (table : gmap string A) (k : string) : member A :=
  match table !! k with
  | Some a => Own a
  | None => if inherited k then Inherited else Absent
  end.

(** The integer a float denotes, when it denotes one. *)
Definition float_int (f : float) : option Z :=
  match Prim2SF f with
  | S754_zero _ => Some 0%Z
  | S754_finite s m e =>
      let mag :=
        if (0 <=? e)%Z then Some (Z.pos m * 2 ^ e)%Z
        else if (Z.pos m mod 2 ^ (- e) =? 0)%Z then Some (Z.pos m / 2 ^ (- e))%Z
        else None in
      (fun z => if s then (- z)%Z else z) <$> mag
  | _ => None
  end.

(** Correctly rounded conversion of an integer to a float. *)
Definition Z2F (z : Z) : float := SF2Prim (binary_normalize prec emax z 0 false).

(** What the source uses from the JavaScript runtime and the browser without
    defining it. *)
Record Host := {
  Math_cos : float -> float;
  Math_sin : float -> float;
  (* Number::toString outside the safe integers *)
  NumberToString_other : float -> string;
  (* StringToNumber, the numeric reading of a string *)
  StringToNumber : string -> float;
  (* ToString of the member of Object.prototype under a key *)
  MemberToString : string -> string;
  (* whether the member of Object.prototype under the first key has a truthy
     property under the second *)
  member_has : string -> string -> bool;
  (* [Math.random().toString(36).substr(2, 9)] drawn while element [i] is mapped *)
  Math_random_id : nat -> string;
  (* [new Date().toISOString()] *)
  Date_now_iso : string;
}.

(** ** The data adapter (class PyPowerDataAdapter) *)

(** Scope of the embedding. The nodes and links of a payload are objects
    whose properties hold scalars; a lookup in one of the adapter's tables
    by a computed key finds the table's own entries and the members of
    [Object.prototype]; the white space [parseInt] skips is the ASCII
    one. *)
Module Adapter.
Section WithHost.
Context (host : Host).

(** Number::toString: a safe integer prints its decimal digits. *)
Definition NumberToString (f : float) : string :=
  match float_int f with
  | Some z =>
      if (Z.abs z <=? 2 ^ 53)%Z then pretty z else NumberToString_other host f
  | None =>
      if PrimFloat.is_nan f then "NaN" else NumberToString_other host f
  end.

(** ToString, as applied by template literals and property keys. *)
Definition ToString (v : value) : string :=
  match v with
  | VUndefined => "undefined"
  | VNull => "null"
  | VBool true => "true"
  | VBool false => "false"
  | VNum f => NumberToString f
  | VStr s => s
  | VMember k => MemberToString host k
  end.

(** ToNumber. *)
Definition ToNumber (v : value) : float :=
  match v with
  | VUndefined => nan
  | VNull => 0
  | VBool true => 1
  | VBool false => 0
  | VNum f => f
  | VStr s => StringToNumber host s
  | VMember k => StringToNumber host (MemberToString host k)
  end.

(** [v > 0] and [v < 0] against the number literal 0. *)
Definition js_gt0 (v : value) : bool := PrimFloat.ltb 0 (ToNumber v).
Definition js_lt0 (v : value) : bool := PrimFloat.ltb (ToNumber v) 0.

(** [v !== undefined]. *)
Definition is_defined (v : value) : bool :=
  match v with
  | VUndefined => false
  | _ => true
  end.

(** *** busTypeMapping (constructor, lines 15-19) *)

Definition busTypeMapping : gmap string string :=
  {[ "1" := "slack"; "2" := "pv"; "3" := "load" ]}.

(** *** detectCaseType *)

(** A payload. [p_nodes] and [p_links] hold the [nodes] and [links]
    properties when they are arrays. For a [nodes] that is not an array,
    [p_nodes_length] is [None] when it is falsy or missing, and otherwise
    the number its [length] property compares as ([NaN] when it has none:
    a number, [true], an object without [length]). *)
Record payload := {
  p_nodes : option (list obj);
  p_nodes_length : option float;
  p_links : option (list obj);
}.

(** The ladder of comparisons [nodeCount <= 9], [nodeCount <= 14], ... *)
Definition case_of_count (le : nat -> bool) : string :=
  if le 9 then "case9"
  else if le 14 then "case14"
  else if le 30 then "case30"
  else if le 39 then "case39"
  else if le 57 then "case57"
  else if le 118 then "case118"
  else "custom".

(** The test is [!data.nodes], not [Array.isArray]: the length of an array
    is compared as the natural number it is, that of any other truthy
    value as a float. *)
Definition detectCaseType (data : option payload) : string :=
  match data with
  | None => "unknown"
  | Some d =>
      match p_nodes d with
      | Some ns => case_of_count (fun k => (length ns <=? k)%nat)
      | None =>
          match p_nodes_length d with
          | None => "unknown"
          | Some nodeCount =>
              case_of_count (fun k => PrimFloat.leb nodeCount (Z2F (Z.of_nat k)))
          end
      end
  end.

(** *** determineNodeType *)

Definition determineNodeType (node : obj) (caseType : string) : value :=
  if truthy (get node "type") then get node "type"
  else if is_defined (get node "bus_type") then
    (* every entry of the table and every member of Object.prototype is
       truthy, so [|| 'load'] only replaces a failed lookup *)
    match lookup_member busTypeMapping (ToString (get node "bus_type")) with
    | Own s => VStr s
    | Inherited => VMember (ToString (get node "bus_type"))
    | Absent => VStr "load"
    end
  else if js_gt0 (get node "active_power") && is_defined (get node "voltage") then VStr "pv"
  else if js_gt0 (get node "active_power") then VStr "generator"
  else if js_lt0 (get node "active_power") then VStr "load"
  else VStr "load".

(** *** String helpers used by the coordinate synthesis *)

Fixpoint drop_string (n : nat) (s : string) : string :=
  match n, s with
  | O, _ => s
  | S n', String _ s' => drop_string n' s'
  | S _, EmptyString => EmptyString
  end.

(** [s.replace(pat, '')] for a non-empty string pattern: the first occurrence
    is removed. *)
Fixpoint remove_first (pat s : string) : string :=
  match s with
  | EmptyString => EmptyString
  | String c s' =>
      if String.prefix pat s then drop_string (String.length pat) s
      else String c (remove_first pat s')
  end.

Definition is_js_space (c : ascii) : bool :=
  let n := nat_of_ascii c in
  ((9 <=? n)%nat && (n <=? 13)%nat) || (n =? 32)%nat.

Fixpoint trim_start (s : string) : string :=
  match s with
  | String c s' => if is_js_space c then trim_start s' else s
  | EmptyString => EmptyString
  end.

Definition digit_value (c : ascii) : option Z :=
  let n := nat_of_ascii c in
  if (48 <=? n)%nat && (n <=? 57)%nat then Some (Z.of_nat (n - 48))
  else if (97 <=? n)%nat && (n <=? 122)%nat then Some (Z.of_nat (n - 87))
  else if (65 <=? n)%nat && (n <=? 90)%nat then Some (Z.of_nat (n - 55))
  else None.

(** The longest prefix of digits of the radix, read as an integer; [None]
    when the prefix is empty. *)
Fixpoint read_digits (radix : Z) (acc : option Z) (s : string) : option Z :=
  match s with
  | EmptyString => acc
  | String c s' =>
      match digit_value c with
      | Some d =>
          if (d <? radix)%Z
          then read_digits radix (Some (default 0%Z acc * radix + d)%Z) s'
          else acc
      | None => acc
      end
  end.

(** [parseInt(s)] with no radix argument. White space is the ASCII one. *)
Definition parseInt (s : string) : float :=
  let s1 := trim_start s in
  let '(neg, s2) :=
    match s1 with
    | String "-"%char r => (true, r)
    | String "+"%char r => (false, r)
    | _ => (false, s1)
    end in
  let '(radix, s3) :=
    if String.prefix "0x" s2 || String.prefix "0X" s2
    then (16%Z, drop_string 2 s2) else (10%Z, s2) in
  match read_digits radix None s3 with
  | None => nan
  | Some z => Z2F (if neg then - z else z)
  end.

(** *** Coordinate synthesis (generateCircularLayout,
    generateCircularLayoutForNode, generateNodeCoordinates) *)

Record coords := { cx : float; cy : float }.

Definition Math_PI : float := 3.141592653589793%float.

Definition circle_point (index : float) (total : float)
  (centerX centerY radius : float) : coords :=
  let angle := ((2 * Math_PI * (index - 1)) / total)%float in
  {| cx := (centerX + radius * Math_cos host angle)%float;
     cy := (centerY + radius * Math_sin host angle)%float |}.

(** The loop [for (let i = 1; i <= nodeCount; i++) layout[`bus${i}`] = ...]. *)
Definition generateCircularLayout (nodeCount : nat)
  (centerX centerY radius : float) : gmap string coords :=
  foldl
    (fun layout i =>
       let fi := Z2F (Z.of_nat i) in
       <[ "bus" ++ NumberToString fi :=
            circle_point fi (Z2F (Z.of_nat nodeCount)) centerX centerY radius ]> layout)
    (∅ : gmap string coords) (seq 1 nodeCount).

(** [nodeId.replace] exists only on strings. *)
Definition generateCircularLayoutForNode (nodeId : value) (totalNodes : nat)
  (centerX centerY radius : float) : result coords :=
  match nodeId with
  | VStr s =>
      let nodeIndex := ToNumber (VNum (parseInt (remove_first "bus" s)) ||| VNum 1) in
      Ok (circle_point nodeIndex (Z2F (Z.of_nat totalNodes)) centerX centerY radius)
  | _ => Throw TypeError
  end.

Definition xy (x y : float) : coords := {| cx := x; cy := y |}.

Definition predefinedLayouts : gmap string (gmap string coords) :=
  {[ "case9" :=
       {[ "bus1" := xy 100 150; "bus2" := xy 200 100; "bus3" := xy 200 200;
          "bus4" := xy 300 50; "bus5" := xy 300 150; "bus6" := xy 300 250;
          "bus7" := xy 400 100; "bus8" := xy 400 200; "bus9" := xy 500 150 ]};
     "case14" :=
       list_to_map
         [ ("bus1", xy 100 200); ("bus2", xy 200 150); ("bus3", xy 200 250);
           ("bus4", xy 300 100); ("bus5", xy 300 200); ("bus6", xy 300 300);
           ("bus7", xy 400 150); ("bus8", xy 400 250); ("bus9", xy 500 100);
           ("bus10", xy 500 200); ("bus11", xy 500 300); ("bus12", xy 600 150);
           ("bus13", xy 600 250); ("bus14", xy 700 200) ];
     "case30" := generateCircularLayout 30 400 300 80 ]}.

(** What generateNodeCoordinates returns: a coordinate pair, or a value
    found in the prototype chain of a table, which has no [x] and no [y]. *)
Inductive located :=
  | Point (c : coords)
  | NotAPoint.

(** [predefinedLayouts[caseType] && predefinedLayouts[caseType][nodeId]],
    when it is truthy. *)
Definition layout_entry (caseType : string) (nodeId : value) : option located :=
  match lookup_member predefinedLayouts caseType with
  | Own layout =>
      match lookup_member layout (ToString nodeId) with
      | Own c => Some (Point c)
      | Inherited => Some NotAPoint
      | Absent => None
      end
  | Inherited =>
      if member_has host caseType (ToString nodeId) then Some NotAPoint else None
  | Absent => None
  end.

Definition generateNodeCoordinates (nodeId : value) (caseType : string)
  (totalNodes : nat) : result located :=
  match layout_entry caseType nodeId with
  | Some p => Ok p
  | None =>
      rbind (generateCircularLayoutForNode nodeId totalNodes 400 300 80)
        (fun c => Ok (Point c))
  end.

(** [coords.x] and [coords.y]. *)
Definition point_x (p : located) : value :=
  match p with
  | Point c => VNum (cx c)
  | NotAPoint => VUndefined
  end.

Definition point_y (p : located) : value :=
  match p with
  | Point c => VNum (cy c)
  | NotAPoint => VUndefined
  end.

(** *** normalizeNodes and normalizeLinks *)

Definition normalizeNode (caseType : string) (total : nat) (i : nat) (node : obj)
  : result obj :=
  let normalizedNode : obj :=
    {[ "id" :=
         get node "id"
         ||| VStr ("bus" ++ ToString (get node "bus_i" ||| get node "bus"
                                      ||| VStr (Math_random_id host i)));
       "voltage" := get node "voltage" ||| get node "vm" ||| VNum 1;
       "angle" := get node "angle" ||| get node "va" ||| VNum 0;
       "active_power" := get node "active_power" ||| get node "pd" ||| VNum 0;
       "reactive_power" := get node "reactive_power" ||| get node "qd" ||| VNum 0;
       "type" := determineNodeType node caseType ]} in
  if negb (truthy (get normalizedNode "x")) || negb (truthy (get normalizedNode "y"))
  then
    rbind (generateNodeCoordinates (get normalizedNode "id") caseType total)
      (fun coords =>
         Ok (<[ "y" := point_y coords ]> (<[ "x" := point_x coords ]> normalizedNode)))
  else Ok normalizedNode.

Definition normalizeNodes (nodes : list obj) (caseType : string)
  : result (list obj) :=
  map_result (normalizeNode caseType (length nodes)) 0 nodes.

Definition normalizeLink (link : obj) : obj :=
  {[ "source" := get link "source" ||| get link "fbus" ||| get link "from";
     "target" := get link "target" ||| get link "tbus" ||| get link "to";
     "resistance" := get link "resistance" ||| get link "r" ||| VNum 0.01;
     "reactance" := get link "reactance" ||| get link "x" ||| VNum 0.05;
     "active_power" := get link "active_power" ||| get link "pf" ||| VNum 0;
     "reactive_power" := get link "reactive_power" ||| get link "qf" ||| VNum 0 ]}.

Definition normalizeLinks (links : list obj) (caseType : string) : list obj :=
  map normalizeLink links.

(** *** validateData and convertData *)

Definition validateData (data : option payload) : bool :=
  match data with
  | None => false
  | Some d =>
      match p_nodes d, p_links d with
      | Some ns, Some ls =>
          forallb (fun node => truthy (get node "id")) ns
          && forallb (fun link => truthy (get link "source") && truthy (get link "target")) ls
      | _, _ => false
      end
  end.

Record metadata := {
  originalFormat : string;
  convertedAt : string;
  nodeCount : nat;
  linkCount : nat;
}.

Record converted := {
  caseType : string;
  nodes : list obj;
  links : list obj;
  meta : metadata;
}.

(** The message of the exception is the source's, in English here. *)
Definition invalid_shape : js_error := Error "invalid data format".

Definition convertData (rawData : option payload) : result converted :=
  if negb (validateData rawData) then Throw invalid_shape
  else
    let caseType := detectCaseType rawData in
    let ns := default [] (rawData ≫= p_nodes) in
    let ls := default [] (rawData ≫= p_links) in
    rbind (normalizeNodes ns caseType) (fun nodes' =>
    Ok {| caseType := caseType;
          nodes := nodes';
          links := normalizeLinks ls caseType;
          meta := {| originalFormat := "pypower";
                     convertedAt := Date_now_iso host;
                     nodeCount := length ns;
                     linkCount := length ls |} |}).

End WithHost.
End Adapter.

(** ** The visualization's store (class PowerFlowVisualization) *)

Module Viz.

(** Scope of the embedding. Node ids are strings, as in the data model; a
    link endpoint is an id string, a node object or [undefined]. The
    drawing, the charts and the statistics panel (D3, Chart.js, the DOM)
    are not embedded: they do not write the fields modelled here. Two ways
    in which D3 fails on this data are kept: the key function of the link
    data join reading [d.source.id] on an undefined endpoint is the
    TypeError of [updateVisualization], and the link force rejecting an
    endpoint that is neither a node object nor the id of a node is the
    Error of [startSimulation]. The view is taken to be initialized
    ([nodeElements], [linkElements] and [simulation] exist), and the links
    the link force holds from an earlier call are taken to have node
    objects at both ends. The answer to a [confirm] dialog and the page
    geometry are arguments. *)

(** Node and link objects are shared and mutated in place: they live in two
    arenas, and an address is an index into the arena. An address always
    refers to an object; the arenas only grow. *)
Definition loc := nat.

(** [link.source] and [link.target]: an id string, a node object, or
    [undefined] once a lookup by id has failed. *)
Inductive endpoint :=
  | EUndefined
  | EStr (s : string)
  | ERef (l : loc).

Record node := {
  node_id : string;
  node_type : string;
  node_x : float;
  node_y : float;
  node_voltage : float;
  node_angle : float;
  node_active_power : float;
  node_reactive_power : float;
}.

Record link := {
  link_source : endpoint;
  link_target : endpoint;
  link_resistance : float;
  link_reactance : float;
  link_active_power : float;
  link_reactive_power : float;
}.

#[global] Instance endpoint_eq_dec : EqDecision endpoint.
Proof. solve_decision. Defined.

#[global] Instance node_inhabited : Inhabited node :=
  populate {| node_id := ""; node_type := ""; node_x := 0; node_y := 0;
              node_voltage := 0; node_angle := 0;
              node_active_power := 0; node_reactive_power := 0 |}.

#[global] Instance link_inhabited : Inhabited link :=
  populate {| link_source := EUndefined; link_target := EUndefined;
              link_resistance := 0; link_reactance := 0;
              link_active_power := 0; link_reactive_power := 0 |}.

(** The four node types [addNode] knows. *)
Inductive node_kind := slack | pv | generator | load.

(** What [showNotification] is called with. The texts are the source's; the
    two guard messages of the link-creation gesture are named after the
    errors they report. *)
Inductive level := success | error | info.

Inductive message :=
  | SelfLoopError                              (* '不能连接到自身节点' *)
  | DuplicateLinkError                         (* '节点间已存在连接' *)
  | MsgPickNodes                               (* startLinkCreation's prompt *)
  | MsgSourceChosen (id : string)              (* `已选择起始节点: ${d.id}，请点击目标节点` *)
  | MsgLinkAdded (sourceId targetId : string)  (* `已添加连接线: ${sourceId} → ${targetId}` *)
  | MsgNodeAdded (type : node_kind) (id : string)
  | MsgNodeDeleted (id : string)               (* `已删除节点: ${nodeId}` *)
  | MsgFlowDone                                (* '潮流计算完成' *)
  | MsgFlowFailed (e : js_error).              (* `计算失败: ${error.message}` *)

(** [this.state], with the two arenas and the notifications shown so far
    (oldest first). *)
Record state := {
  node_heap : list node;
  link_heap : list link;
  nodes : list loc;
  links : list loc;
  selectedNode : option string;
  selectedLink : option loc;
  linkCreationMode : bool;
  selectedLinkSource : option loc;
  notifications : list (level * message);
}.

Definition set_node_heap (h : list node) (st : state) : state :=
  {| node_heap := h; link_heap := link_heap st; nodes := nodes st; links := links st;
     selectedNode := selectedNode st; selectedLink := selectedLink st;
     linkCreationMode := linkCreationMode st;
     selectedLinkSource := selectedLinkSource st; notifications := notifications st |}.

Definition set_link_heap (h : list link) (st : state) : state :=
  {| node_heap := node_heap st; link_heap := h; nodes := nodes st; links := links st;
     selectedNode := selectedNode st; selectedLink := selectedLink st;
     linkCreationMode := linkCreationMode st;
     selectedLinkSource := selectedLinkSource st; notifications := notifications st |}.

Definition set_nodes (ns : list loc) (st : state) : state :=
  {| node_heap := node_heap st; link_heap := link_heap st; nodes := ns; links := links st;
     selectedNode := selectedNode st; selectedLink := selectedLink st;
     linkCreationMode := linkCreationMode st;
     selectedLinkSource := selectedLinkSource st; notifications := notifications st |}.

Definition set_links (ls : list loc) (st : state) : state :=
  {| node_heap := node_heap st; link_heap := link_heap st; nodes := nodes st; links := ls;
     selectedNode := selectedNode st; selectedLink := selectedLink st;
     linkCreationMode := linkCreationMode st;
     selectedLinkSource := selectedLinkSource st; notifications := notifications st |}.

Definition set_selectedNode (s : option string) (st : state) : state :=
  {| node_heap := node_heap st; link_heap := link_heap st; nodes := nodes st; links := links st;
     selectedNode := s; selectedLink := selectedLink st;
     linkCreationMode := linkCreationMode st;
     selectedLinkSource := selectedLinkSource st; notifications := notifications st |}.

Definition set_selectedLink (l : option loc) (st : state) : state :=
  {| node_heap := node_heap st; link_heap := link_heap st; nodes := nodes st; links := links st;
     selectedNode := selectedNode st; selectedLink := l;
     linkCreationMode := linkCreationMode st;
     selectedLinkSource := selectedLinkSource st; notifications := notifications st |}.

Definition set_linkCreationMode (b : bool) (st : state) : state :=
  {| node_heap := node_heap st; link_heap := link_heap st; nodes := nodes st; links := links st;
     selectedNode := selectedNode st; selectedLink := selectedLink st;
     linkCreationMode := b;
     selectedLinkSource := selectedLinkSource st; notifications := notifications st |}.

Definition set_selectedLinkSource (l : option loc) (st : state) : state :=
  {| node_heap := node_heap st; link_heap := link_heap st; nodes := nodes st; links := links st;
     selectedNode := selectedNode st; selectedLink := selectedLink st;
     linkCreationMode := linkCreationMode st;
     selectedLinkSource := l; notifications := notifications st |}.

Definition add_notification (n : level * message) (st : state) : state :=
  {| node_heap := node_heap st; link_heap := link_heap st; nodes := nodes st; links := links st;
     selectedNode := selectedNode st; selectedLink := selectedLink st;
     linkCreationMode := linkCreationMode st;
     selectedLinkSource := selectedLinkSource st;
     notifications := notifications st ++ [n] |}.

(** The state the constructor builds. *)
Definition initial_state : state :=
  {| node_heap := []; link_heap := []; nodes := []; links := [];
     selectedNode := None; selectedLink := None; linkCreationMode := false;
     selectedLinkSource := None; notifications := [] |}.

(** *** Methods run on the state and may throw; a thrown exception keeps the
    mutations made before it. *)
Definition M (A : Type) : Type := state -> result A * state.

Definition ret {A} (a : A) : M A := fun st => (Ok a, st).
Definition throw {A} (e : js_error) : M A := fun st => (Throw e, st).
Definition bind {A B} (m : M A) (k : A -> M B) : M B :=
  fun st =>
    match m st with
    | (Ok a, st') => k a st'
    | (Throw e, st') => (Throw e, st')
    end.
Definition gets {A} (f : state -> A) : M A := fun st => (Ok (f st), st).
Definition modify (f : state -> state) : M unit := fun st => (Ok tt, f st).
Definition try_catch (m : M unit) (handler : js_error -> M unit) : M unit :=
  fun st =>
    match m st with
    | (Ok _, st') => (Ok tt, st')
    | (Throw e, st') => handler e st'
    end.

Notation "'let*' x := m 'in' k" := (bind m (fun x => k))
  (at level 10, x name, m at level 100, k at level 200).

Definition exec {A} (m : M A) (st : state) : state := snd (m st).
Definition outcome {A} (m : M A) (st : state) : result A := fst (m st).

Definition lift_read {A} (f : state -> result A) : M A := fun st => (f st, st).

(** [arr.find(p)] and [arr.filter(p)] for a callback that may throw. *)
Fixpoint find_result {A} (p : A -> result bool) (l : list A) : result (option A) :=
  match l with
  | [] => Ok None
  | a :: l' => rbind (p a) (fun b => if b then Ok (Some a) else find_result p l')
  end.

Fixpoint filter_result {A} (p : A -> result bool) (l : list A) : result (list A) :=
  match l with
  | [] => Ok []
  | a :: l' =>
      rbind (p a) (fun b =>
      rbind (filter_result p l') (fun r => Ok (if b then a :: r else r)))
  end.

(** *** Reading objects *)

Definition node_at (st : state) (l : loc) : node := node_heap st !!! l.
Definition link_at (st : state) (l : loc) : link := link_heap st !!! l.
Definition id_of (st : state) (l : loc) : string := node_id (node_at st l).

(** A string is truthy when it is not empty. *)
Definition nonempty (s : string) : bool := negb (String.eqb s "").

(** [this.state.nodes.find(node => node.id === s)]. *)
Definition find_node (st : state) (s : string) : option loc :=
  List.find (fun n => String.eqb (id_of st n) s) (nodes st).

(** The value of [e.id || e]: reading [.id] of [undefined] throws, a string
    has no [id] property, a node with an empty id yields the node itself. *)
Inductive key :=
  | KStr (s : string)
  | KRef (l : loc).

Definition endpoint_key (st : state) (e : endpoint) : result key :=
  match e with
  | EUndefined => Throw TypeError
  | EStr s => Ok (KStr s)
  | ERef l => if nonempty (id_of st l) then Ok (KStr (id_of st l)) else Ok (KRef l)
  end.

(** [k === s] for a string [s]. *)
Definition key_is (k : key) (s : string) : bool :=
  match k with
  | KStr s' => String.eqb s' s
  | KRef _ => false
  end.

(** [sel === s] for [this.state.selectedNode], [None] being [null]. *)
Definition sel_is (sel : option string) (s : string) : bool :=
  match sel with
  | Some s' => String.eqb s' s
  | None => false
  end.

(** *** updateVisualization (lines 1487-1574) *)

(** One endpoint of the [forEach] body (lines 1491-1498). *)
Definition resolve_endpoint (st : state) (e : endpoint) : endpoint :=
  match e with
  | ERef l =>
      if nonempty (id_of st l) then
        match find_node st (id_of st l) with
        | Some matchedNode => if negb (matchedNode =? l)%nat then ERef matchedNode else e
        | None => e
        end
      else e
  | EStr s =>
      match find_node st s with
      | Some n => ERef n
      | None => EUndefined
      end
  | EUndefined => EUndefined
  end.

Definition resolve_link (st : state) (l : link) : link :=
  {| link_source := resolve_endpoint st (link_source l);
     link_target := resolve_endpoint st (link_target l);
     link_resistance := link_resistance l;
     link_reactance := link_reactance l;
     link_active_power := link_active_power l;
     link_reactive_power := link_reactive_power l |}.

(** [this.state.links.forEach(link => ...)]: every link object of the array
    is updated in place, in order. *)
Definition resolve_references (st : state) : state :=
  set_link_heap
    (foldl (fun h ll => <[ ll := resolve_link st (h !!! ll) ]> h) (link_heap st) (links st))
    st.

Definition is_undefined (e : endpoint) : bool :=
  match e with
  | EUndefined => true
  | _ => false
  end.

(** The data join calls the key function
    [d => `${d.source.id || d.source}-${d.target.id || d.target}`] on every
    link; it throws on an undefined endpoint. *)
Definition renderable (st : state) : bool :=
  forallb (fun ll => negb (is_undefined (link_source (link_at st ll)))
                     && negb (is_undefined (link_target (link_at st ll))))
          (links st).

(** The drawing and the restart of the simulation leave the modelled state
    alone. *)
Definition updateVisualization : M unit :=
  let* _ := modify resolve_references in
  let* ok := gets renderable in
  if ok then ret tt else throw TypeError.

(** *** Notifications and link-creation mode *)

Definition showNotification (lv : level) (msg : message) : M unit :=
  modify (add_notification (lv, msg)).

Definition startLinkCreation : M unit :=
  let* _ := modify (set_linkCreationMode true) in
  let* _ := modify (set_selectedLinkSource None) in
  showNotification info MsgPickNodes.

Definition cancelLinkCreation : M unit :=
  let* _ := modify (set_linkCreationMode false) in
  modify (set_selectedLinkSource None).

(** *** addLink (lines 2018-2032) *)

Definition alloc_link (l : link) : M loc :=
  fun st => (Ok (length (link_heap st)), set_link_heap (link_heap st ++ [l]) st).

Definition alloc_node (n : node) : M loc :=
  fun st => (Ok (length (node_heap st)), set_node_heap (node_heap st ++ [n]) st).

Definition addLink (sourceId targetId : string) : M unit :=
  let* newLink := alloc_link {| link_source := EStr sourceId;
                                link_target := EStr targetId;
                                link_resistance := 0.01;
                                link_reactance := 0.1;
                                link_active_power := 75;
                                link_reactive_power := 30 |} in
  let* _ := modify (fun st => set_links (links st ++ [newLink]) st) in
  let* _ := updateVisualization in
  showNotification success (MsgLinkAdded sourceId targetId).

(** *** handleNodeClickForLinkCreation (lines 1977-2013) *)

(** The callback of [this.state.links.find] (lines 1995-2002). *)
Definition connects (st : state) (a b : string) (ll : loc) : result bool :=
  rbind (endpoint_key st (link_source (link_at st ll))) (fun sourceId =>
  rbind (endpoint_key st (link_target (link_at st ll))) (fun targetId =>
  Ok ((key_is sourceId a && key_is targetId b)
      || (key_is sourceId b && key_is targetId a)))).

Definition handleNodeClickForLinkCreation (d : loc) : M unit :=
  let* mode := gets linkCreationMode in
  if negb mode then ret tt
  else
    let* src := gets selectedLinkSource in
    match src with
    | None =>
        let* _ := modify (set_selectedLinkSource (Some d)) in
        let* d_id := gets (fun st => id_of st d) in
        showNotification info (MsgSourceChosen d_id)
    | Some a =>
        let* a_id := gets (fun st => id_of st a) in
        let* d_id := gets (fun st => id_of st d) in
        if String.eqb a_id d_id then showNotification error SelfLoopError
        else
          let* existingLink :=
            lift_read (fun st => find_result (connects st a_id d_id) (links st)) in
          match existingLink with
          | Some _ => showNotification error DuplicateLinkError
          | None =>
              let* _ := addLink a_id d_id in
              cancelLinkCreation
          end
    end.

(** *** Selection (handleNodeClick, handleLinkClick, clearNodeInfo,
    displayLinkInfo) *)

Definition clearNodeInfo : M unit :=
  let* _ := modify (set_selectedNode None) in
  modify (set_selectedLink None).

(** [displayNodeInfo] only writes the panel. *)
Definition handleNodeClick (d : loc) : M unit :=
  let* mode := gets linkCreationMode in
  if mode then handleNodeClickForLinkCreation d
  else
    let* d_id := gets (fun st => id_of st d) in
    let* _ := modify (fun st =>
      set_selectedNode (if sel_is (selectedNode st) d_id then None else Some d_id) st) in
    let* _ := modify (set_selectedLink None) in
    let* sel := gets selectedNode in
    match sel with
    | Some s => if nonempty s then ret tt else clearNodeInfo
    | None => clearNodeInfo
    end.

(** The panel shows [link.source.id || link.source] and the same for the
    target, then the link is recorded as selected (line 2485). *)
Definition displayLinkInfo (l : loc) : M unit :=
  let* _ := lift_read (fun st => endpoint_key st (link_source (link_at st l))) in
  let* _ := lift_read (fun st => endpoint_key st (link_target (link_at st l))) in
  modify (set_selectedLink (Some l)).

Definition handleLinkClick (d : loc) : M unit :=
  let* _ := modify (set_selectedLink (Some d)) in
  let* _ := modify (set_selectedNode None) in
  displayLinkInfo d.

(** *** addNode (lines 2169-2234) *)

(** What [addNode] reads from the page: the size of the drawing, the zoom
    transform and two draws of [Math.random()]. *)
Record viewport := {
  clientWidth : float;
  clientHeight : float;
  transform_x : float;
  transform_y : float;
  transform_k : float;
  random1 : float;
  random2 : float;
}.

Definition id_prefix (type : node_kind) : string :=
  match type with
  | slack => "slack"
  | pv => "pv"
  | generator => "gen"
  | load => "load"
  end.

Definition type_name (type : node_kind) : string :=
  match type with
  | slack => "slack"
  | pv => "pv"
  | generator => "generator"
  | load => "load"
  end.

(** The id is the prefix followed by the decimal digits of
    [this.state.nodes.length + 1]. *)
Definition new_node (type : node_kind) (count : nat) (v : viewport) : node :=
  let centerX := ((clientWidth v / 2 - transform_x v) / transform_k v)%float in
  let centerY := ((clientHeight v / 2 - transform_y v) / transform_k v)%float in
  let offsetX := ((random1 v - 0.5) * 100)%float in
  let offsetY := ((random2 v - 0.5) * 100)%float in
  let '(voltage, active_power, reactive_power) :=
    match type with
    | slack => (1.0, 0, 0)
    | pv => (1.02, 100, 0)
    | generator => (1.0, 100, 50)
    | load => (0.98, -50, -20)
    end%float in
  {| node_id := id_prefix type ++ pretty (count + 1)%nat;
     node_type := type_name type;
     node_x := (centerX + offsetX)%float;
     node_y := (centerY + offsetY)%float;
     node_voltage := voltage;
     node_angle := 0;
     node_active_power := active_power;
     node_reactive_power := reactive_power |}.

Definition addNode (type : node_kind) (v : viewport) : M unit :=
  let* count := gets (fun st => length (nodes st)) in
  let* newNode := alloc_node (new_node type count v) in
  let* _ := modify (fun st => set_nodes (nodes st ++ [newNode]) st) in
  let* _ := updateVisualization in
  let* new_id := gets (fun st => id_of st newNode) in
  showNotification success (MsgNodeAdded type new_id).

(** *** deleteNode (lines 2238-2254) *)

(** The callback of the link filter (lines 2241-2245). *)
Definition not_incident (st : state) (nodeId : string) (ll : loc) : result bool :=
  rbind (endpoint_key st (link_source (link_at st ll))) (fun sourceId =>
  rbind (endpoint_key st (link_target (link_at st ll))) (fun targetId =>
  Ok (negb (key_is sourceId nodeId) && negb (key_is targetId nodeId)))).

(** [confirmed] is the answer to the [confirm] dialog. *)
Definition deleteNode (nodeId : string) (confirmed : bool) : M unit :=
  if confirmed then
    let* kept := lift_read (fun st => filter_result (not_incident st nodeId) (links st)) in
    let* _ := modify (set_links kept) in
    let* _ := modify (fun st =>
      set_nodes (List.filter (fun n => negb (String.eqb (id_of st n) nodeId)) (nodes st)) st) in
    let* sel := gets selectedNode in
    let* _ := if sel_is sel nodeId then modify (set_selectedNode None) else ret tt in
    let* _ := updateVisualization in
    showNotification success (MsgNodeDeleted nodeId)
  else ret tt.

(** *** The response to the calculate-flow request *)

(** A link of the response body: an endpoint is an id string, an embedded
    node object, or missing. *)
Inductive json_endpoint :=
  | JMissing
  | JStr (s : string)
  | JObj (n : node).

Record json_link := {
  j_source : json_endpoint;
  j_target : json_endpoint;
  j_resistance : float;
  j_reactance : float;
  j_active_power : float;
  j_reactive_power : float;
}.

Record flow_result := {
  r_nodes : list node;
  r_links : list json_link;
}.

(** What comes back from the request: no readable result (the request
    fails or [!response.ok]; an Error with a message is thrown), a result
    whose [stats] updateStats cannot show (a part it reads, such as
    [stats.voltage], is missing), or a result with no [stats] or with
    complete ones. *)
Inductive response :=
  | HttpFailed (msg : string)
  | HttpBadStats (result : flow_result)
  | HttpOk (result : flow_result).

(** [await response.json()] builds fresh objects: every node of the body,
    and every node object embedded in a link, gets an address of its own. *)
Definition parse_endpoint (e : json_endpoint) : M endpoint :=
  match e with
  | JMissing => ret EUndefined
  | JStr s => ret (EStr s)
  | JObj n => let* l := alloc_node n in ret (ERef l)
  end.

Definition parse_link (jl : json_link) : M loc :=
  let* s := parse_endpoint (j_source jl) in
  let* t := parse_endpoint (j_target jl) in
  alloc_link {| link_source := s; link_target := t;
                link_resistance := j_resistance jl;
                link_reactance := j_reactance jl;
                link_active_power := j_active_power jl;
                link_reactive_power := j_reactive_power jl |}.

Fixpoint mapM {A B} (f : A -> M B) (l : list A) : M (list B) :=
  match l with
  | [] => ret []
  | a :: l' =>
      let* b := f a in
      let* bs := mapM f l' in
      ret (b :: bs)
  end.

(** *** startSimulation (lines 842-863) and the link force of D3 *)

(** [forceLink().id(d => d.id)] (lines 707-709; D3 from version 6 on, whose
    handlers take [(event, d)] as those of the script do) looks up an
    endpoint that is not an object in a Map from id to node built from the
    node collection, in which the last node with an id is the one found,
    and throws when the Map has no entry. *)
Definition d3_find (st : state) (e : endpoint) : result endpoint :=
  match e with
  | ERef _ => Ok e
  | EStr s =>
      match List.find (fun n => String.eqb (id_of st n) s) (rev (nodes st)) with
      | Some n => Ok (ERef n)
      | None => Throw (Error ("node not found: " ++ s))
      end
  | EUndefined => Throw (Error "node not found: undefined")
  end.

Definition with_source (e : endpoint) (l : link) : link :=
  {| link_source := e;
     link_target := link_target l;
     link_resistance := link_resistance l;
     link_reactance := link_reactance l;
     link_active_power := link_active_power l;
     link_reactive_power := link_reactive_power l |}.

Definition with_target (e : endpoint) (l : link) : link :=
  {| link_source := link_source l;
     link_target := e;
     link_resistance := link_resistance l;
     link_reactance := link_reactance l;
     link_active_power := link_active_power l;
     link_reactive_power := link_reactive_power l |}.

Definition write_link (ll : loc) (f : link -> link) : M unit :=
  modify (fun st => set_link_heap (<[ ll := f (link_at st ll) ]> (link_heap st)) st).

(** [simulation.force('link').links(links)]: the links are visited in
    order, the source before the target; what was written before an
    exception stays written. *)
Fixpoint force_links (ls : list loc) : M unit :=
  match ls with
  | [] => ret tt
  | ll :: ls' =>
      let* s := lift_read (fun st => d3_find st (link_source (link_at st ll))) in
      let* _ := write_link ll (with_source s) in
      let* t := lift_read (fun st => d3_find st (link_target (link_at st ll))) in
      let* _ := write_link ll (with_target t) in
      force_links ls'
  end.

(** The method as calculatePowerFlow calls it: stopSimulation (line 1404)
    has left [isSimulationActive] false, so the guard of line 843 does not
    return. *)
Definition startSimulation : M unit :=
  let* ls := gets links in
  force_links ls.

(** *** calculatePowerFlow (lines 1400-1481), from the response on *)

(** The [catch] block ends with startSimulation as the [try] block does,
    and what it throws is what the call ends with. *)
Definition calculatePowerFlow (resp : response) : M unit :=
  try_catch
    (let* _ :=
       match resp with
       | HttpFailed msg => throw (Error msg)
       | HttpBadStats result =>
           let* _ := mapM alloc_node (r_nodes result) in
           let* _ := mapM parse_link (r_links result) in
           throw TypeError
       | HttpOk result =>
           let* result_nodes := mapM alloc_node (r_nodes result) in
           let* result_links := mapM parse_link (r_links result) in
           let* _ := modify (set_nodes result_nodes) in
           let* _ := modify (set_links result_links) in
           let* _ := updateVisualization in
           showNotification success MsgFlowDone
       end in
     startSimulation)
    (fun e =>
       let* _ := showNotification error (MsgFlowFailed e) in
       startSimulation).

(** *** useSampleData (lines 484-570) *)

Definition mk_node (i t : string) (x y v a p q : float) : node :=
  {| node_id := i; node_type := t; node_x := x; node_y := y;
     node_voltage := v; node_angle := a;
     node_active_power := p; node_reactive_power := q |}.

Definition mk_link (s t : endpoint) (r x p q : float) : link :=
  {| link_source := s; link_target := t; link_resistance := r;
     link_reactance := x; link_active_power := p; link_reactive_power := q |}.

Definition sample_nodes : list node :=
  [ mk_node "bus1" "generator" 100 150 1.0 0.0 100 50;
    mk_node "bus2" "load" 300 100 0.98 (-2.0) (-80) (-30);
    mk_node "bus3" "load" 300 200 0.97 (-3.0) (-60) (-20);
    mk_node "bus4" "generator" 500 150 1.02 1.0 50 20 ].

Definition sample_links : list link :=
  [ mk_link (EStr "bus1") (EStr "bus2") 0.01 0.05 85 35;
    mk_link (EStr "bus1") (EStr "bus3") 0.015 0.06 75 30;
    mk_link (EStr "bus2") (EStr "bus4") 0.012 0.04 70 25;
    mk_link (EStr "bus3") (EStr "bus4") 0.01 0.05 65 20 ].

Definition useSampleData : M unit :=
  let* ns := mapM alloc_node sample_nodes in
  let* ls := mapM alloc_link sample_links in
  let* _ := modify (set_nodes ns) in
  modify (set_links ls).

End Viz.

(** ** Data used by the examples *)

(** A host for evaluating inputs whose result does not depend on it. *)
Definition idle_host : Host :=
  {| Math_cos := fun _ => 1%float;
     Math_sin := fun _ => 0%float;
     NumberToString_other := fun _ => "?";
     StringToNumber := fun _ => nan;
     MemberToString := fun k => "function " ++ k ++ "() { [native code] }";
     member_has := fun _ _ => false;
     Math_random_id := fun _ => "r";
     Date_now_iso := "1970-01-01T00:00:00.000Z" |}.

(** The three-way table of bus-type codes, by the property key of the code. *)
Definition bus_type_table (code : string) : string :=
  if decide (code = "1") then "slack"
  else if decide (code = "2") then "pv"
  else if decide (code = "3") then "load"
  else "load".

(** The second node of the built-in sample topology (useSampleData, lines
    497-506), as a payload node. *)
Definition sample_bus2 : obj :=
  {[ "id" := VStr "bus2"; "type" := VStr "load";
     "x" := VNum 300; "y" := VNum 100;
     "voltage" := VNum 0.98; "angle" := VNum (-2);
     "active_power" := VNum (-80); "reactive_power" := VNum (-30) ]}.

Definition sample_bus1 : obj :=
  {[ "id" := VStr "bus1"; "type" := VStr "generator";
     "x" := VNum 100; "y" := VNum 150;
     "voltage" := VNum 1; "angle" := VNum 0;
     "active_power" := VNum 100; "reactive_power" := VNum 50 ]}.

(** The first link of the sample (lines 532-539). *)
Definition sample_link12 : obj :=
  {[ "source" := VStr "bus1"; "target" := VStr "bus2";
     "resistance" := VNum 0.01; "reactance" := VNum 0.05;
     "active_power" := VNum 85; "reactive_power" := VNum 35 ]}.

Definition sample_payload : option Adapter.payload :=
  Some {| Adapter.p_nodes := Some [sample_bus1; sample_bus2];
          Adapter.p_nodes_length := None;
          Adapter.p_links := Some [sample_link12] |}.

(** A de-energized bus, and the lossless branch 1-4 of the IEEE 9-bus case
    (r = 0, x = 0.0576). *)
Definition dead_bus : obj :=
  {[ "id" := VStr "bus1"; "type" := VStr "load"; "voltage" := VNum 0;
     "angle" := VNum 0; "active_power" := VNum 0; "reactive_power" := VNum 0 ]}.

Definition lossless_branch : obj :=
  {[ "source" := VStr "bus1"; "target" := VStr "bus4";
     "resistance" := VNum 0; "reactance" := VNum 0.0576 ]}.

Definition pv_like_node : obj :=
  {[ "id" := VStr "bus7"; "active_power" := VNum 163; "voltage" := VNum 1.025 ]}.

Definition rmap {A B} (f : A -> B) (r : result A) : result B :=
  rbind r (fun a => Ok (f a)).

(** The sample topology once drawn: every endpoint is a node object. *)
Definition sample_store : Viz.state :=
  Viz.exec Viz.updateVisualization (Viz.exec Viz.useSampleData Viz.initial_state).

Definition sample_viewport : Viz.viewport :=
  {| Viz.clientWidth := 800; Viz.clientHeight := 600;
     Viz.transform_x := 0; Viz.transform_y := 0; Viz.transform_k := 1;
     Viz.random1 := 0.5; Viz.random2 := 0.5 |}.

Section StoreNotions.
Import Viz.

(** The link object [addLink] creates (lines 2019-2026). *)
Definition default_link (sourceId targetId : string) : link :=
  mk_link (EStr sourceId) (EStr targetId) 0.01 0.1 75 30.

(** The state [addLink] redraws: one link object allocated and pushed. *)
Definition pushed (sourceId targetId : string) (st : state) : state :=
  set_links (links st ++ [length (link_heap st)])
            (set_link_heap (link_heap st ++ [default_link sourceId targetId]) st).

(** Every endpoint of every link of the store is a node object, as after
    any successful redraw. *)
Definition is_ref (e : endpoint) : bool :=
  match e with
  | ERef _ => true
  | _ => false
  end.

Definition links_resolved (st : state) : bool :=
  forallb (fun ll => is_ref (link_source (link_at st ll))
                     && is_ref (link_target (link_at st ll)))
          (links st).

(** The endpoint names the node id [s]: it is the string [s] or a node
    object whose id is [s]. *)
Definition names (st : state) (e : endpoint) (s : string) : bool :=
  match e with
  | EUndefined => false
  | EStr s' => String.eqb s' s
  | ERef l => String.eqb (id_of st l) s
  end.

(** The link is incident to the node id. *)
Definition incident (st : state) (nodeId : string) (ll : loc) : bool :=
  names st (link_source (link_at st ll)) nodeId
  || names st (link_target (link_at st ll)) nodeId.

(** Some link of the store joins the ids [a] and [b], in either direction. *)
Definition joins (st : state) (a b : string) (ll : loc) : bool :=
  (names st (link_source (link_at st ll)) a && names st (link_target (link_at st ll)) b)
  || (names st (link_source (link_at st ll)) b && names st (link_target (link_at st ll)) a).

Definition linked (st : state) (a b : string) : bool :=
  existsb (joins st a b) (links st).

(** The nodes and links the view draws as selected: a node whose id is
    [selectedNode] (lines 2079 and 1548), the link object that is
    [selectedLink] (line 2122). *)
Definition marked_nodes (st : state) : list loc :=
  List.filter (fun n => sel_is (selectedNode st) (id_of st n)) (nodes st).

Definition marked_links (st : state) : list loc :=
  List.filter (fun l => bool_decide (selectedLink st = Some l)) (links st).

(** Click gestures and their handlers. *)
Inductive click :=
  | ClickNode (d : loc)
  | ClickLink (d : loc).

Definition handle (c : click) : M unit :=
  match c with
  | ClickNode d => handleNodeClick d
  | ClickLink d => handleLinkClick d
  end.

(** Each handler runs to completion; an exception ends that handler only. *)
Definition run_clicks (cs : list click) (st : state) : state :=
  foldl (fun s c => exec (handle c) s) st cs.

(** User actions on the node collection. *)
Inductive node_action :=
  | AddNode (type : node_kind) (v : viewport)
  | DeleteNode (nodeId : string).

Definition act (a : node_action) : M unit :=
  match a with
  | AddNode type v => addNode type v
  | DeleteNode nodeId => deleteNode nodeId true
  end.

Definition run_actions (acts : list node_action) (st : state) : state :=
  foldl (fun s a => exec (act a) s) st acts.

Definition node_ids (st : state) : list string := map (id_of st) (nodes st).

(** The id an endpoint of a response link carries: the string itself, or
    the non-empty id of the embedded node object. *)
Definition json_endpoint_id (e : json_endpoint) : option string :=
  match e with
  | JMissing => None
  | JStr s => Some s
  | JObj n => if nonempty (node_id n) then Some (node_id n) else None
  end.

Definition id_known (r : flow_result) (e : json_endpoint) : bool :=
  match json_endpoint_id e with
  | Some s => existsb (fun n => String.eqb (node_id n) s) (r_nodes r)
  | None => false
  end.

(** Every link endpoint id of the response occurs as a node id of the
    response. *)
Definition endpoints_known (r : flow_result) : bool :=
  forallb (fun jl => id_known r (j_source jl) && id_known r (j_target jl)) (r_links r).





Definition mk_json_link (s t : json_endpoint) : json_link :=
  {| j_source := s; j_target := t; j_resistance := 0.01; j_reactance := 0.05;
     j_active_power := 0; j_reactive_power := 0 |}.

(** A response whose links name their endpoints by id string and by
    embedded node object. *)
Definition good_result : flow_result :=
  {| r_nodes := [ mk_node "bus1" "generator" 100 150 1.0 0.0 100 50;
                  mk_node "bus2" "load" 300 100 0.98 (-2.0) (-80) (-30) ];
     r_links := [ mk_json_link (JStr "bus1") (JStr "bus2");
                  mk_json_link (JObj (mk_node "bus2" "load" 300 100 0.98 (-2.0) (-80) (-30)))
                               (JObj (mk_node "bus1" "generator" 100 150 1.0 0.0 100 50)) ] |}.

(** A response with a link to an id that no node of the response has. *)
Definition dangling_result : flow_result :=
  {| r_nodes := [ mk_node "bus1" "generator" 100 150 1.0 0.0 100 50 ];
     r_links := [ mk_json_link (JStr "bus1") (JStr "ghost") ] |}.

End StoreNotions.

Section ParsedObjects.
Import Viz.

(** The objects [response.json()] builds for the links of a response, given
    the node arena they are allocated in: the endpoint, link and link list
    that [parse_endpoint], [parse_link] and [mapM parse_link] produce, with
    the arena after them. *)
Definition parsed_endpoint (h : list node) (e : json_endpoint) : endpoint * list node :=
  match e with
  | JMissing => (EUndefined, h)
  | JStr s => (EStr s, h)
  | JObj n => (ERef (length h), (h ++ [n])%list)
  end.

Definition parsed_link (h : list node) (jl : json_link) : link * list node :=
  let '(s, h1) := parsed_endpoint h (j_source jl) in
  let '(t, h2) := parsed_endpoint h1 (j_target jl) in
  (mk_link s t (j_resistance jl) (j_reactance jl)
           (j_active_power jl) (j_reactive_power jl), h2).

Fixpoint parsed_links (h : list node) (jls : list json_link) : list link * list node :=
  match jls with
  | [] => ([], h)
  | jl :: jls' =>
      let '(l, h1) := parsed_link h jl in
      let '(ls, h2) := parsed_links h1 jls' in
      (l :: ls, h2)
  end.

(** The store right after [this.state.nodes = result.nodes] and
    [this.state.links = result.links], before the redraw. *)
Definition replaced (r : flow_result) (st : state) : state :=
  let pl := parsed_links (node_heap st ++ r_nodes r) (r_links r) in
  set_links (seq (length (link_heap st)) (length (r_links r)))
    (set_nodes (seq (length (node_heap st)) (length (r_nodes r)))
       (set_link_heap (link_heap st ++ pl.1) (set_node_heap pl.2 st))).

(** The parsed endpoint [e] stands for the endpoint [je] of the response. *)
Definition endpoint_matches (h : list node) (e : endpoint) (je : json_endpoint) : Prop :=
  match je with
  | JMissing => e = EUndefined
  | JStr s => e = EStr s
  | JObj n => exists l, e = ERef l /\ h !! l = Some n
  end.

End ParsedObjects.

(** ** Further notions for the adapter *)

Definition is_string (v : value) : bool :=
  match v with
  | VStr _ => true
  | _ => false
  end.

Definition is_number (v : value) : bool :=
  match v with
  | VNum _ => true
  | _ => false
  end.

(** A payload with both arrays present. *)
Definition arrays (ns ls : list obj) : option Adapter.payload :=
  Some {| Adapter.p_nodes := Some ns;
          Adapter.p_nodes_length := None;
          Adapter.p_links := Some ls |}.

(** *** applyCaseConfig (lines 420-477): the profile it selects *)

Record case_config := {
  forceStrength : float;
  linkDistance : float;
  chargeStrength : float;
  collisionRadius : float;
}.

Definition mk_config (f d c r : float) : case_config :=
  {| forceStrength := f; linkDistance := d; chargeStrength := c; collisionRadius := r |}.

Definition configs : gmap string case_config :=
  {[ "case9" := mk_config 0.3 100 (-200) 30;
     "case14" := mk_config 0.25 80 (-150) 25;
     "case30" := mk_config 0.2 60 (-100) 20;
     "case39" := mk_config 0.15 50 (-80) 18;
     "case57" := mk_config 0.12 40 (-120) 15;
     "case118" := mk_config 0.1 30 (-100) 12 ]}.

(** [const config = configs[caseType] || configs.case9]; the forces of the
    simulation are then set from the numbers its four properties convert
    to. A member of [Object.prototype] has none of the four: the forces
    get [+undefined]. *)
Definition applyCaseConfig_config (caseType : string) : case_config :=
  match lookup_member configs caseType with
  | Own config => config
  | Inherited => mk_config nan nan nan nan
  | Absent => mk_config 0.3 100 (-200) 30
  end.

(** The profile of a payload with [n] nodes, as loadGridData and
    loadCaseData select it: [applyCaseConfig(convertedData.caseType)]. *)
Definition config_for_size (n : nat) : case_config :=
  applyCaseConfig_config
    (Adapter.detectCaseType (arrays (replicate n (∅ : obj)) [])).


(** *** The parts of a normalized node (normalizeNodes, lines 55-62) *)

Section NormalizedParts.
Import Adapter.
Context (h : Host).

Definition normalized_id (i : nat) (node : obj) : value :=
  get node "id"
  ||| VStr ("bus" ++ ToString h (get node "bus_i" ||| get node "bus"
                                 ||| VStr (Math_random_id h i))).

Definition norm_voltage (node : obj) : value :=
  get node "voltage" ||| get node "vm" ||| VNum 1.
Definition norm_angle (node : obj) : value :=
  get node "angle" ||| get node "va" ||| VNum 0.
Definition norm_active (node : obj) : value :=
  get node "active_power" ||| get node "pd" ||| VNum 0.
Definition norm_reactive (node : obj) : value :=
  get node "reactive_power" ||| get node "qd" ||| VNum 0.

(** The object literal [normalizedNode], before the coordinates. *)
Definition normalized_base (ct : string) (i : nat) (node : obj) : obj :=
  {[ "id" := normalized_id i node;
     "voltage" := norm_voltage node;
     "angle" := norm_angle node;
     "active_power" := norm_active node;
     "reactive_power" := norm_reactive node;
     "type" := determineNodeType h node ct ]}.

(** [normalizedNode.x = coords.x; normalizedNode.y = coords.y]. *)
Definition with_coords (p : located) (b : obj) : obj :=
  <[ "y" := point_y p ]> (<[ "x" := point_x p ]> b).

End NormalizedParts.


(** A string that is empty or begins with a letter: what is left of an id
    such as "north" or "busA" once "bus" is removed. *)
Definition is_letter (c : ascii) : bool :=
  let n := nat_of_ascii c in
  ((65 <=? n)%nat && (n <=? 90)%nat) || ((97 <=? n)%nat && (n <=? 122)%nat).

Definition no_leading_number (s : string) : bool :=
  match s with
  | EmptyString => true
  | String c _ => is_letter c
  end.


(** ** Further methods of the visualization (deleteSelectedLink, saveNodeEdit,
    editLink) and user sessions *)

Section Page.
Import Viz.

(** What these methods pass to [alert] and to the notification functions.
    The texts are the source's. *)
Inductive toast :=
  | AlertSelectLink                                   (* alert('请先选择要删除的连接线') *)
  | LinkDeleted (sourceId targetId : key)             (* success: `已删除连接线: ${sourceId} → ${targetId}` *)
  | InvalidNumbers                                    (* error: '请输入有效的数值' *)
  | PowerAdjusted (nodeType : string) (activePower : float)
                                                      (* info: `...节点的有功功率已自动调整为正值: ${activePower} MW` *)
  | NodeUpdated (nodeId : string)                     (* success: `节点 ${nodeId} 已更新` *)
  | NoSuchLink.                                       (* error: '连接线不存在' *)

(** The store together with what these methods have shown so far (oldest
    first). *)
Record page := {
  store : state;
  shown : list toast;
}.

(** Methods on the page: as [M], with the store inside the page. *)
Definition P (A : Type) : Type := page -> result A * page.

Definition pret {A} (a : A) : P A := fun p => (Ok a, p).
Definition pbind {A B} (m : P A) (k : A -> P B) : P B :=
  fun p =>
    match m p with
    | (Ok a, p') => k a p'
    | (Throw e, p') => (Throw e, p')
    end.
Definition lift {A} (m : M A) : P A :=
  fun p => let '(r, st) := m (store p) in (r, {| store := st; shown := shown p |}).
Definition show (t : toast) : P unit :=
  fun p => (Ok tt, {| store := store p; shown := shown p ++ [t] |}).

Notation "'let+' x := m 'in' k" := (pbind m (fun x => k))
  (at level 10, x name, m at level 100, k at level 200).

(** [a === b] for two values of [e.id || e]: two strings, or one and the same
    object. *)
Definition key_eq (a b : key) : bool :=
  match a, b with
  | KStr s, KStr s' => String.eqb s s'
  | KRef l, KRef l' => (l =? l')%nat
  | _, _ => false
  end.

(** *** deleteSelectedLink (lines 2401-2426) *)

(** The callback of the link filter (lines 2408-2412). *)
Definition other_pair (st : state) (sourceId targetId : key) (ll : loc) : result bool :=
  rbind (endpoint_key st (link_source (link_at st ll))) (fun linkSourceId =>
  rbind (endpoint_key st (link_target (link_at st ll))) (fun linkTargetId =>
  Ok (negb (key_eq linkSourceId sourceId && key_eq linkTargetId targetId)))).

(** [confirmed] is the answer to the [confirm] dialog; [updateStatistics]
    only writes the page. *)
Definition deleteSelectedLink (confirmed : bool) : P unit :=
  let+ sel := lift (gets selectedLink) in
  match sel with
  | Some l =>
      let+ sourceId := lift (lift_read (fun st => endpoint_key st (link_source (link_at st l)))) in
      let+ targetId := lift (lift_read (fun st => endpoint_key st (link_target (link_at st l)))) in
      if confirmed then
        let+ kept := lift (lift_read (fun st =>
                       filter_result (other_pair st sourceId targetId) (links st))) in
        let+ _ := lift (modify (set_links kept)) in
        let+ _ := lift (modify (set_selectedLink None)) in
        let+ _ := lift updateVisualization in
        let+ _ := lift clearNodeInfo in
        show (LinkDeleted sourceId targetId)
      else pret tt
  | None => show AlertSelectLink
  end.

(** *** saveNodeEdit (lines 2330-2380), from the values read off the form *)

(** The form: the two text values and the four [parseFloat] results. *)
Record node_form := {
  f_id : string;
  f_type : string;
  f_voltage : float;
  f_angle : float;
  f_active_power : float;
  f_reactive_power : float;
}.

(** The assignments to the fields of the node object at [l]. *)
Definition write_node (l : loc) (type : string) (voltage angle active_power reactive_power : float)
  (st : state) : state :=
  let node := node_at st l in
  set_node_heap
    (<[ l := {| node_id := node_id node; node_type := type;
                node_x := node_x node; node_y := node_y node;
                node_voltage := voltage; node_angle := angle;
                node_active_power := active_power;
                node_reactive_power := reactive_power |} ]> (node_heap st))
    st.

(** [displayNodeInfo] and [closeNodeEditModal] only write the page. *)
Definition saveNodeEdit (f : node_form) : P unit :=
  if PrimFloat.is_nan (f_voltage f) || PrimFloat.is_nan (f_angle f)
     || PrimFloat.is_nan (f_active_power f) || PrimFloat.is_nan (f_reactive_power f)
  then show InvalidNumbers
  else
    let+ found := lift (gets (fun st => find_node st (f_id f))) in
    match found with
    | Some l =>
        let+ node := lift (gets (fun st => node_at st l)) in
        let nodeType := if nonempty (f_type f) then f_type f else node_type node in
        let negative :=
          (String.eqb nodeType "pv" || String.eqb nodeType "generator")
          && PrimFloat.ltb (f_active_power f) 0 in
        let activePower :=
          if negative then PrimFloat.abs (f_active_power f) else f_active_power f in
        let+ _ := if negative then show (PowerAdjusted nodeType activePower) else pret tt in
        let+ _ := lift (modify (write_node l nodeType (f_voltage f) (f_angle f)
                                           activePower (f_reactive_power f))) in
        let+ _ := lift updateVisualization in
        show (NodeUpdated (f_id f))
    | None => pret tt
    end.

(** *** editLink (lines 2492-2523) *)

(** [s.split(sep)] for a one-character separator: the first piece and the
    pieces after it. *)
Fixpoint split_on (sep : ascii) (s : string) : string * list string :=
  match s with
  | EmptyString => (EmptyString, [])
  | String c s' =>
      let '(w, ws) := split_on sep s' in
      if Ascii.eqb c sep then (EmptyString, w :: ws) else (String c w, ws)
  end.

(** The callback of the link search (lines 2494-2498); [targetId] is
    [undefined] when the id holds no separator, and no key is. *)
Definition pair_is (st : state) (sourceId : string) (targetId : option string) (ll : loc)
  : result bool :=
  rbind (endpoint_key st (link_source (link_at st ll))) (fun lSourceId =>
  rbind (endpoint_key st (link_target (link_at st ll))) (fun lTargetId =>
  Ok (key_is lSourceId sourceId && from_option (key_is lTargetId) false targetId))).

(** The result is the link whose values fill the form, if there is one. *)
Definition editLink (linkId : string) : P (option loc) :=
  let '(sourceId, rest) := split_on "-" linkId in
  let targetId := head rest in
  let+ link := lift (lift_read (fun st =>
                 find_result (pair_is st sourceId targetId) (links st))) in
  match link with
  | None => let+ _ := show NoSuchLink in pret None
  | Some l => pret (Some l)
  end.

(** *** User sessions *)

Inductive gesture :=
  | Click (c : click)
  | Edit (a : node_action)
  | StartLink
  | CancelLink
  | DeleteLink (confirmed : bool)
  | SaveNode (f : node_form).

Definition perform (g : gesture) : P unit :=
  match g with
  | Click c => lift (handle c)
  | Edit a => lift (act a)
  | StartLink => lift startLinkCreation
  | CancelLink => lift cancelLinkCreation
  | DeleteLink confirmed => deleteSelectedLink confirmed
  | SaveNode f => saveNodeEdit f
  end.

(** Each handler runs to completion on the page the one before left; the
    results are those of the handlers, in order. *)
Fixpoint play (gs : list gesture) (p : page) : list (result unit) * page :=
  match gs with
  | [] => ([], p)
  | g :: gs' =>
      let '(r, p1) := perform g p in
      let '(rs, p2) := play gs' p1 in
      (r :: rs, p2)
  end.

(** The endpoint is a node object of the node collection. *)
Definition endpoint_in (st : state) (e : endpoint) : bool :=
  match e with
  | ERef l => bool_decide (l ∈ nodes st)
  | _ => false
  end.

(** The redraw can resolve the endpoint: it is a node object of the
    collection, or the id of one. *)
Definition resolvable (st : state) (e : endpoint) : bool :=
  match e with
  | ERef l => bool_decide (l ∈ nodes st)
  | EStr s => bool_decide (s ∈ node_ids st)
  | EUndefined => false
  end.

(** A consistent store: every link joins two nodes of the node collection,
    every node has an id, the source chosen for a new link is a node of the
    collection, and the selected link joins two node objects. *)
Definition consistent (st : state) : bool :=
  forallb (fun ll => endpoint_in st (link_source (link_at st ll))
                     && endpoint_in st (link_target (link_at st ll))) (links st)
  && forallb (fun n => nonempty (id_of st n)) (nodes st)
  && from_option (fun a => bool_decide (a ∈ nodes st)) true (selectedLinkSource st)
  && from_option (fun l => is_ref (link_source (link_at st l))
                           && is_ref (link_target (link_at st l))) true (selectedLink st).

(** The id an endpoint stands for, and the pair of ids a link joins. *)
Definition end_id (st : state) (e : endpoint) : string :=
  match e with
  | ERef l => id_of st l
  | EStr s => s
  | EUndefined => ""
  end.

Definition link_ids (st : state) (ll : loc) : string * string :=
  (end_id st (link_source (link_at st ll)), end_id st (link_target (link_at st ll))).

(** The two pairs join the same two ids, in either direction. *)
Definition same_ends (p q : string * string) : bool :=
  (String.eqb p.1 q.1 && String.eqb p.2 q.2) || (String.eqb p.1 q.2 && String.eqb p.2 q.1).

(** A simple graph: no link joins an id to itself and no two links join
    the same two ids. *)
Fixpoint simple_pairs (ps : list (string * string)) : bool :=
  match ps with
  | [] => true
  | p :: ps' =>
      negb (String.eqb p.1 p.2)
      && forallb (fun q => negb (same_ends p q)) ps'
      && simple_pairs ps'
  end.

Definition simple (st : state) : bool :=
  simple_pairs (map (link_ids st) (links st)).

(** What the view offers: only a drawn node or link can be clicked. The one
    gesture ruled out beyond that is deleting the node chosen as the source
    of a new link while the choice is pending. *)
Definition allowed (st : state) (g : gesture) : bool :=
  match g with
  | Click (ClickNode d) => bool_decide (d ∈ nodes st)
  | Click (ClickLink d) => bool_decide (d ∈ links st)
  | Edit (DeleteNode nodeId) =>
      from_option (fun a => negb (String.eqb (id_of st a) nodeId)) true (selectedLinkSource st)
  | _ => true
  end.

Fixpoint allowed_all (gs : list gesture) (p : page) : bool :=
  match gs with
  | [] => true
  | g :: gs' => allowed (store p) g && allowed_all gs' (perform g p).2
  end.

(** The selected link and the link [ll] have the same source key and the
    same target key. *)
Definition parallel (st : state) (l ll : loc) : bool :=
  match endpoint_key st (link_source (link_at st l)),
        endpoint_key st (link_target (link_at st l)),
        endpoint_key st (link_source (link_at st ll)),
        endpoint_key st (link_target (link_at st ll)) with
  | Ok s, Ok t, Ok s', Ok t' => key_eq s' s && key_eq t' t
  | _, _, _, _ => false
  end.

(** No character of the string is the separator. *)
Fixpoint free_of (sep : ascii) (s : string) : bool :=
  match s with
  | EmptyString => true
  | String c s' => negb (Ascii.eqb c sep) && free_of sep s'
  end.

(** The ids of the store leave the counter of addNode free: they are
    pairwise distinct, every node is an object of the arena, and an id
    of the form addNode builds carries a number that is at most the number
    of nodes. *)
Definition counter_free (st : state) : Prop :=
  NoDup (node_ids st)
  /\ (forall n, n ∈ nodes st -> n < length (node_heap st))
  /\ (forall type k, (id_prefix type ++ pretty k)%string ∈ node_ids st -> k <= length (nodes st)).

Definition is_add (a : node_action) : bool :=
  match a with
  | AddNode _ _ => true
  | DeleteNode _ => false
  end.

(** The page a session starts from. *)
Definition page_of (st : state) : page := {| store := st; shown := [] |}.

End Page.


(** *** getVoltageColor (lines 1198-1204) *)



(** A conjunction of closed facts, each settled by evaluation. *)
Ltac by_evaluation :=
  cbv zeta; repeat match goal with |- _ /\ _ => split end; vm_compute; reflexivity.

(** * Properties of the data adapter *)

Section AdapterFacts.
Import Adapter.
Context (h : Host).

Lemma busTypeMapping_lookup (code : string) :
  match lookup_member busTypeMapping code with
  | Own s => VStr s
  | Inherited => VMember code
  | Absent => VStr "load"
  end
  = if inherited code then VMember code else VStr (bus_type_table code).
Proof.
  unfold lookup_member, busTypeMapping, bus_type_table.
  rewrite !lookup_insert, lookup_singleton.
  repeat case_decide; subst; try reflexivity; try congruence.
  destruct (inherited code); reflexivity.
Qed.

(** A number below zero is not above zero. *)
Lemma ltb_zero_asym (f : float) :
  PrimFloat.ltb f 0 = true -> PrimFloat.ltb 0 f = false.
Proof.
  rewrite !ltb_spec. change (Prim2SF 0) with (S754_zero false).
  destruct (Prim2SF f) as [s | s | | s m e]; simpl; try discriminate;
    destruct s; simpl; try discriminate; reflexivity.
Qed.

Lemma js_lt0_not_gt0 (v : value) : js_lt0 h v = true -> js_gt0 h v = false.
Proof. apply ltb_zero_asym. Qed.

(** C10. Type inference follows a strict priority. A truthy [type] property
    is returned as it is. Otherwise a [bus_type] that is not [undefined] is
    looked up in the three-way table by its property key: the codes 1, 2
    and 3 give slack, pv and load, a code whose key names a member of
    [Object.prototype] gives that member, and every other code gives load.
    Otherwise the heuristic reads the [active_power] and [voltage]
    properties of the raw node, under these names only: positive power
    with a defined voltage gives pv, positive power alone gives generator,
    negative power gives load, and everything else gives load. *)
Theorem determineNodeType_priority (node : obj) (caseType : string) :
  let ty := get node "type" in
  let bt := get node "bus_type" in
  let p := get node "active_power" in
  let v := get node "voltage" in
  let result := determineNodeType h node caseType in
  (truthy ty = true -> result = ty) /\
  (truthy ty = false -> is_defined bt = true ->
     result = (if inherited (ToString h bt) then VMember (ToString h bt)
               else VStr (bus_type_table (ToString h bt)))
     /\ (bt = VNum 1 -> result = VStr "slack")
     /\ (bt = VNum 2 -> result = VStr "pv")
     /\ (bt = VNum 3 -> result = VStr "load")) /\
  (truthy ty = false -> bt = VUndefined ->
     (js_gt0 h p = true -> is_defined v = true -> result = VStr "pv")
     /\ (js_gt0 h p = true -> v = VUndefined -> result = VStr "generator")
     /\ (js_lt0 h p = true -> result = VStr "load")
     /\ (js_gt0 h p = false -> result = VStr "load")).
Proof.
  cbv zeta. unfold determineNodeType.
  split; [| split].
  - intros ->. reflexivity.
  - intros -> ->. rewrite busTypeMapping_lookup.
    split; [reflexivity |].
    repeat split; intros ->; reflexivity.
  - intros -> ->. simpl is_defined. cbv iota.
    repeat split.
    + intros -> ->. reflexivity.
    + intros -> ->. reflexivity.
    + intros Hlt. rewrite (js_lt0_not_gt0 _ Hlt). simpl. rewrite Hlt. reflexivity.
    + intros ->. simpl. destruct (js_lt0 _ _); reflexivity.
Qed.

End AdapterFacts.

Lemma determineNodeType_priority_witness :
  Adapter.determineNodeType idle_host pv_like_node "case9" = VStr "pv"
  /\ Adapter.determineNodeType idle_host sample_bus2 "case9" = VStr "load".
Proof.
  split.
  - destruct (determineNodeType_priority idle_host pv_like_node "case9")
      as (_ & _ & H3).
    destruct (H3 eq_refl eq_refl) as (Hpv & _).
    exact (Hpv eq_refl eq_refl).
  - destruct (determineNodeType_priority idle_host sample_bus2 "case9")
      as (H1 & _).
    exact (H1 eq_refl).
Defined.

(** The heuristic does not see the normalized attributes: a node that gives
    its demand and voltage under the aliases [pd] and [vm] leaves the
    adapter with positive active power and a defined voltage, and with the
    type load. A bus-type code outside the table does not always give
    load: the code "constructor" gives [Object.prototype.constructor]. *)
Lemma determineNodeType_ignores_aliases :
  rmap (map (fun n' => (get n' "active_power", get n' "voltage", get n' "type")))
    (Adapter.normalizeNodes idle_host
       [ {[ "id" := VStr "bus7"; "pd" := VNum 163; "vm" := VNum 1.025 ]} ] "case9")
  = Ok [ (VNum 163, VNum 1.025, VStr "load") ]
  /\ Adapter.determineNodeType idle_host {[ "bus_type" := VStr "constructor" ]} "case9"
     = VMember "constructor".
Proof. split; vm_compute; reflexivity. Qed.

Section NormalizationFacts.
Import Adapter.
Context (h : Host).

Lemma js_or_truthy (a b : value) : truthy a = true -> a ||| b = a.
Proof. unfold js_or. intros ->. reflexivity. Qed.

Lemma js_or_falsy (a b : value) : truthy a = false -> a ||| b = b.
Proof. unfold js_or. intros ->. reflexivity. Qed.

(** The guard [!normalizedNode.x || !normalizedNode.y] reads the object that
    was just built without coordinates, so it always holds: the coordinates
    of every output node are the synthesized ones. *)
Lemma normalizeNode_always_synthesizes (ct : string) (total i : nat) (node n' : obj) :
  normalizeNode h ct total i node = Ok n' ->
  exists c,
    generateNodeCoordinates h
      (get node "id"
       ||| VStr ("bus" ++ ToString h (get node "bus_i" ||| get node "bus"
                                      ||| VStr (Math_random_id h i)))) ct total = Ok c
    /\ get n' "x" = point_x c /\ get n' "y" = point_y c.
Proof.
  unfold normalizeNode.
  match goal with
  | |- context [generateNodeCoordinates h ?v ct total] =>
      change v with (get node "id"
       ||| VStr ("bus" ++ ToString h (get node "bus_i" ||| get node "bus"
                                      ||| VStr (Math_random_id h i))))
  end.
  match goal with
  | |- (if ?g then _ else _) = _ -> _ => change g with true
  end.
  cbv iota.
  destruct (generateNodeCoordinates h _ ct total) as [c | e]; simpl; [| discriminate].
  intros [= <-]. exists c. repeat split; reflexivity.
Qed.

(** What the normalized numeric fields of a node are: the first truthy one
    of the canonical property, its alias and the default. *)
Lemma normalizeNode_fields (ct : string) (total i : nat) (node n' : obj) :
  normalizeNode h ct total i node = Ok n' ->
  get n' "voltage" = get node "voltage" ||| get node "vm" ||| VNum 1
  /\ get n' "angle" = get node "angle" ||| get node "va" ||| VNum 0
  /\ get n' "active_power" = get node "active_power" ||| get node "pd" ||| VNum 0
  /\ get n' "reactive_power" = get node "reactive_power" ||| get node "qd" ||| VNum 0.
Proof.
  unfold normalizeNode.
  match goal with
  | |- (if ?g then _ else _) = _ -> _ => change g with true
  end.
  cbv iota.
  destruct (generateNodeCoordinates h _ ct total) as [c | e]; simpl; [| discriminate].
  intros [= <-]. repeat split; reflexivity.
Qed.

Lemma normalizeLink_fields (link : obj) :
  get (normalizeLink link) "resistance"
    = get link "resistance" ||| get link "r" ||| VNum 0.01
  /\ get (normalizeLink link) "reactance"
    = get link "reactance" ||| get link "x" ||| VNum 0.05.
Proof. split; reflexivity. Qed.

(** C6, evaluated where the code departs from it. A node that arrives with
    voltage 0 leaves normalization with voltage 1.0, and a link that
    arrives with resistance 0 leaves with resistance 0.01: [||] takes a
    present 0 for a missing field. Fields that are present and not zero are
    carried through. *)
Theorem normalization_replaces_zero :
  get dead_bus "voltage" = VNum 0
  /\ rmap (map (fun n => get n "voltage")) (normalizeNodes h [dead_bus] "case9")
     = Ok [VNum 1]
  /\ get lossless_branch "resistance" = VNum 0
  /\ map (fun l => (get l "resistance", get l "reactance"))
         (normalizeLinks [lossless_branch] "case9")
     = [(VNum 0.01, VNum 0.0576)].
Proof. repeat split; vm_compute; reflexivity. Qed.

(** C5, evaluated where the code departs from it. For the canonical sample
    payload the links come back field for field, but the node that carries
    x = 300, y = 100 comes back with the synthesized x = 200, y = 100. *)
Theorem convertData_resynthesizes_coordinates :
  (get sample_bus2 "x", get sample_bus2 "y") = (VNum 300, VNum 100)
  /\ rmap (fun c => map (fun n => (get n "id", get n "x", get n "y")) (nodes c))
          (convertData h sample_payload)
     = Ok [(VStr "bus1", VNum 100, VNum 150); (VStr "bus2", VNum 200, VNum 100)]
  /\ rmap links (convertData h sample_payload) = Ok [sample_link12].
Proof. repeat split; vm_compute; reflexivity. Qed.

End NormalizationFacts.

(** * Properties of the store *)

Section ResolutionFacts.
Import Viz.

Lemma find_node_Some (st : state) (s : string) (n : loc) :
  find_node st s = Some n -> n ∈ nodes st /\ id_of st n = s.
Proof.
  unfold find_node. intros H. apply find_some in H as [Hin Heq].
  split; [by apply list_elem_of_In | by apply String.eqb_eq].
Qed.

Lemma find_node_is_Some (st : state) (s : string) (n : loc) :
  n ∈ nodes st -> id_of st n = s -> exists m, find_node st s = Some m.
Proof.
  intros Hin Hid. unfold find_node.
  destruct (find _ (nodes st)) as [m |] eqn:Hf; [by exists m |].
  exfalso. apply list_elem_of_In in Hin.
  pose proof (find_none _ _ Hf n Hin) as Hn. simpl in Hn.
  rewrite Hid, String.eqb_refl in Hn. discriminate.
Qed.


(** Resolving an endpoint twice is resolving it once. *)
Lemma resolve_endpoint_idem (st : state) (e : endpoint) :
  resolve_endpoint st (resolve_endpoint st e) = resolve_endpoint st e.
Proof.
  destruct e as [| s | l]; simpl.
  - reflexivity.
  - destruct (find_node st s) as [n |] eqn:Hf; [| reflexivity].
    destruct (find_node_Some _ _ _ Hf) as [_ Hid]. simpl.
    rewrite Hid. destruct (nonempty s); [| reflexivity].
    rewrite Hf, Nat.eqb_refl. reflexivity.
  - destruct (nonempty (id_of st l)) eqn:Hne; simpl; [| by rewrite Hne].
    destruct (find_node st (id_of st l)) as [m |] eqn:Hf; simpl; [| by rewrite Hne, Hf].
    destruct (m =? l)%nat eqn:Hml; simpl.
    + by rewrite Hne, Hf, Hml.
    + destruct (find_node_Some _ _ _ Hf) as [_ Hid].
      rewrite Hid, Hne, Hf, Nat.eqb_refl. reflexivity.
Qed.

Lemma resolve_link_idem (st : state) (l : link) :
  resolve_link st (resolve_link st l) = resolve_link st l.
Proof.
  unfold resolve_link; simpl. by rewrite !resolve_endpoint_idem.
Qed.

Lemma resolve_link_inhabitant (st : state) :
  resolve_link st inhabitant = inhabitant.
Proof. reflexivity. Qed.

(** The [forEach] of updateVisualization, link by link. *)
Lemma resolve_fold (st : state) (ls : list loc) (h : list link) (ll : loc) :
  foldl (fun h ll => <[ ll := resolve_link st (h !!! ll) ]> h) h ls !!! ll
  = if bool_decide (ll ∈ ls) then resolve_link st (h !!! ll) else h !!! ll.
Proof.
  revert h. induction ls as [| a ls IH]; intros h; simpl.
  - reflexivity.
  - rewrite IH.
    assert (Ha : <[ a := resolve_link st (h !!! a) ]> h !!! a = resolve_link st (h !!! a)).
    { destruct (decide (a < length h)) as [Hlt | Hge].
      - by apply list_lookup_total_insert_eq.
      - rewrite list_insert_ge by lia.
        rewrite (list_lookup_total_alt h a), (lookup_ge_None_2 h a) by lia.
        simpl. by rewrite resolve_link_inhabitant. }
    destruct (decide (ll = a)) as [-> | Hne].
    + rewrite Ha, resolve_link_idem.
      rewrite (bool_decide_eq_true_2 (a ∈ a :: ls)) by apply list_elem_of_here.
      by case_bool_decide.
    + rewrite list_lookup_total_insert_ne by done.
      destruct (bool_decide_reflect (ll ∈ ls)) as [Hin | Hnin].
      * rewrite bool_decide_eq_true_2; [done | by apply list_elem_of_further].
      * rewrite bool_decide_eq_false_2; [done |].
        intros [? | ?]%elem_of_cons; contradiction.
Qed.

Lemma link_at_resolve_references (st : state) (ll : loc) :
  link_at (resolve_references st) ll
  = if bool_decide (ll ∈ links st) then resolve_link st (link_at st ll) else link_at st ll.
Proof. unfold link_at, resolve_references; simpl. apply resolve_fold. Qed.


Lemma updateVisualization_run (st : state) :
  updateVisualization st
  = (if renderable (resolve_references st) then Ok tt else Throw TypeError,
     resolve_references st).
Proof.
  unfold updateVisualization, bind, modify, gets; simpl.
  destruct (renderable (resolve_references st)); reflexivity.
Qed.

(** An endpoint that is a node object stays a node object. *)
Lemma resolve_endpoint_ref (st : state) (e : endpoint) :
  is_ref e = true -> is_ref (resolve_endpoint st e) = true.
Proof.
  destruct e as [| s | l]; simpl; try discriminate. intros _.
  destruct (nonempty (id_of st l)); [| reflexivity].
  destruct (find_node st (id_of st l)) as [m |]; [| reflexivity].
  destruct (negb (m =? l)%nat); reflexivity.
Qed.

End ResolutionFacts.

Section AddLinkFacts.
Import Viz.

Lemma addLink_run (sourceId targetId : string) (st : state) :
  addLink sourceId targetId st
  = let st2 := resolve_references (pushed sourceId targetId st) in
    if renderable st2
    then (Ok tt, add_notification (success, MsgLinkAdded sourceId targetId) st2)
    else (Throw TypeError, st2).
Proof.
  unfold addLink, bind, alloc_link, modify, showNotification; simpl.
  rewrite updateVisualization_run.
  fold (default_link sourceId targetId). fold (pushed sourceId targetId st).
  destruct (renderable _); reflexivity.
Qed.

Lemma link_at_pushed_new (sourceId targetId : string) (st : state) :
  link_at (resolve_references (pushed sourceId targetId st)) (length (link_heap st))
  = resolve_link st (default_link sourceId targetId).
Proof.
  rewrite link_at_resolve_references.
  rewrite bool_decide_eq_true_2 by (simpl; set_solver).
  unfold link_at, pushed; simpl.
  rewrite lookup_total_app_r by lia.
  rewrite Nat.sub_diag. reflexivity.
Qed.


End AddLinkFacts.


Section DeleteNodeFacts.
Import Viz.

Lemma filter_result_pure {A} (p : A -> result bool) (q : A -> bool) (l : list A) :
  (forall a, a ∈ l -> p a = Ok (q a)) ->
  filter_result p l = Ok (List.filter q l).
Proof.
  induction l as [| a l IH]; intros Hp; simpl; [reflexivity |].
  rewrite (Hp a) by set_solver. simpl.
  rewrite IH by (intros b Hb; apply Hp; set_solver). simpl.
  destruct (q a); reflexivity.
Qed.

Lemma find_result_pure {A} (p : A -> result bool) (q : A -> bool) (l : list A) :
  (forall a, a ∈ l -> p a = Ok (q a)) ->
  find_result p l = Ok (List.find q l).
Proof.
  induction l as [| a l IH]; intros Hp; simpl; [reflexivity |].
  rewrite (Hp a) by set_solver. simpl.
  destruct (q a); [reflexivity |].
  apply IH. intros b Hb. apply Hp. set_solver.
Qed.

(** The key of a defined endpoint is a given non-empty id exactly when the
    endpoint names that id. *)
Lemma endpoint_key_names (st : state) (e : endpoint) (s : string) :
  is_undefined e = false -> s <> "" ->
  exists k, endpoint_key st e = Ok k /\ key_is k s = names st e s.
Proof.
  intros Hdef Hs. destruct e as [| s' | l]; simpl in *; [discriminate | |].
  - eexists; split; reflexivity.
  - destruct (nonempty (id_of st l)) eqn:Hne.
    + eexists; split; reflexivity.
    + eexists; split; [reflexivity |]. simpl.
      unfold nonempty in Hne. apply negb_false_iff, String.eqb_eq in Hne.
      rewrite Hne. symmetry. apply String.eqb_neq. congruence.
Qed.

Lemma renderable_defined (st : state) (ll : loc) :
  renderable st = true -> ll ∈ links st ->
  is_undefined (link_source (link_at st ll)) = false
  /\ is_undefined (link_target (link_at st ll)) = false.
Proof.
  unfold renderable. rewrite forallb_forall. intros H Hin.
  apply list_elem_of_In in Hin. specialize (H _ Hin).
  apply andb_true_iff in H as [H1 H2].
  by apply negb_true_iff in H1, H2.
Qed.

Lemma not_incident_pure (st : state) (nodeId : string) (ll : loc) :
  renderable st = true -> nodeId <> "" -> ll ∈ links st ->
  not_incident st nodeId ll = Ok (negb (incident st nodeId ll)).
Proof.
  intros Hr Hne Hin. destruct (renderable_defined _ _ Hr Hin) as [Hs Ht].
  destruct (endpoint_key_names st _ nodeId Hs Hne) as (ks & Hks & Hks').
  destruct (endpoint_key_names st _ nodeId Ht Hne) as (kt & Hkt & Hkt').
  unfold not_incident, incident. rewrite Hks; simpl. rewrite Hkt; simpl.
  rewrite Hks', Hkt', negb_orb. reflexivity.
Qed.

Lemma deleteNode_run (nodeId : string) (st : state) :
  renderable st = true -> nodeId <> "" ->
  let st3 :=
    (if sel_is (selectedNode st) nodeId then set_selectedNode None else fun s => s)
      (set_nodes (List.filter (fun n => negb (String.eqb (id_of st n) nodeId)) (nodes st))
         (set_links (List.filter (fun ll => negb (incident st nodeId ll)) (links st)) st)) in
  exec (deleteNode nodeId true) st = resolve_references st3
  \/ exec (deleteNode nodeId true) st
     = add_notification (success, MsgNodeDeleted nodeId) (resolve_references st3).
Proof.
  intros Hr Hne. cbv zeta.
  unfold exec, deleteNode, bind, lift_read, modify, gets, showNotification; simpl.
  rewrite (filter_result_pure _ (fun ll => negb (incident st nodeId ll)))
    by (intros; by apply not_incident_pure).
  simpl. destruct (sel_is (selectedNode st) nodeId); simpl;
    rewrite updateVisualization_run;
    destruct (renderable (resolve_references _)); simpl;
    [right | left | right | left]; reflexivity.
Qed.

Lemma NoDup_map_inj {A B} (f : A -> B) (l : list A) (x y : A) :
  NoDup (map f l) -> x ∈ l -> y ∈ l -> f x = f y -> x = y.
Proof.
  induction l as [| a l IH]; simpl; intros Hnd Hx Hy Hf; [set_solver |].
  apply NoDup_cons in Hnd as [Hna Hnd].
  apply elem_of_cons in Hx as [-> | Hx]; apply elem_of_cons in Hy as [-> | Hy]; auto.
  - exfalso. apply Hna. rewrite Hf. apply list_elem_of_In, in_map, list_elem_of_In, Hy.
  - exfalso. apply Hna. rewrite <- Hf. apply list_elem_of_In, in_map, list_elem_of_In, Hx.
Qed.

(** The link filter of deleteNode on a link with an undefined end. *)
Lemma not_incident_cases (st : state) (nodeId : string) (ll : loc) :
  if negb (is_undefined (link_source (link_at st ll)))
     && negb (is_undefined (link_target (link_at st ll)))
  then exists b, not_incident st nodeId ll = Ok b
  else not_incident st nodeId ll = Throw TypeError.
Proof.
  unfold not_incident.
  destruct (link_source (link_at st ll)) as [| s | l]; simpl; [reflexivity | |].
  - destruct (link_target (link_at st ll)) as [| t | l']; simpl;
      [reflexivity | by eexists |].
    destruct (nonempty (id_of st l')); simpl; by eexists.
  - destruct (nonempty (id_of st l)); simpl;
      (destruct (link_target (link_at st ll)) as [| t | l']; simpl;
       [reflexivity | by eexists |]);
      destruct (nonempty (id_of st l')); simpl; by eexists.
Qed.

Lemma filter_not_incident_throws (st : state) (nodeId : string) (ls : list loc) :
  forallb (fun ll => negb (is_undefined (link_source (link_at st ll)))
                     && negb (is_undefined (link_target (link_at st ll)))) ls = false ->
  filter_result (not_incident st nodeId) ls = Throw TypeError.
Proof.
  induction ls as [| a ls IH]; simpl; [discriminate |].
  pose proof (not_incident_cases st nodeId a) as Ha.
  destruct (negb (is_undefined (link_source (link_at st a)))
            && negb (is_undefined (link_target (link_at st a)))); simpl.
  - intros H. destruct Ha as [b ->]. simpl. by rewrite (IH H).
  - intros _. by rewrite Ha.
Qed.

Lemma deleteNode_throws (nodeId : string) (st : state) :
  renderable st = false -> deleteNode nodeId true st = (Throw TypeError, st).
Proof.
  intros Hr. unfold deleteNode, bind, lift_read.
  by rewrite (filter_not_incident_throws st nodeId (links st) Hr).
Qed.

(** C2. A confirmed deleteNode(id) for a non-empty id. In a store that
    holds a link with an undefined endpoint it throws a TypeError in the
    link filter and removes nothing. In every other store it keeps, in
    order, exactly the nodes whose id is not [id] and exactly the links
    that are not incident to [id]: every node that has the id goes (one
    node when the ids are pairwise distinct), every link whose source or
    target names [id] goes, and nothing else does. If [id] was the
    selected node the selection is cleared, otherwise it is kept. *)
Theorem deleteNode_removes_node_and_incident_links (nodeId : string) (st : state) :
  nodeId <> "" ->
  let st' := exec (deleteNode nodeId true) st in
  (renderable st = false -> deleteNode nodeId true st = (Throw TypeError, st))
  /\ (renderable st = true ->
      nodes st' = List.filter (fun n => negb (String.eqb (id_of st n) nodeId)) (nodes st)
      /\ links st' = List.filter (fun ll => negb (incident st nodeId ll)) (links st)
      /\ (forall n, n ∈ nodes st' <-> n ∈ nodes st /\ id_of st n <> nodeId)
      /\ (forall ll, ll ∈ links st' <-> ll ∈ links st /\ incident st nodeId ll = false)
      /\ (forall n, NoDup (node_ids st) -> n ∈ nodes st -> id_of st n = nodeId ->
            forall m, m ∈ nodes st' <-> m ∈ nodes st /\ m <> n)
      /\ selectedNode st'
         = (if sel_is (selectedNode st) nodeId then None else selectedNode st)
      /\ node_heap st' = node_heap st).
Proof.
  intros Hne. cbv zeta. split; [apply deleteNode_throws |]. intros Hr.
  assert (Hn : nodes (exec (deleteNode nodeId true) st)
               = List.filter (fun n => negb (String.eqb (id_of st n) nodeId)) (nodes st)).
  { destruct (deleteNode_run nodeId st Hr Hne) as [-> | ->];
      destruct (sel_is (selectedNode st) nodeId); reflexivity. }
  assert (Hl : links (exec (deleteNode nodeId true) st)
               = List.filter (fun ll => negb (incident st nodeId ll)) (links st)).
  { destruct (deleteNode_run nodeId st Hr Hne) as [-> | ->];
      destruct (sel_is (selectedNode st) nodeId); reflexivity. }
  assert (Hmem : forall n, n ∈ nodes (exec (deleteNode nodeId true) st)
                           <-> n ∈ nodes st /\ id_of st n <> nodeId).
  { intros n. rewrite Hn, list_elem_of_In, filter_In, <- list_elem_of_In.
    rewrite negb_true_iff, String.eqb_neq. reflexivity. }
  split; [exact Hn |]. split; [exact Hl |]. split; [exact Hmem |].
  split; [| split; [| split]].
  - intros ll. rewrite Hl, list_elem_of_In, filter_In, <- list_elem_of_In.
    rewrite negb_true_iff. reflexivity.
  - intros n Hnd Hin Hid m. rewrite Hmem. split; intros [Hm Hx]; split; auto.
    + intros ->. contradiction.
    + intros Hm'. apply Hx.
      apply (NoDup_map_inj (id_of st) (nodes st)); auto. congruence.
  - destruct (deleteNode_run nodeId st Hr Hne) as [-> | ->];
      destruct (sel_is (selectedNode st) nodeId); reflexivity.
  - destruct (deleteNode_run nodeId st Hr Hne) as [-> | ->];
      destruct (sel_is (selectedNode st) nodeId); reflexivity.
Qed.

End DeleteNodeFacts.

Lemma deleteNode_removes_node_and_incident_links_witness :
  Viz.nodes (Viz.exec (Viz.deleteNode "bus1" true) sample_store) = [1; 2; 3]
  /\ Viz.links (Viz.exec (Viz.deleteNode "bus1" true) sample_store) = [2; 3].
Proof.
  destruct (deleteNode_removes_node_and_incident_links "bus1" sample_store
              ltac:(discriminate)) as (_ & H).
  destruct (H eq_refl) as (Hn & Hl & _).
  split; [rewrite Hn | rewrite Hl]; reflexivity.
Defined.

(** C2, refuted as stated, on two stores the page reaches from the sample
    topology. After a generator is added, bus1 deleted and a generator
    added again, two nodes have the id gen5, and deleteNode("gen5")
    removes both. After bus1 is chosen as the source of a new link, then
    deleted, and bus2 clicked, the store holds a link with an undefined
    source; deleteNode("bus2") then throws and removes neither the node
    nor a link. *)
Lemma deleteNode_removes_two_nodes_or_nothing :
  let twice :=
    run_actions [AddNode Viz.generator sample_viewport; DeleteNode "bus1";
                 AddNode Viz.generator sample_viewport] sample_store in
  let stale :=
    Viz.exec (Viz.handleNodeClick 1)
      (Viz.exec (Viz.deleteNode "bus1" true)
         (Viz.exec (Viz.handleNodeClick 0)
            (Viz.exec Viz.startLinkCreation sample_store))) in
  Viz.nodes twice = [1; 2; 3; 4; 5]
  /\ node_ids twice = ["bus2"; "bus3"; "bus4"; "gen5"; "gen5"]
  /\ Viz.nodes (Viz.exec (Viz.deleteNode "gen5" true) twice) = [1; 2; 3]
  /\ node_ids stale = ["bus2"; "bus3"; "bus4"]
  /\ Viz.link_source (Viz.link_at stale 4) = Viz.EUndefined
  /\ Viz.links stale = [2; 3; 4]
  /\ Viz.deleteNode "bus2" true stale = (Throw TypeError, stale).
Proof. by_evaluation. Qed.

(** C7, evaluated where the code departs from it. The sample store has
    pairwise distinct ids. Adding a generator gives it the id gen5 (five
    nodes), deleting bus1 leaves four nodes, and the next generator is
    given the id gen5 again: the store then holds two nodes with one id. *)
Theorem addNode_reuses_id_after_delete (v1 v2 : Viz.viewport) :
  NoDup (node_ids sample_store)
  /\ node_ids (run_actions [AddNode Viz.generator v1; DeleteNode "bus1"] sample_store)
     = ["bus2"; "bus3"; "bus4"; "gen5"]
  /\ node_ids (run_actions [AddNode Viz.generator v1; DeleteNode "bus1";
                            AddNode Viz.generator v2] sample_store)
     = ["bus2"; "bus3"; "bus4"; "gen5"; "gen5"]
  /\ ~ NoDup (node_ids (run_actions [AddNode Viz.generator v1; DeleteNode "bus1";
                                     AddNode Viz.generator v2] sample_store)).
Proof.
  assert (H3 : node_ids (run_actions [AddNode Viz.generator v1; DeleteNode "bus1";
                                      AddNode Viz.generator v2] sample_store)
               = ["bus2"; "bus3"; "bus4"; "gen5"; "gen5"]) by (vm_compute; reflexivity).
  split; [| split; [| split]].
  - apply (bool_decide_unpack _). vm_compute. reflexivity.
  - vm_compute. reflexivity.
  - exact H3.
  - rewrite H3. apply (bool_decide_unpack _). vm_compute. reflexivity.
Qed.

Section LinkCreationFacts.
Import Viz.

Lemma is_ref_defined (e : endpoint) : is_ref e = true -> is_undefined e = false.
Proof. destruct e; simpl; congruence. Qed.

Lemma links_resolved_ref (st : state) (ll : loc) :
  links_resolved st = true -> ll ∈ links st ->
  is_ref (link_source (link_at st ll)) = true
  /\ is_ref (link_target (link_at st ll)) = true.
Proof.
  unfold links_resolved. rewrite forallb_forall. intros H Hin.
  apply list_elem_of_In in Hin. specialize (H _ Hin).
  by apply andb_true_iff in H.
Qed.

Lemma links_resolved_renderable (st : state) :
  links_resolved st = true -> renderable st = true.
Proof.
  intros H. unfold renderable. apply forallb_forall. intros ll Hin.
  apply list_elem_of_In in Hin.
  destruct (links_resolved_ref _ _ H Hin) as [Hs Ht].
  by rewrite (is_ref_defined _ Hs), (is_ref_defined _ Ht).
Qed.


Lemma connects_pure (st : state) (a b : string) (ll : loc) :
  links_resolved st = true -> a <> "" -> b <> "" -> ll ∈ links st ->
  connects st a b ll = Ok (joins st a b ll).
Proof.
  intros Hr Ha Hb Hin. destruct (links_resolved_ref _ _ Hr Hin) as [Hs Ht].
  apply is_ref_defined in Hs, Ht.
  destruct (endpoint_key_names st _ a Hs Ha) as (ks & Hks & Hksa).
  destruct (endpoint_key_names st _ b Hs Hb) as (ks' & Hks' & Hksb).
  destruct (endpoint_key_names st _ a Ht Ha) as (kt & Hkt & Hkta).
  destruct (endpoint_key_names st _ b Ht Hb) as (kt' & Hkt' & Hktb).
  assert (ks' = ks) by congruence. assert (kt' = kt) by congruence. subst.
  unfold connects, joins. rewrite Hks; simpl. rewrite Hkt; simpl.
  by rewrite Hksa, Hksb, Hkta, Hktb.
Qed.

Lemma find_existsb {A} (q : A -> bool) (l : list A) :
  List.find q l = None <-> existsb q l = false.
Proof.
  induction l as [| x l IH]; simpl; [done |].
  destruct (q x); simpl; [split; discriminate | exact IH].
Qed.

Lemma handleNodeClickForLinkCreation_run (st : state) (a d : loc) :
  linkCreationMode st = true -> selectedLinkSource st = Some a ->
  handleNodeClickForLinkCreation d st
  = if String.eqb (id_of st a) (id_of st d)
    then (Ok tt, add_notification (error, SelfLoopError) st)
    else match find_result (connects st (id_of st a) (id_of st d)) (links st) with
         | Ok (Some _) => (Ok tt, add_notification (error, DuplicateLinkError) st)
         | Ok None =>
             bind (addLink (id_of st a) (id_of st d)) (fun _ => cancelLinkCreation) st
         | Throw e => (Throw e, st)
         end.
Proof.
  intros Hm Hs.
  unfold handleNodeClickForLinkCreation, bind at 1, gets at 1. simpl.
  rewrite Hm; simpl. unfold bind at 1, gets at 1; simpl. rewrite Hs.
  unfold bind at 1, gets at 1; simpl. unfold bind at 1, gets at 1; simpl.
  destruct (String.eqb (id_of st a) (id_of st d)); [reflexivity |].
  unfold bind at 1, lift_read; simpl.
  destruct (find_result _ (links st)) as [[x |] | e]; reflexivity.
Qed.


End LinkCreationFacts.

Section LinkCreationGesture.
Import Viz.


End LinkCreationGesture.



Section SelectionFacts.
Import Viz.

Lemma handleNodeClick_props (st : state) (d : loc) :
  linkCreationMode st = false ->
  let st' := exec (handleNodeClick d) st in
  selectedLink st' = None
  /\ selectedNode st'
     = (if sel_is (selectedNode st) (id_of st d) then None
        else if nonempty (id_of st d) then Some (id_of st d) else None)
  /\ linkCreationMode st' = false
  /\ nodes st' = nodes st /\ links st' = links st
  /\ node_heap st' = node_heap st /\ link_heap st' = link_heap st.
Proof.
  intros Hm. cbv zeta.
  unfold exec, handleNodeClick, bind, gets, modify, clearNodeInfo; simpl.
  rewrite Hm; simpl.
  destruct (sel_is (selectedNode st) (id_of st d)); simpl.
  - unfold bind, modify; simpl. repeat split; auto.
  - destruct (nonempty (id_of st d)); simpl; unfold bind, modify, ret; simpl;
      repeat split; auto.
Qed.

Lemma handleLinkClick_props (st : state) (d : loc) :
  let st' := exec (handleLinkClick d) st in
  selectedNode st' = None /\ selectedLink st' = Some d
  /\ linkCreationMode st' = linkCreationMode st
  /\ nodes st' = nodes st /\ links st' = links st
  /\ node_heap st' = node_heap st /\ link_heap st' = link_heap st.
Proof.
  cbv zeta.
  unfold exec, handleLinkClick, displayLinkInfo, bind, gets, modify, lift_read; simpl.
  destruct (endpoint_key _ (link_source _)); simpl; [| repeat split; auto].
  destruct (endpoint_key _ (link_target _)); simpl; repeat split; auto.
Qed.

Lemma filter_none {A} (q : A -> bool) (l : list A) :
  (forall x, x ∈ l -> q x = false) -> List.filter q l = [].
Proof.
  induction l as [| a l IH]; intros H; simpl; [done |].
  rewrite (H a) by set_solver. apply IH. intros x Hx. apply H. set_solver.
Qed.

(** Among elements with pairwise distinct keys at most one has a given key. *)
Lemma filter_key_le1 {A B} `{EqDecision B} (f : A -> B) (k : B) (l : list A) :
  NoDup (map f l) -> length (List.filter (fun x => bool_decide (f x = k)) l) <= 1.
Proof.
  induction l as [| a l IH]; simpl; intros Hnd; [lia |].
  apply NoDup_cons in Hnd as [Hna Hnd].
  case_bool_decide as Hk; simpl; [| auto].
  rewrite filter_none; [simpl; lia |].
  intros x Hx. apply bool_decide_eq_false_2. intros Hfx. apply Hna.
  rewrite Hk, <- Hfx. apply list_elem_of_In, in_map, list_elem_of_In, Hx.
Qed.

Lemma marked_nodes_le1 (st : state) :
  NoDup (node_ids st) -> length (marked_nodes st) <= 1.
Proof.
  intros Hnd. unfold marked_nodes.
  destruct (selectedNode st) as [s |]; simpl.
  - rewrite (filter_ext _ (fun n => bool_decide (id_of st n = s))).
    + by apply filter_key_le1.
    + intros n. rewrite String.eqb_sym.
      destruct (String.eqb_spec (id_of st n) s).
      * by rewrite bool_decide_eq_true_2.
      * by rewrite bool_decide_eq_false_2.
  - rewrite filter_none; [simpl; lia | done].
Qed.

Lemma marked_links_le1 (st : state) :
  NoDup (links st) -> length (marked_links st) <= 1.
Proof.
  intros Hnd. unfold marked_links.
  destruct (selectedLink st) as [s |].
  - rewrite (filter_ext _ (fun l => bool_decide (l = s))).
    + apply (filter_key_le1 (fun x => x)). by rewrite map_id.
    + intros l. destruct (decide (l = s)) as [-> | Hne].
      * by rewrite !bool_decide_eq_true_2.
      * rewrite !bool_decide_eq_false_2; congruence.
  - rewrite filter_none; [simpl; lia |].
    intros x _. by apply bool_decide_eq_false_2.
Qed.

(** What a run of clicks outside link-creation mode preserves. *)
Lemma run_clicks_invariant (cs : list click) (st : state) :
  linkCreationMode st = false ->
  (selectedNode st = None \/ selectedLink st = None) ->
  let st' := run_clicks cs st in
  linkCreationMode st' = false
  /\ (selectedNode st' = None \/ selectedLink st' = None)
  /\ nodes st' = nodes st /\ links st' = links st
  /\ node_heap st' = node_heap st.
Proof.
  revert st. induction cs as [| c cs IH]; intros st Hm Hex; simpl.
  - repeat split; auto.
  - destruct c as [d | d]; simpl.
    + destruct (handleNodeClick_props st d Hm) as (Hl & _ & Hm' & Hn & Hls & Hnh & _).
      destruct (IH (exec (handleNodeClick d) st) Hm' (or_intror Hl))
        as (? & ? & ? & ? & ?).
      repeat split; auto; congruence.
    + destruct (handleLinkClick_props st d) as (Hn0 & _ & Hm' & Hn & Hls & Hnh & _).
      rewrite Hm in Hm'.
      destruct (IH (exec (handleLinkClick d) st) Hm' (or_introl Hn0))
        as (? & ? & ? & ? & ?).
      repeat split; auto; congruence.
Qed.

(** C9. Outside link-creation mode, starting from a state in which a node
    and a link are not both selected (the initial state selects nothing),
    any sequence of node clicks and link clicks ends in a state in which a
    node and a link are not both selected. The node selection is one id:
    every node drawn as selected carries it, which is at most one node
    when node ids are pairwise distinct; at most one link is drawn as
    selected. A node click clears the link selection and, on a node whose
    id is not the selected one, selects that id; a link click clears the
    node selection and selects that link; a click on the selected node
    deselects it. *)
Theorem selection_exclusive (cs : list click) (st : state) :
  linkCreationMode st = false ->
  (selectedNode st = None \/ selectedLink st = None) ->
  let st' := run_clicks cs st in
  (selectedNode st' = None \/ selectedLink st' = None)
  /\ (forall n, n ∈ marked_nodes st' -> selectedNode st' = Some (id_of st' n))
  /\ (NoDup (node_ids st) -> length (marked_nodes st') <= 1)
  /\ (NoDup (links st) -> length (marked_links st') <= 1)
  /\ (forall d, selectedLink (exec (handleNodeClick d) st') = None)
  /\ (forall d, selectedNode st' <> Some (id_of st' d) -> id_of st' d <> "" ->
                selectedNode (exec (handleNodeClick d) st') = Some (id_of st' d))
  /\ (forall d, selectedNode (exec (handleLinkClick d) st') = None
                /\ selectedLink (exec (handleLinkClick d) st') = Some d)
  /\ (forall d, selectedNode st' = Some (id_of st' d) ->
                selectedNode (exec (handleNodeClick d) st') = None).
Proof.
  intros Hm Hex. cbv zeta.
  destruct (run_clicks_invariant cs st Hm Hex) as (Hm' & Hex' & Hn & Hl & Hh).
  split; [exact Hex' |]. split; [| split; [| split; [| split; [| split; [| split]]]]].
  - intros n Hin. unfold marked_nodes in Hin.
    apply list_elem_of_In, filter_In in Hin as [_ Hsel].
    destruct (selectedNode (run_clicks cs st)) as [s |]; [| discriminate].
    simpl in Hsel. apply String.eqb_eq in Hsel. by subst s.
  - intros Hnd. apply marked_nodes_le1. unfold node_ids, id_of, node_at in *.
    by rewrite Hn, Hh.
  - intros Hnd. apply marked_links_le1. by rewrite Hl.
  - intros d. by destruct (handleNodeClick_props _ d Hm') as (? & _).
  - intros d Hsel Hid.
    destruct (handleNodeClick_props _ d Hm') as (_ & Hs & _).
    rewrite Hs.
    assert (Hno : sel_is (selectedNode (run_clicks cs st))
                    (id_of (run_clicks cs st) d) = false).
    { destruct (selectedNode (run_clicks cs st)) as [s |]; [| reflexivity].
      simpl. apply String.eqb_neq. congruence. }
    rewrite Hno.
    assert (Hne : nonempty (id_of (run_clicks cs st) d) = true)
      by (unfold nonempty; by apply negb_true_iff, String.eqb_neq).
    by rewrite Hne.
  - intros d. by destruct (handleLinkClick_props (run_clicks cs st) d) as (? & ? & _).
  - intros d Hsel.
    destruct (handleNodeClick_props _ d Hm') as (_ & Hs & _).
    rewrite Hs, Hsel. simpl. by rewrite String.eqb_refl.
Qed.

End SelectionFacts.

Lemma selection_exclusive_witness :
  let st' := run_clicks [ClickNode 1; ClickLink 2; ClickNode 0] sample_store in
  (Viz.selectedNode st' = None \/ Viz.selectedLink st' = None)
  /\ length (marked_nodes st') <= 1
  /\ length (marked_links st') <= 1.
Proof.
  cbv zeta.
  destruct (selection_exclusive [ClickNode 1; ClickLink 2; ClickNode 0] sample_store
              eq_refl (or_introl eq_refl)) as (H1 & _ & H2 & H3 & _).
  split; [exact H1 |]. split.
  - apply H2. apply (bool_decide_unpack _). vm_compute. reflexivity.
  - apply H3. apply (bool_decide_unpack _). vm_compute. reflexivity.
Defined.

(** C9, refuted as stated. After a generator is added to the sample store,
    bus1 deleted and a generator added again, two nodes (addresses 4 and
    5) have the id gen5. Nothing is selected and the mode is off; one
    click on the node at address 4 selects the id gen5, and both nodes are
    drawn as selected. *)
Lemma one_click_marks_two_nodes :
  let st :=
    run_actions [AddNode Viz.generator sample_viewport; DeleteNode "bus1";
                 AddNode Viz.generator sample_viewport] sample_store in
  Viz.linkCreationMode st = false
  /\ Viz.selectedNode st = None /\ Viz.selectedLink st = None
  /\ marked_nodes st = []
  /\ Viz.selectedNode (run_clicks [ClickNode 4] st) = Some "gen5"
  /\ marked_nodes (run_clicks [ClickNode 4] st) = [4; 5].
Proof. by_evaluation. Qed.

Section ParseFacts.
Import Viz.
Local Open Scope list_scope.

Lemma mapM_alloc_node (ns : list node) (st : state) :
  mapM alloc_node ns st
  = (Ok (seq (length (node_heap st)) (length ns)),
     set_node_heap (node_heap st ++ ns) st).
Proof.
  revert st. induction ns as [| n ns IH]; intros st; simpl.
  - destruct st; unfold ret, set_node_heap; simpl. by rewrite app_nil_r.
  - unfold bind. unfold alloc_node at 1. rewrite IH. simpl.
    unfold ret, set_node_heap; simpl.
    rewrite length_app, <- app_assoc; simpl.
    by rewrite Nat.add_1_r.
Qed.

Lemma parse_endpoint_run (e : json_endpoint) (st : state) :
  parse_endpoint e st
  = (Ok (parsed_endpoint (node_heap st) e).1,
     set_node_heap (parsed_endpoint (node_heap st) e).2 st).
Proof. destruct st, e; reflexivity. Qed.

Lemma parse_link_run (jl : json_link) (st : state) :
  parse_link jl st
  = (Ok (length (link_heap st)),
     set_link_heap (link_heap st ++ [(parsed_link (node_heap st) jl).1])
       (set_node_heap (parsed_link (node_heap st) jl).2 st)).
Proof.
  unfold parse_link, bind. rewrite parse_endpoint_run.
  rewrite parse_endpoint_run. unfold parsed_link. simpl.
  destruct (parsed_endpoint (node_heap st) (j_source jl)) as [s h1]; simpl.
  destruct (parsed_endpoint h1 (j_target jl)) as [t h2]; simpl.
  reflexivity.
Qed.

Lemma mapM_parse_link (jls : list json_link) (st : state) :
  mapM parse_link jls st
  = (Ok (seq (length (link_heap st)) (length jls)),
     set_link_heap (link_heap st ++ (parsed_links (node_heap st) jls).1)
       (set_node_heap (parsed_links (node_heap st) jls).2 st)).
Proof.
  revert st. induction jls as [| jl jls IH]; intros st; simpl.
  - destruct st; unfold ret, set_link_heap, set_node_heap; simpl.
    by rewrite app_nil_r.
  - unfold bind. rewrite parse_link_run, IH. simpl.
    destruct (parsed_link (node_heap st) jl) as [l h1]; simpl.
    destruct (parsed_links h1 jls) as [ls h2]; simpl.
    unfold ret, set_link_heap, set_node_heap; simpl.
    rewrite length_app, <- app_assoc; simpl.
    by rewrite Nat.add_1_r.
Qed.

Lemma set_link_heap_same (st : state) : set_link_heap (link_heap st) st = st.
Proof. by destruct st. Qed.

Lemma with_source_same (l : link) : with_source (link_source l) l = l.
Proof. by destruct l. Qed.

Lemma with_target_same (l : link) : with_target (link_target l) l = l.
Proof. by destruct l. Qed.

Lemma write_link_same (ll : loc) (f : link -> link) (st : state) :
  f (link_at st ll) = link_at st ll -> write_link ll f st = (Ok tt, st).
Proof.
  intros Hf. unfold write_link, modify. rewrite Hf. f_equal.
  assert (H : <[ ll := link_at st ll ]> (link_heap st) = link_heap st).
  { destruct (decide (ll < length (link_heap st))) as [Hlt | Hge].
    - apply list_insert_id. by apply list_lookup_lookup_total_lt.
    - apply list_insert_ge. lia. }
  rewrite H. apply set_link_heap_same.
Qed.

(** On links whose ends are node objects or undefined, the link force
    writes nothing: it accepts them when every end is a node object and
    throws at the first undefined end. *)
Lemma force_links_run (ls : list loc) (st : state) :
  (forall ll, ll ∈ ls ->
     (forall s, link_source (link_at st ll) <> EStr s)
     /\ (forall s, link_target (link_at st ll) <> EStr s)) ->
  force_links ls st
  = (if forallb (fun ll => negb (is_undefined (link_source (link_at st ll)))
                           && negb (is_undefined (link_target (link_at st ll)))) ls
     then Ok tt else Throw (Error "node not found: undefined"), st).
Proof.
  induction ls as [| a ls IH]; intros Hns; [reflexivity |].
  destruct (Hns a (list_elem_of_here _ _)) as [Hs Ht].
  assert (IH' := IH (fun ll Hll => Hns ll (list_elem_of_further _ _ _ Hll))).
  cbn [force_links forallb]. unfold bind at 1, lift_read.
  destruct (link_source (link_at st a)) as [| s | l] eqn:Hsrc;
    [reflexivity | by destruct (Hs s) |].
  cbn [d3_find is_undefined negb andb]. unfold bind at 1.
  rewrite write_link_same by (rewrite <- Hsrc; apply with_source_same).
  unfold bind at 1.
  destruct (link_target (link_at st a)) as [| s | l'] eqn:Htgt;
    [reflexivity | by destruct (Ht s) |].
  cbn [d3_find is_undefined negb andb]. unfold bind at 1.
  rewrite write_link_same by (rewrite <- Htgt; apply with_target_same).
  exact IH'.
Qed.

Lemma resolve_endpoint_not_string (st : state) (e : endpoint) (s : string) :
  resolve_endpoint st e <> EStr s.
Proof.
  destruct e as [| s' | l]; simpl; [done | by destruct (find_node st s') |].
  destruct (nonempty (id_of st l)); [| done].
  destruct (find_node st (id_of st l)) as [m |]; [| done].
  by destruct (negb (m =? l)%nat).
Qed.

Lemma startSimulation_resolved (st : state) (n : level * message) :
  startSimulation (add_notification n (resolve_references st))
  = (if renderable (resolve_references st)
     then Ok tt else Throw (Error "node not found: undefined"),
     add_notification n (resolve_references st)).
Proof.
  unfold startSimulation, bind, gets. cbn [fst snd].
  rewrite force_links_run; [reflexivity |].
  intros ll Hll.
  change (link_at (add_notification n (resolve_references st)) ll)
    with (link_at (resolve_references st) ll).
  rewrite link_at_resolve_references, bool_decide_eq_true_2 by exact Hll.
  split; intros s; apply resolve_endpoint_not_string.
Qed.

Lemma calculatePowerFlow_run (r : flow_result) (st : state) :
  calculatePowerFlow (HttpOk r) st
  = (if renderable (resolve_references (replaced r st))
     then Ok tt else Throw (Error "node not found: undefined"),
     add_notification
       (if renderable (resolve_references (replaced r st))
        then (success, MsgFlowDone) else (error, MsgFlowFailed TypeError))
       (resolve_references (replaced r st))).
Proof.
  unfold calculatePowerFlow, try_catch, bind at 1 2.
  rewrite mapM_alloc_node. unfold bind at 1. rewrite mapM_parse_link.
  unfold bind at 1 2 3, modify. cbn [fst snd].
  rewrite updateVisualization_run.
  change (resolve_references _) with (resolve_references (replaced r st)).
  destruct (renderable (resolve_references (replaced r st))) eqn:Hr.
  - unfold showNotification at 1, modify.
    rewrite startSimulation_resolved, Hr. reflexivity.
  - unfold bind, showNotification, modify.
    rewrite startSimulation_resolved, Hr. reflexivity.
Qed.
(** Parsing only appends to the node arena. *)
Lemma parsed_endpoint_extends (h : list node) (e : json_endpoint) :
  exists ext, (parsed_endpoint h e).2 = h ++ ext.
Proof.
  destruct e as [| s | n]; simpl;
    [exists []; by rewrite app_nil_r | exists []; by rewrite app_nil_r | by exists [n]].
Qed.

Lemma parsed_link_extends (h : list node) (jl : json_link) :
  exists ext, (parsed_link h jl).2 = h ++ ext.
Proof.
  unfold parsed_link.
  destruct (parsed_endpoint_extends h (j_source jl)) as [e1 H1].
  destruct (parsed_endpoint h (j_source jl)) as [s h1]; simpl in H1; subst h1.
  destruct (parsed_endpoint_extends (h ++ e1) (j_target jl)) as [e2 H2].
  destruct (parsed_endpoint (h ++ e1) (j_target jl)) as [t h2]; simpl in *; subst h2.
  exists (e1 ++ e2). by rewrite app_assoc.
Qed.

Lemma parsed_links_extends (h : list node) (jls : list json_link) :
  exists ext, (parsed_links h jls).2 = h ++ ext.
Proof.
  revert h. induction jls as [| jl jls IH]; intros h; simpl.
  - exists []. by rewrite app_nil_r.
  - destruct (parsed_link_extends h jl) as [e1 H1].
    destruct (parsed_link h jl) as [l h1]; simpl in H1; subst h1.
    destruct (IH (h ++ e1)) as [e2 H2].
    destruct (parsed_links (h ++ e1) jls) as [ls h2]; simpl in *; subst h2.
    exists (e1 ++ e2). by rewrite app_assoc.
Qed.


Lemma endpoint_matches_extends (h ext : list node) (e : endpoint) (je : json_endpoint) :
  endpoint_matches h e je -> endpoint_matches (h ++ ext) e je.
Proof.
  destruct je; simpl; auto. intros (l & -> & Hl). exists l. split; [done |].
  by apply lookup_app_l_Some.
Qed.

Lemma parsed_endpoint_matches (h : list node) (e : json_endpoint) :
  endpoint_matches (parsed_endpoint h e).2 (parsed_endpoint h e).1 e.
Proof.
  destruct e; simpl; auto. eexists. split; [reflexivity |].
  by rewrite lookup_app_r, Nat.sub_diag by lia.
Qed.

Lemma parsed_link_matches (h : list node) (jl : json_link) :
  endpoint_matches (parsed_link h jl).2 (link_source (parsed_link h jl).1) (j_source jl)
  /\ endpoint_matches (parsed_link h jl).2 (link_target (parsed_link h jl).1) (j_target jl).
Proof.
  unfold parsed_link.
  pose proof (parsed_endpoint_matches h (j_source jl)) as Hs.
  destruct (parsed_endpoint h (j_source jl)) as [s h1]; simpl in Hs.
  pose proof (parsed_endpoint_matches h1 (j_target jl)) as Ht.
  destruct (parsed_endpoint_extends h1 (j_target jl)) as [ext Hext].
  destruct (parsed_endpoint h1 (j_target jl)) as [t h2]; simpl in *. subst h2.
  split; [by apply endpoint_matches_extends | exact Ht].
Qed.

Lemma parsed_links_matches (h : list node) (jls : list json_link) (i : nat)
    (jl : json_link) :
  jls !! i = Some jl ->
  exists l, (parsed_links h jls).1 !! i = Some l
    /\ endpoint_matches (parsed_links h jls).2 (link_source l) (j_source jl)
    /\ endpoint_matches (parsed_links h jls).2 (link_target l) (j_target jl).
Proof.
  revert h i. induction jls as [| jl0 jls IH]; intros h i Hi; [done |].
  simpl.
  pose proof (parsed_link_matches h jl0) as [Hs Ht].
  destruct (parsed_link h jl0) as [l0 h1]; simpl in Hs, Ht.
  destruct (parsed_links_extends h1 jls) as [ext Hext].
  destruct i as [| i]; simpl in Hi.
  - injection Hi as ->.
    destruct (parsed_links h1 jls) as [ls h2]; simpl in *. subst h2.
    exists l0. split; [done |]. split; by apply endpoint_matches_extends.
  - destruct (IH h1 i Hi) as (l & Hl & Hls & Hlt).
    destruct (parsed_links h1 jls) as [ls h2]; simpl in *.
    exists l. by repeat split.
Qed.




End ParseFacts.

Section ReplaceFacts.
Import Viz.
Local Open Scope list_scope.

Lemma map_lookup_middle {A} `{!Inhabited A} (pre ns post : list A) :
  map (fun l => (pre ++ ns ++ post) !!! l) (seq (length pre) (length ns)) = ns.
Proof.
  revert pre. induction ns as [| a ns IH]; intros pre; simpl; [done |].
  f_equal.
  - by rewrite list_lookup_total_middle.
  - specialize (IH (pre ++ [a])).
    rewrite length_app, Nat.add_1_r, <- app_assoc in IH. exact IH.
Qed.

(** The node collection after the replacement holds the nodes of the
    response, in order. *)
Lemma replaced_nodes_content (r : flow_result) (st : state) :
  map (node_at (replaced r st)) (nodes (replaced r st)) = r_nodes r.
Proof.
  unfold node_at, replaced; simpl.
  destruct (parsed_links_extends (node_heap st ++ r_nodes r) (r_links r)) as [ext ->].
  rewrite <- app_assoc. apply map_lookup_middle.
Qed.


Lemma replaced_find_known (r : flow_result) (st : state) (s : string) :
  existsb (fun n => String.eqb (node_id n) s) (r_nodes r) = true ->
  exists m, find_node (replaced r st) s = Some m.
Proof.
  intros H. apply existsb_exists in H as (x & Hx & Hid).
  apply String.eqb_eq in Hid.
  rewrite <- (replaced_nodes_content r st) in Hx.
  apply in_map_iff in Hx as (m & Hm & Hin).
  apply (find_node_is_Some _ s m); [by apply list_elem_of_In |].
  unfold id_of. by rewrite Hm.
Qed.


(** The [i]-th link of the response sits at the [i]-th place of the link
    collection, and its endpoints stand for those of the response. *)
Lemma replaced_link (r : flow_result) (st : state) (i : nat) (jl : json_link) :
  r_links r !! i = Some jl ->
  let st1 := replaced r st in
  let ll := length (link_heap st) + i in
  links st1 !! i = Some ll /\ ll ∈ links st1
  /\ endpoint_matches (node_heap st1) (link_source (link_at st1 ll)) (j_source jl)
  /\ endpoint_matches (node_heap st1) (link_target (link_at st1 ll)) (j_target jl).
Proof.
  intros Hi. cbv zeta.
  pose proof (lookup_lt_Some _ _ _ Hi) as Hlt.
  destruct (parsed_links_matches (node_heap st ++ r_nodes r) _ _ _ Hi)
    as (l & Hl & Hs & Ht).
  assert (Hll : link_at (replaced r st) (length (link_heap st) + i) = l).
  { unfold link_at, replaced; simpl.
    rewrite lookup_total_app_r by lia.
    replace (length (link_heap st) + i - length (link_heap st)) with i by lia.
    by apply list_lookup_total_correct. }
  rewrite Hll. simpl.
  split; [by apply lookup_seq_lt |].
  split; [apply elem_of_seq; lia |]. by split.
Qed.

Lemma matched_id (h : list node) (st : state) (e : endpoint) (je : json_endpoint)
    (s : string) :
  node_heap st = h -> endpoint_matches h e je -> json_endpoint_id je = Some s ->
  (e = EStr s) \/ (exists l, e = ERef l /\ id_of st l = s /\ nonempty s = true).
Proof.
  intros Hh Hm Hid. destruct je as [| s' | n]; simpl in *; [discriminate | |].
  - left. congruence.
  - right. destruct Hm as (l & -> & Hl). exists l.
    destruct (nonempty (node_id n)) eqn:Hne; [| discriminate].
    injection Hid as <-. unfold id_of, node_at.
    rewrite (list_lookup_total_correct _ _ _ (eq_ind_r (fun x => x !! l = Some n) Hl Hh)).
    by repeat split.
Qed.

(** An endpoint whose id some node of the collection has is replaced by
    the first node with that id. *)
Lemma resolve_endpoint_known (st : state) (e : endpoint) (s : string) (m : loc) :
  (e = EStr s) \/ (exists l, e = ERef l /\ id_of st l = s /\ nonempty s = true) ->
  find_node st s = Some m ->
  resolve_endpoint st e = ERef m.
Proof.
  intros [-> | (l & -> & Hid & Hne)] Hf; simpl.
  - by rewrite Hf.
  - rewrite Hid, Hne, Hf.
    destruct (m =? l)%nat eqn:Hml; simpl; [| done].
    apply Nat.eqb_eq in Hml. by subst.
Qed.

Lemma replaced_endpoint_resolved (r : flow_result) (st : state) (e : endpoint)
    (je : json_endpoint) :
  endpoint_matches (node_heap (replaced r st)) e je ->
  id_known r je = true ->
  exists m, resolve_endpoint (replaced r st) e = ERef m
    /\ m ∈ nodes (replaced r st)
    /\ json_endpoint_id je = Some (id_of (replaced r st) m)
    /\ find_node (replaced r st) (id_of (replaced r st) m) = Some m.
Proof.
  intros Hm Hk. unfold id_known in Hk.
  destruct (json_endpoint_id je) as [s |] eqn:Hid; [| discriminate].
  destruct (replaced_find_known r st s Hk) as [m Hf].
  destruct (find_node_Some _ _ _ Hf) as [Hin Hids].
  exists m. rewrite Hids. repeat split; auto.
  apply (resolve_endpoint_known _ _ s); [| done].
  by apply (matched_id _ _ _ je s eq_refl).
Qed.

Lemma endpoints_known_at (r : flow_result) (i : nat) (jl : json_link) :
  endpoints_known r = true -> r_links r !! i = Some jl ->
  id_known r (j_source jl) = true /\ id_known r (j_target jl) = true.
Proof.
  unfold endpoints_known. rewrite forallb_forall. intros H Hi.
  apply andb_true_iff, H, list_elem_of_In, list_elem_of_lookup. by exists i.
Qed.

End ReplaceFacts.

Section CalculateFlowFacts.
Import Viz.
Local Open Scope list_scope.

Lemma resolved_after_replace (r : flow_result) (st : state) (i : nat) (jl : json_link) :
  endpoints_known r = true -> r_links r !! i = Some jl ->
  let st1 := replaced r st in
  let ll := length (link_heap st) + i in
  exists ns nt,
    link_source (link_at (resolve_references st1) ll) = ERef ns
    /\ link_target (link_at (resolve_references st1) ll) = ERef nt
    /\ ns ∈ nodes st1 /\ nt ∈ nodes st1
    /\ json_endpoint_id (j_source jl) = Some (id_of st1 ns)
    /\ json_endpoint_id (j_target jl) = Some (id_of st1 nt)
    /\ find_node st1 (id_of st1 ns) = Some ns
    /\ find_node st1 (id_of st1 nt) = Some nt.
Proof.
  intros Hk Hi. cbv zeta.
  destruct (endpoints_known_at r i jl Hk Hi) as [Hks Hkt].
  destruct (replaced_link r st i jl Hi) as (_ & Hin & Hs & Ht).
  destruct (replaced_endpoint_resolved r st _ _ Hs Hks) as (ns & Hrs & ? & ? & ?).
  destruct (replaced_endpoint_resolved r st _ _ Ht Hkt) as (nt & Hrt & ? & ? & ?).
  exists ns, nt.
  rewrite link_at_resolve_references, bool_decide_eq_true_2 by exact Hin.
  simpl. rewrite Hrs, Hrt. by repeat split.
Qed.

Lemma renderable_after_replace (r : flow_result) (st : state) :
  endpoints_known r = true ->
  renderable (resolve_references (replaced r st)) = true
  /\ links_resolved (resolve_references (replaced r st)) = true.
Proof.
  intros Hk.
  assert (H : forall ll, ll ∈ links (replaced r st) ->
            is_ref (link_source (link_at (resolve_references (replaced r st)) ll)) = true
            /\ is_ref (link_target (link_at (resolve_references (replaced r st)) ll)) = true).
  { intros ll Hin. simpl in Hin. apply elem_of_seq in Hin as [Hge Hlt].
    destruct (lookup_lt_is_Some_2 (r_links r) (ll - length (link_heap st))) as [jl Hjl];
      [lia |].
    destruct (resolved_after_replace r st _ jl Hk Hjl) as (ns & nt & Hs & Ht & _).
    replace (length (link_heap st) + (ll - length (link_heap st))) with ll in * by lia.
    by rewrite Hs, Ht. }
  split.
  - unfold renderable. apply forallb_forall. intros ll Hin.
    apply list_elem_of_In in Hin. destruct (H ll Hin) as [Hs Ht].
    by rewrite (is_ref_defined _ Hs), (is_ref_defined _ Ht).
  - unfold links_resolved. apply forallb_forall. intros ll Hin.
    apply list_elem_of_In in Hin. destruct (H ll Hin) as [Hs Ht].
    by rewrite Hs, Ht.
Qed.

(** C3. When every link endpoint of a calculate-flow response carries an id
    (an id string, or an embedded node object with a non-empty id) that
    some node of the response has, then after the response replaces the
    nodes and links of the store and the redraw has re-resolved the
    references, the store's nodes are the nodes of the response and every
    link's source and target is the address of a node of the new node
    collection: the first node of the collection with the endpoint's id,
    the very object and not the copy that came embedded in the link. *)
Theorem calculatePowerFlow_links_resolved (r : flow_result) (st : state) :
  endpoints_known r = true ->
  let st' := exec (calculatePowerFlow (HttpOk r)) st in
  map (node_at st') (nodes st') = r_nodes r
  /\ length (links st') = length (r_links r)
  /\ (forall i jl ll,
        r_links r !! i = Some jl -> links st' !! i = Some ll ->
        exists ns nt,
          link_source (link_at st' ll) = ERef ns
          /\ link_target (link_at st' ll) = ERef nt
          /\ ns ∈ nodes st' /\ nt ∈ nodes st'
          /\ json_endpoint_id (j_source jl) = Some (id_of st' ns)
          /\ json_endpoint_id (j_target jl) = Some (id_of st' nt)
          /\ find_node st' (id_of st' ns) = Some ns
          /\ find_node st' (id_of st' nt) = Some nt)
  /\ links_resolved st' = true
  /\ notifications st' = notifications st ++ [(success, MsgFlowDone)].
Proof.
  intros Hk. cbv zeta. unfold exec. rewrite calculatePowerFlow_run.
  destruct (renderable_after_replace r st Hk) as [Hr Hlr]. rewrite Hr.
  simpl snd.
  split; [apply (replaced_nodes_content r st) |].
  split; [simpl; by rewrite length_seq |].
  split; [| split; [exact Hlr | reflexivity]].
  intros i jl ll Hi Hll.
  assert (ll = length (link_heap st) + i) as ->.
  { simpl in Hll. apply lookup_seq in Hll. lia. }
  exact (resolved_after_replace r st i jl Hk Hi).
Qed.







End CalculateFlowFacts.

Lemma calculatePowerFlow_links_resolved_witness :
  let st' := Viz.exec (Viz.calculatePowerFlow (Viz.HttpOk good_result)) sample_store in
  map (Viz.node_at st') (Viz.nodes st') = Viz.r_nodes good_result
  /\ links_resolved st' = true.
Proof.
  cbv zeta.
  destruct (calculatePowerFlow_links_resolved good_result sample_store eq_refl)
    as (Hn & _ & _ & Hr & _).
  split; [exact Hn | exact Hr].
Defined.



(** * Boundary cases *)

Example parseInt_examples :
  (Adapter.parseInt "  -12ab", Adapter.parseInt "0x1f", Adapter.parseInt "7")
  = ((-12)%float, 31%float, 7%float)
  /\ PrimFloat.is_nan (Adapter.parseInt "abc") = true
  /\ Adapter.remove_first "bus" "xbus12" = "x12".
Proof. repeat split; vm_compute; reflexivity. Qed.

(** detectCaseType tests [nodes] for truthiness only: the string 'abc'
    has length 3 and gives case9; the number 5 has no length and gives
    custom. *)
Example detectCaseType_of_non_arrays :
  Adapter.detectCaseType
    (Some {| Adapter.p_nodes := None; Adapter.p_nodes_length := Some 3%float;
             Adapter.p_links := None |}) = "case9"
  /\ Adapter.detectCaseType
       (Some {| Adapter.p_nodes := None; Adapter.p_nodes_length := Some nan;
                Adapter.p_links := None |}) = "custom"
  /\ Adapter.detectCaseType
       (Some {| Adapter.p_nodes := None; Adapter.p_nodes_length := None;
                Adapter.p_links := None |}) = "unknown".
Proof. by_evaluation. Qed.

(** A node whose id names a member of [Object.prototype] leaves
    normalizeNodes without coordinates. *)
Example inherited_id_gets_no_coordinates :
  rmap (map (fun n' => (get n' "id", get n' "x", get n' "y")))
    (Adapter.normalizeNodes idle_host [ {[ "id" := VStr "toString" ]} ] "case9")
  = Ok [ (VStr "toString", VUndefined, VUndefined) ].
Proof. vm_compute. reflexivity. Qed.

(** A request that fails, and a result whose statistics cannot be shown,
    leave the nodes and links of the store as they were and report the
    failure; the simulation is started again on the old links. *)
Example failed_request_keeps_store :
  let st' := Viz.exec (Viz.calculatePowerFlow (Viz.HttpBadStats good_result)) sample_store in
  Viz.calculatePowerFlow (Viz.HttpFailed "503") sample_store
  = (Ok tt, Viz.add_notification (Viz.error, Viz.MsgFlowFailed (Error "503")) sample_store)
  /\ Viz.outcome (Viz.calculatePowerFlow (Viz.HttpBadStats good_result)) sample_store = Ok tt
  /\ Viz.nodes st' = Viz.nodes sample_store
  /\ Viz.links st' = Viz.links sample_store
  /\ Viz.notifications st' = [(Viz.error, Viz.MsgFlowFailed TypeError)].
Proof. by_evaluation. Qed.

(** An empty [type] is not truthy: the bus-type code decides. *)
Example empty_type_falls_through (h : Host) :
  Adapter.determineNodeType h {[ "type" := VStr ""; "bus_type" := VNum 1 ]} "case9"
  = VStr "slack".
Proof. vm_compute. reflexivity. Qed.

(** On a store that holds a link with an undefined endpoint, deleteNode
    throws in the link filter and removes nothing. *)
Example deleteNode_throws_on_undefined_endpoint :
  let st := Viz.exec (Viz.calculatePowerFlow (Viz.HttpOk dangling_result)) sample_store in
  Viz.deleteNode "bus1" true st = (Throw TypeError, st).
Proof. vm_compute. reflexivity. Qed.

(** A link that arrives with an embedded node object whose id is empty is
    left pointing at that copy (address 5), although the node collection
    (address 4) holds a node with the same, empty, id. *)
Example empty_id_copy_is_not_rebound :
  let anon := Viz.mk_node "" "load" 0 0 1 0 0 0 in
  let r := {| Viz.r_nodes := [anon];
              Viz.r_links := [mk_json_link (Viz.JObj anon) (Viz.JStr "")] |} in
  let st' := Viz.exec (Viz.calculatePowerFlow (Viz.HttpOk r)) sample_store in
  Viz.nodes st' = [4]
  /\ (Viz.link_source (Viz.link_at st' 4), Viz.link_target (Viz.link_at st' 4))
     = (Viz.ERef 5, Viz.ERef 4).
Proof. vm_compute. split; reflexivity. Qed.

(** * Further properties of the data adapter *)

Section ConvertFacts.
Import Adapter.
Context (h : Host).

Lemma map_result_length {A B} (f : nat -> A -> result B) (i : nat) (l : list A)
    (bs : list B) :
  map_result f i l = Ok bs -> length bs = length l.
Proof.
  revert i bs. induction l as [| a l IH]; intros i bs; simpl.
  - by intros [= <-].
  - destruct (f i a) as [b | e]; simpl; [| discriminate].
    destruct (map_result f (S i) l) as [bs' | e] eqn:Hm; simpl; [| discriminate].
    intros [= <-]. simpl. by rewrite (IH _ _ Hm).
Qed.

Lemma map_result_Forall2 {A B} (f : nat -> A -> result B) (i : nat) (l : list A)
    (bs : list B) :
  map_result f i l = Ok bs -> Forall2 (fun a b => exists j, f j a = Ok b) l bs.
Proof.
  revert i bs. induction l as [| a l IH]; intros i bs; simpl.
  - intros [= <-]. constructor.
  - destruct (f i a) as [b | e] eqn:Hf; simpl; [| discriminate].
    destruct (map_result f (S i) l) as [bs' | e] eqn:Hm; simpl; [| discriminate].
    intros [= <-]. constructor; [by exists i | by apply (IH (S i))].
Qed.

Lemma map_result_total {A B} (f : nat -> A -> result B) (i : nat) (l : list A) :
  (forall j a, a ∈ l -> exists b, f j a = Ok b) ->
  exists bs, map_result f i l = Ok bs.
Proof.
  revert i. induction l as [| a l IH]; intros i Hf; simpl; [by eexists |].
  destruct (Hf i a) as [b Hb]; [apply list_elem_of_here |]. rewrite Hb. simpl.
  destruct (IH (S i)) as [bs Hbs].
  { intros j x Hx. apply Hf. by apply list_elem_of_further. }
  rewrite Hbs. simpl. by eexists.
Qed.

(** A callback that returns its argument on every element returns the
    list. *)
Lemma map_result_fixed {A} (f : nat -> A -> result A) (i : nat) (l : list A) :
  (forall j a, a ∈ l -> f j a = Ok a) -> map_result f i l = Ok l.
Proof.
  revert i. induction l as [| a l IH]; intros i Hf; simpl; [done |].
  rewrite Hf by apply list_elem_of_here. simpl.
  rewrite IH; [done |]. intros j x Hx. apply Hf. by apply list_elem_of_further.
Qed.

Lemma truthy_bus_string (s : string) : truthy (VStr ("bus" ++ s)) = true.
Proof. reflexivity. Qed.

End ConvertFacts.

Section NormalizeNodeFacts.
Import Adapter.
Context (h : Host).

Lemma normalizeNode_unfold (ct : string) (total i : nat) (node : obj) :
  normalizeNode h ct total i node
  = rbind (generateNodeCoordinates h (normalized_id h i node) ct total)
          (fun c => Ok (with_coords c (normalized_base h ct i node))).
Proof.
  unfold normalizeNode.
  match goal with
  | |- (if ?g then _ else _) = _ => change g with true
  end.
  reflexivity.
Qed.

Lemma normalizeNode_Ok (ct : string) (total i : nat) (node n' : obj) :
  normalizeNode h ct total i node = Ok n' ->
  exists c, generateNodeCoordinates h (normalized_id h i node) ct total = Ok c
            /\ n' = with_coords c (normalized_base h ct i node).
Proof.
  rewrite normalizeNode_unfold.
  destruct (generateNodeCoordinates _ _ _ _) as [c | e]; simpl; [| discriminate].
  intros [= <-]. by exists c.
Qed.

(** The type inferred for a node is never empty. *)
Lemma determineNodeType_truthy (node : obj) (ct : string) :
  truthy (determineNodeType h node ct) = true.
Proof.
  unfold determineNodeType.
  destruct (truthy (get node "type")) eqn:Ht; [exact Ht |].
  destruct (is_defined (get node "bus_type")).
  - rewrite busTypeMapping_lookup.
    destruct (inherited _); [reflexivity |]. unfold bus_type_table.
    repeat case_decide; reflexivity.
  - destruct (js_gt0 h (get node "active_power") && is_defined (get node "voltage"));
      [reflexivity |].
    destruct (js_gt0 h (get node "active_power")); [reflexivity |].
    destruct (js_lt0 h (get node "active_power")); reflexivity.
Qed.

Lemma normalized_id_truthy (i : nat) (node : obj) :
  truthy (normalized_id h i node) = true.
Proof.
  unfold normalized_id, js_or at 1.
  destruct (truthy (get node "id")) eqn:Hid; [exact Hid | reflexivity].
Qed.

(** [(x || d) || undefined || d] is [x || d]. *)
Lemma js_or_default_idem (x d : value) :
  (x ||| d) ||| VUndefined ||| d = x ||| d.
Proof.
  unfold js_or.
  destruct (truthy x) eqn:Hx; cbv iota; rewrite ?Hx; cbv iota; rewrite ?Hx;
    [reflexivity |].
  destruct (truthy d) eqn:Hd; cbv iota; rewrite ?Hd; simpl; rewrite ?Hd; reflexivity.
Qed.

Lemma js_or_default_truthy (x d : value) :
  truthy d = true -> truthy (x ||| d) = true.
Proof. intros Hd. unfold js_or. destruct (truthy x) eqn:Hx; [exact Hx | exact Hd]. Qed.

(** Normalizing a normalized node gives it back. *)
Lemma normalizeNode_idempotent (ct : string) (total i j : nat) (node n' : obj) :
  normalizeNode h ct total i node = Ok n' ->
  normalizeNode h ct total j n' = Ok n'.
Proof.
  intros Hn. destruct (normalizeNode_Ok _ _ _ _ _ Hn) as (c & Hc & ->).
  rewrite normalizeNode_unfold.
  assert (Hid : normalized_id h j (with_coords c (normalized_base h ct i node))
                = normalized_id h i node).
  { unfold normalized_id at 1.
    change (get (with_coords c (normalized_base h ct i node)) "id")
      with (normalized_id h i node).
    apply js_or_truthy, normalized_id_truthy. }
  assert (Hv : norm_voltage (with_coords c (normalized_base h ct i node))
               = norm_voltage node).
  { unfold norm_voltage at 1.
    change (get (with_coords c (normalized_base h ct i node)) "voltage")
      with (norm_voltage node).
    change (get (with_coords c (normalized_base h ct i node)) "vm") with VUndefined.
    apply js_or_default_idem. }
  assert (Ha : norm_angle (with_coords c (normalized_base h ct i node))
               = norm_angle node).
  { unfold norm_angle at 1.
    change (get (with_coords c (normalized_base h ct i node)) "angle")
      with (norm_angle node).
    change (get (with_coords c (normalized_base h ct i node)) "va") with VUndefined.
    apply js_or_default_idem. }
  assert (Hp : norm_active (with_coords c (normalized_base h ct i node))
               = norm_active node).
  { unfold norm_active at 1.
    change (get (with_coords c (normalized_base h ct i node)) "active_power")
      with (norm_active node).
    change (get (with_coords c (normalized_base h ct i node)) "pd") with VUndefined.
    apply js_or_default_idem. }
  assert (Hq : norm_reactive (with_coords c (normalized_base h ct i node))
               = norm_reactive node).
  { unfold norm_reactive at 1.
    change (get (with_coords c (normalized_base h ct i node)) "reactive_power")
      with (norm_reactive node).
    change (get (with_coords c (normalized_base h ct i node)) "qd") with VUndefined.
    apply js_or_default_idem. }
  assert (Ht : determineNodeType h (with_coords c (normalized_base h ct i node)) ct
               = determineNodeType h node ct).
  { unfold determineNodeType at 1.
    change (get (with_coords c (normalized_base h ct i node)) "type")
      with (determineNodeType h node ct).
    by rewrite determineNodeType_truthy. }
  assert (Hb : normalized_base h ct j (with_coords c (normalized_base h ct i node))
               = normalized_base h ct i node).
  { unfold normalized_base at 1. rewrite Hid, Hv, Ha, Hp, Hq, Ht. reflexivity. }
  rewrite Hid, Hc. simpl. by rewrite Hb.
Qed.

End NormalizeNodeFacts.

Section ConvertDataFacts.
Import Adapter.
Context (h : Host).

Lemma forallb_false_exists {A} (f : A -> bool) (l : list A) :
  forallb f l = false <-> exists x, x ∈ l /\ f x = false.
Proof.
  induction l as [| a l IH]; simpl.
  - split; [discriminate | intros (x & Hx & _); by apply elem_of_nil in Hx].
  - destruct (f a) eqn:Ha; simpl.
    + rewrite IH. split.
      * intros (x & Hx & Hf). exists x. split; [by apply list_elem_of_further | done].
      * intros (x & Hx & Hf). apply elem_of_cons in Hx as [-> | Hx]; [congruence |].
        by exists x.
    + split; [| done]. intros _. exists a. split; [apply list_elem_of_here | done].
Qed.

Lemma Forall2_map_eq {A B C} (R : A -> B -> Prop) (f : A -> C) (g : B -> C)
    (l : list A) (l' : list B) :
  (forall a b, a ∈ l -> R a b -> g b = f a) ->
  Forall2 R l l' -> map g l' = map f l.
Proof.
  intros HR H. induction H as [| a b l l' Hab _ IH]; simpl; [done |].
  rewrite (HR a b) by (apply list_elem_of_here || done).
  rewrite IH; [done |]. intros x y Hx. apply HR. by apply list_elem_of_further.
Qed.

(** The coordinate synthesis fails only with a TypeError, and never on a
    string id. *)
Lemma generateNodeCoordinates_string (s ct : string) (total : nat) :
  exists c, generateNodeCoordinates h (VStr s) ct total = Ok c.
Proof.
  unfold generateNodeCoordinates.
  destruct (layout_entry h ct (VStr s)) as [p |]; [by exists p |].
  simpl. by eexists.
Qed.

Lemma generateNodeCoordinates_error (v : value) (ct : string) (total : nat)
    (e : js_error) :
  generateNodeCoordinates h v ct total = Throw e -> e = TypeError.
Proof.
  unfold generateNodeCoordinates.
  destruct (layout_entry h ct v) as [p |]; [discriminate |].
  destruct v; simpl; congruence.
Qed.

(** What generateNodeCoordinates returns is the table entry, or else a
    point of the circle. *)
Lemma generateNodeCoordinates_entry (v : value) (ct : string) (total : nat)
    (p : located) :
  generateNodeCoordinates h v ct total = Ok p ->
  match layout_entry h ct v with
  | Some q => p = q
  | None => exists c, p = Point c
  end.
Proof.
  unfold generateNodeCoordinates.
  destruct (layout_entry h ct v) as [q |]; [congruence |].
  destruct (generateCircularLayoutForNode h v total 400 300 80) as [c | e]; simpl;
    [| discriminate].
  intros [= <-]. by exists c.
Qed.

(** Outside the members of [Object.prototype] a table entry is a point. *)
Lemma layout_entry_not_inherited (v : value) (ct : string) :
  inherited ct = false -> inherited (ToString h v) = false ->
  match layout_entry h ct v with
  | Some q => exists c, q = Point c
  | None => True
  end.
Proof.
  intros Hct Hid. unfold layout_entry, lookup_member. rewrite Hct.
  destruct (predefinedLayouts h !! ct) as [layout |]; [| done].
  rewrite Hid. destruct (layout !! ToString h v) as [c |]; [by exists c | done].
Qed.

Lemma normalizeNode_error (ct : string) (total i : nat) (node : obj) (e : js_error) :
  normalizeNode h ct total i node = Throw e -> e = TypeError.
Proof.
  rewrite normalizeNode_unfold.
  destruct (generateNodeCoordinates h _ ct total) as [c | e'] eqn:Hg; simpl;
    [discriminate |].
  intros [= <-]. by apply generateNodeCoordinates_error in Hg.
Qed.

Lemma map_result_error {A B} (f : nat -> A -> result B) (i : nat) (l : list A)
    (e : js_error) :
  map_result f i l = Throw e -> exists j a, a ∈ l /\ f j a = Throw e.
Proof.
  revert i. induction l as [| a l IH]; intros i; simpl; [discriminate |].
  destruct (f i a) as [b | e'] eqn:Hf; simpl.
  - destruct (map_result f (S i) l) as [bs | e''] eqn:Hm; simpl; [discriminate |].
    intros [= <-]. destruct (IH _ Hm) as (j & x & Hx & Hfx).
    exists j, x. split; [by apply list_elem_of_further | done].
  - intros [= <-]. exists i, a. split; [apply list_elem_of_here | done].
Qed.

Lemma normalizeNodes_error (ns : list obj) (ct : string) (e : js_error) :
  normalizeNodes h ns ct = Throw e -> e = TypeError.
Proof.
  intros H. apply map_result_error in H as (j & a & _ & Ha).
  by apply normalizeNode_error in Ha.
Qed.

Lemma convertData_arrays (ns ls : list obj) :
  validateData (arrays ns ls) = true ->
  convertData h (arrays ns ls)
  = rbind (normalizeNodes h ns (detectCaseType (arrays ns ls))) (fun nodes' =>
      Ok {| caseType := detectCaseType (arrays ns ls);
            nodes := nodes';
            links := normalizeLinks ls (detectCaseType (arrays ns ls));
            meta := {| originalFormat := "pypower";
                       convertedAt := Date_now_iso h;
                       nodeCount := length ns;
                       linkCount := length ls |} |}).
Proof. intros Hv. unfold convertData. rewrite Hv. reflexivity. Qed.

Lemma validateData_arrays (ns ls : list obj) :
  validateData (arrays ns ls) = true <->
  (forall n, n ∈ ns -> truthy (get n "id") = true)
  /\ (forall l, l ∈ ls -> truthy (get l "source") = true
                        /\ truthy (get l "target") = true).
Proof.
  simpl. rewrite andb_true_iff, !forallb_forall. split.
  - intros [Hn Hl]. split.
    + intros n Hin. by apply Hn, list_elem_of_In.
    + intros l Hin. by apply andb_true_iff, Hl, list_elem_of_In.
  - intros [Hn Hl]. split.
    + intros n Hin. by apply Hn, list_elem_of_In.
    + intros l Hin. by apply andb_true_iff, Hl, list_elem_of_In.
Qed.

Lemma detectCaseType_known (ns ls : list obj) :
  detectCaseType (arrays ns ls) <> "unknown".
Proof.
  unfold detectCaseType, case_of_count. simpl.
  repeat (match goal with |- context [if ?b then _ else _] => destruct b end);
    discriminate.
Qed.

(** X3. convertData refuses a payload with the invalid-format error in
    exactly these cases: the payload is missing, its [nodes] or [links] is
    not an array, some node has no truthy [id], or some link has no truthy
    [source] or no truthy [target] (a link that names its ends only by the
    aliases [fbus]/[tbus] or [from]/[to] is refused). *)
Theorem convertData_rejects_exactly (p : option payload) :
  convertData h p = Throw invalid_shape <->
  match p with
  | None => True
  | Some d =>
      match p_nodes d, p_links d with
      | Some ns, Some ls =>
          (exists n, n ∈ ns /\ truthy (get n "id") = false)
          \/ (exists l, l ∈ ls /\ (truthy (get l "source") = false
                                   \/ truthy (get l "target") = false))
      | _, _ => True
      end
  end.
Proof.
  assert (Hinv : validateData p = false <-> convertData h p = Throw invalid_shape).
  { unfold convertData. destruct (validateData p) eqn:Hv; simpl; split; try done.
    destruct (normalizeNodes h _ _) as [ns' | e] eqn:Hn; simpl; [discriminate |].
    apply normalizeNodes_error in Hn. subst e. discriminate. }
  rewrite <- Hinv.
  destruct p as [[[ns |] other [ls |]] |]; simpl; try tauto.
  rewrite andb_false_iff, !forallb_false_exists. split.
  - intros [Hn | (l & Hl & Hf)]; [by left |]. right. exists l. split; [done |].
    by apply andb_false_iff.
  - intros [Hn | (l & Hl & Hf)]; [by left |]. right. exists l. split; [done |].
    by apply andb_false_iff.
Qed.

(** X1. A payload that passes validation and whose node ids are strings is
    always converted: the result has as many nodes and links as the
    payload, its metadata counts say so, and its case type is the one
    detected from the node count, never "unknown". *)
Theorem convertData_succeeds_on_string_ids (ns ls : list obj) :
  validateData (arrays ns ls) = true ->
  forallb (fun n => is_string (get n "id")) ns = true ->
  exists c,
    convertData h (arrays ns ls) = Ok c
    /\ length (nodes c) = length ns /\ length (links c) = length ls
    /\ nodeCount (meta c) = length ns /\ linkCount (meta c) = length ls
    /\ caseType c = detectCaseType (arrays ns ls)
    /\ caseType c <> "unknown".
Proof.
  intros Hv Hs. rewrite (convertData_arrays _ _ Hv).
  apply validateData_arrays in Hv as [Hid _].
  destruct (map_result_total
              (normalizeNode h (detectCaseType (arrays ns ls)) (length ns)) 0 ns)
    as [ns' Hns'].
  { intros j a Ha. rewrite normalizeNode_unfold.
    assert (Hstr : is_string (get a "id") = true).
    { rewrite forallb_forall in Hs. by apply Hs, list_elem_of_In. }
    unfold normalized_id. rewrite js_or_truthy by by apply Hid.
    destruct (get a "id") as [| | | | s |]; try discriminate.
    destruct (generateNodeCoordinates_string s (detectCaseType (arrays ns ls))
                (length ns)) as [c ->].
    simpl. by eexists. }
  unfold normalizeNodes. rewrite Hns'. simpl.
  eexists. split; [reflexivity |]. simpl.
  split; [by apply map_result_length in Hns' |].
  split; [unfold normalizeLinks; by rewrite length_map |].
  repeat split; auto.
  apply (detectCaseType_known ns ls).
Qed.

(** X2. Whatever convertData returns keeps every node id and every link
    endpoint of the payload as it was given, in order: the synthesized
    [bus...] id and the endpoint aliases are never used on this path. *)
Theorem convertData_keeps_ids_and_endpoints (ns ls : list obj) (c : converted) :
  convertData h (arrays ns ls) = Ok c ->
  map (fun n => get n "id") (nodes c) = map (fun n => get n "id") ns
  /\ map (fun l => (get l "source", get l "target")) (links c)
     = map (fun l => (get l "source", get l "target")) ls.
Proof.
  intros Hc.
  assert (Hv : validateData (arrays ns ls) = true).
  { destruct (validateData (arrays ns ls)) eqn:Hv; [done |].
    unfold convertData in Hc. rewrite Hv in Hc. discriminate. }
  rewrite (convertData_arrays _ _ Hv) in Hc.
  apply validateData_arrays in Hv as [Hid Hends].
  destruct (normalizeNodes h ns _) as [ns' |] eqn:Hn; simpl in Hc; [| discriminate].
  injection Hc as <-. simpl. split.
  - apply map_result_Forall2 in Hn.
    refine (Forall2_map_eq _ _ _ _ _ _ Hn).
    intros a b Ha (j & Hj).
    apply normalizeNode_Ok in Hj as (c & _ & ->).
    change (get (with_coords c (normalized_base h _ j a)) "id")
      with (normalized_id h j a).
    unfold normalized_id. by apply js_or_truthy, Hid.
  - unfold normalizeLinks. rewrite map_map. apply map_ext_in.
    intros l Hl. apply list_elem_of_In, Hends in Hl as [Hs Ht].
    change (get (normalizeLink l) "source")
      with (get l "source" ||| get l "fbus" ||| get l "from").
    change (get (normalizeLink l) "target")
      with (get l "target" ||| get l "tbus" ||| get l "to").
    by rewrite !(js_or_truthy (get l "source")), !(js_or_truthy (get l "target")),
       ?js_or_truthy.
Qed.

End ConvertDataFacts.

Section IdempotenceFacts.
Import Adapter.
Context (h : Host).

Lemma Forall2_elem_r {A B} (R : A -> B -> Prop) (l : list A) (l' : list B) (b : B) :
  Forall2 R l l' -> b ∈ l' -> exists a, a ∈ l /\ R a b.
Proof.
  induction 1 as [| a b' l l' Hab _ IH]; intros Hb; [by apply elem_of_nil in Hb |].
  apply elem_of_cons in Hb as [-> | Hb].
  - exists a. split; [apply list_elem_of_here | done].
  - destruct (IH Hb) as (x & Hx & HR). exists x.
    split; [by apply list_elem_of_further | done].
Qed.

Lemma normalizeNodes_outputs (ns ns' : list obj) (ct : string) (n' : obj) :
  normalizeNodes h ns ct = Ok ns' -> n' ∈ ns' ->
  exists a j, a ∈ ns /\ normalizeNode h ct (length ns) j a = Ok n'.
Proof.
  intros Hn Hin. apply map_result_Forall2 in Hn.
  destruct (Forall2_elem_r _ _ _ _ Hn Hin) as (a & Ha & j & Hj). by exists a, j.
Qed.

Lemma normalizeNodes_ids_truthy (ns ns' : list obj) (ct : string) (n' : obj) :
  normalizeNodes h ns ct = Ok ns' -> n' ∈ ns' -> truthy (get n' "id") = true.
Proof.
  intros Hn Hin.
  destruct (normalizeNodes_outputs _ _ _ _ Hn Hin) as (a & j & _ & Hj).
  apply normalizeNode_Ok in Hj as (c & _ & ->).
  change (get (with_coords c (normalized_base h ct j a)) "id")
    with (normalized_id h j a).
  apply normalized_id_truthy.
Qed.

(** X4. Every node that normalizeNodes returns has a truthy id, a truthy
    type and a truthy voltage, whatever the input node carried. Its x and
    y are both numbers, except when the lookup of its id in the layout
    tables ends on a member of [Object.prototype] (an id such as
    "toString"): then x and y are both [undefined]. With a case type that
    detectCaseType returns and an id that names no such member, x and y
    are numbers. *)
Theorem normalizeNodes_fields_present (ns ns' : list obj) (ct : string) :
  normalizeNodes h ns ct = Ok ns' ->
  forall n', n' ∈ ns' ->
    truthy (get n' "id") = true
    /\ truthy (get n' "type") = true
    /\ truthy (get n' "voltage") = true
    /\ match layout_entry h ct (get n' "id") with
       | Some NotAPoint => get n' "x" = VUndefined /\ get n' "y" = VUndefined
       | _ => is_number (get n' "x") = true /\ is_number (get n' "y") = true
       end
    /\ (inherited ct = false -> inherited (ToString h (get n' "id")) = false ->
        is_number (get n' "x") = true /\ is_number (get n' "y") = true).
Proof.
  intros Hn n' Hin.
  destruct (normalizeNodes_outputs _ _ _ _ Hn Hin) as (a & j & _ & Hj).
  apply normalizeNode_Ok in Hj as (c & Hc & ->).
  change (get (with_coords c (normalized_base h ct j a)) "id")
    with (normalized_id h j a).
  change (get (with_coords c (normalized_base h ct j a)) "type")
    with (determineNodeType h a ct).
  change (get (with_coords c (normalized_base h ct j a)) "voltage")
    with (norm_voltage a).
  change (get (with_coords c (normalized_base h ct j a)) "x") with (point_x c).
  change (get (with_coords c (normalized_base h ct j a)) "y") with (point_y c).
  split; [apply normalized_id_truthy |].
  split; [apply determineNodeType_truthy |].
  split; [by apply js_or_default_truthy |].
  pose proof (generateNodeCoordinates_entry h _ _ _ _ Hc) as Hentry.
  split.
  - destruct (layout_entry h ct (normalized_id h j a)) as [[c' |] |].
    + subst c. split; reflexivity.
    + subst c. split; reflexivity.
    + destruct Hentry as [c' ->]. split; reflexivity.
  - intros Hct Hid.
    pose proof (layout_entry_not_inherited h _ _ Hct Hid) as Hq.
    destruct (layout_entry h ct (normalized_id h j a)) as [q |].
    + destruct Hq as [c' ->]. subst c. split; reflexivity.
    + destruct Hentry as [c' ->]. split; reflexivity.
Qed.

(** Normalizing the normalized nodes gives them back. *)
Lemma normalizeNodes_idempotent (ns ns' : list obj) (ct : string) :
  normalizeNodes h ns ct = Ok ns' -> normalizeNodes h ns' ct = Ok ns'.
Proof.
  intros Hn. unfold normalizeNodes at 1. apply map_result_fixed.
  intros j b Hb.
  destruct (normalizeNodes_outputs _ _ _ _ Hn Hb) as (a & i & _ & Hi).
  rewrite (map_result_length _ _ _ _ Hn).
  by apply (normalizeNode_idempotent h ct (length ns) i j a).
Qed.

Lemma normalizeLink_idempotent (l : obj) :
  truthy (get l "source") = true -> truthy (get l "target") = true ->
  normalizeLink (normalizeLink l) = normalizeLink l.
Proof.
  intros Hs Ht. unfold normalizeLink at 1.
  change (get (normalizeLink l) "source")
    with (get l "source" ||| get l "fbus" ||| get l "from").
  change (get (normalizeLink l) "target")
    with (get l "target" ||| get l "tbus" ||| get l "to").
  change (get (normalizeLink l) "resistance")
    with (get l "resistance" ||| get l "r" ||| VNum 0.01).
  change (get (normalizeLink l) "reactance")
    with (get l "reactance" ||| get l "x" ||| VNum 0.05).
  change (get (normalizeLink l) "active_power")
    with (get l "active_power" ||| get l "pf" ||| VNum 0).
  change (get (normalizeLink l) "reactive_power")
    with (get l "reactive_power" ||| get l "qf" ||| VNum 0).
  change (get (normalizeLink l) "fbus") with VUndefined.
  change (get (normalizeLink l) "from") with VUndefined.
  change (get (normalizeLink l) "tbus") with VUndefined.
  change (get (normalizeLink l) "to") with VUndefined.
  change (get (normalizeLink l) "r") with VUndefined.
  change (get (normalizeLink l) "x") with VUndefined.
  change (get (normalizeLink l) "pf") with VUndefined.
  change (get (normalizeLink l) "qf") with VUndefined.
  rewrite !js_or_default_idem.
  rewrite !(js_or_truthy (get l "source")), !(js_or_truthy (get l "target")) by done.
  unfold normalizeLink.
  rewrite !(js_or_truthy (get l "source")), !(js_or_truthy (get l "target")) by done.
  reflexivity.
Qed.

(** X5. convertData is idempotent on what it returns: the returned nodes
    and links, given back as a payload, are accepted and converted to the
    same nodes, the same links and the same case type. *)
Theorem convertData_idempotent (ns ls : list obj) (c : converted) :
  convertData h (arrays ns ls) = Ok c ->
  exists c',
    convertData h (arrays (nodes c) (links c)) = Ok c'
    /\ nodes c' = nodes c /\ links c' = links c /\ caseType c' = caseType c.
Proof.
  intros Hc.
  assert (Hv : validateData (arrays ns ls) = true).
  { destruct (validateData (arrays ns ls)) eqn:Hv; [done |].
    unfold convertData in Hc. rewrite Hv in Hc. discriminate. }
  pose proof Hc as Hc0.
  rewrite (convertData_arrays _ _ _ Hv) in Hc.
  pose proof (proj1 (validateData_arrays _ _) Hv) as [Hid Hends].
  destruct (normalizeNodes h ns _) as [ns' |] eqn:Hn; simpl in Hc; [| discriminate].
  injection Hc as <-. simpl.
  assert (Hlen : length ns' = length ns) by by apply map_result_length in Hn.
  assert (Hct : detectCaseType (arrays ns' (normalizeLinks ls (detectCaseType (arrays ns ls))))
                = detectCaseType (arrays ns ls)).
  { simpl. by rewrite Hlen. }
  assert (Hv' : validateData (arrays ns' (normalizeLinks ls (detectCaseType (arrays ns ls))))
                = true).
  { apply validateData_arrays. split.
    - intros n Hin. by apply (normalizeNodes_ids_truthy _ _ _ _ Hn).
    - intros l Hin. unfold normalizeLinks in Hin.
      apply list_elem_of_In, in_map_iff in Hin as (l0 & <- & Hl0).
      apply list_elem_of_In, Hends in Hl0 as [Hs Ht].
      change (get (normalizeLink l0) "source")
        with (get l0 "source" ||| get l0 "fbus" ||| get l0 "from").
      change (get (normalizeLink l0) "target")
        with (get l0 "target" ||| get l0 "tbus" ||| get l0 "to").
      by rewrite !(js_or_truthy (get l0 "source")), !(js_or_truthy (get l0 "target")). }
  rewrite (convertData_arrays _ _ _ Hv'), Hct.
  rewrite (normalizeNodes_idempotent _ _ _ Hn). simpl.
  eexists. split; [reflexivity |]. simpl.
  split; [done |]. split; [| done].
  unfold normalizeLinks. rewrite map_map. apply map_ext_in.
  intros l Hl. apply list_elem_of_In, Hends in Hl as [Hs Ht].
  by apply normalizeLink_idempotent.
Qed.

End IdempotenceFacts.

Lemma convertData_succeeds_on_string_ids_witness :
  exists c,
    Adapter.convertData idle_host sample_payload = Ok c
    /\ length (Adapter.nodes c) = 2 /\ Adapter.caseType c = "case9".
Proof.
  destruct (convertData_succeeds_on_string_ids idle_host
              [sample_bus1; sample_bus2] [sample_link12] eq_refl eq_refl)
    as (c & Hc & Hn & _ & _ & _ & Hct & _).
  exists c. split; [exact Hc |]. split; [exact Hn | exact Hct].
Defined.

Lemma convertData_sample_Ok :
  exists c, Adapter.convertData idle_host sample_payload = Ok c.
Proof. vm_compute. by eexists. Qed.

Lemma convertData_keeps_ids_and_endpoints_witness :
  exists c,
    Adapter.convertData idle_host sample_payload = Ok c
    /\ map (fun n => get n "id") (Adapter.nodes c) = [VStr "bus1"; VStr "bus2"].
Proof.
  destruct convertData_sample_Ok as (c & Hc).
  exists c. split; [exact Hc |].
  exact (proj1 (convertData_keeps_ids_and_endpoints idle_host
                  [sample_bus1; sample_bus2] [sample_link12] c Hc)).
Defined.

Lemma convertData_idempotent_witness :
  exists c c',
    Adapter.convertData idle_host sample_payload = Ok c
    /\ Adapter.convertData idle_host (arrays (Adapter.nodes c) (Adapter.links c)) = Ok c'
    /\ Adapter.nodes c' = Adapter.nodes c.
Proof.
  destruct convertData_sample_Ok as (c & Hc).
  destruct (convertData_idempotent idle_host
              [sample_bus1; sample_bus2] [sample_link12] c Hc) as (c' & Hc' & Hn & _).
  exists c, c'. split; [exact Hc |]. split; [exact Hc' | exact Hn].
Defined.

Lemma normalizeNodes_sample_Ok :
  exists ns', Adapter.normalizeNodes idle_host [dead_bus] "case9" = Ok ns'
              /\ exists n', n' ∈ ns'.
Proof.
  assert (H : forall r : result (list obj),
             match r with Ok [_] => true | _ => false end = true ->
             exists n' : obj, r = Ok [n']).
  { intros [[| n' [| ? ?]] | e] Hr; try discriminate Hr. by exists n'. }
  destruct (H (Adapter.normalizeNodes idle_host [dead_bus] "case9")) as (n' & Hn).
  { vm_compute. reflexivity. }
  exists [n']. split; [exact Hn |]. exists n'. apply list_elem_of_here.
Qed.

Lemma normalizeNodes_fields_present_witness :
  exists ns' n', Adapter.normalizeNodes idle_host [dead_bus] "case9" = Ok ns'
    /\ n' ∈ ns' /\ truthy (get n' "voltage") = true.
Proof.
  destruct normalizeNodes_sample_Ok as (ns' & Hn & n' & Hin).
  exists ns', n'. split; [exact Hn |]. split; [exact Hin |].
  destruct (normalizeNodes_fields_present idle_host [dead_bus] ns' "case9" Hn n' Hin)
    as (_ & _ & Hv & _).
  exact Hv.
Defined.

Section CoordinateFacts.
Import Adapter.
Context (h : Host).

(** X7. An id that holds no number after "bus" is removed (it is empty
    there or goes on with a letter) is given slot 1 of the circle: all such
    nodes of a network are put on one and the same point. *)
Theorem unnumbered_ids_share_slot_one (s : string) (total : nat)
    (centerX centerY radius : float) :
  no_leading_number (remove_first "bus" s) = true ->
  generateCircularLayoutForNode h (VStr s) total centerX centerY radius
  = Ok (circle_point h 1 (Z2F (Z.of_nat total)) centerX centerY radius).
Proof.
  intros Hl. unfold generateCircularLayoutForNode.
  assert (Hp : ToNumber h (VNum (parseInt (remove_first "bus" s)) ||| VNum 1) = 1%float);
    [| by rewrite Hp].
  destruct (remove_first "bus" s) as [| c rest]; [reflexivity |].
  simpl in Hl.
  destruct c as [[] [] [] [] [] [] [] []]; vm_compute in Hl; try discriminate Hl;
    vm_compute; reflexivity.
Qed.

Lemma case30_table :
  predefinedLayouts h !! "case30" = Some (generateCircularLayout h 30 400 300 80).
Proof. reflexivity. Qed.

Lemma case30_entries :
  map_Forall
    (fun k c => inherited k = false
                /\ generateCircularLayoutForNode h (VStr k) 30 400 300 80 = Ok c)
    (generateCircularLayout h 30 400 300 80).
Proof.
  apply map_Forall_to_list.
  let l := eval vm_compute in (map_to_list (generateCircularLayout h 30 400 300 80)) in
  change (map_to_list (generateCircularLayout h 30 400 300 80)) with l.
  repeat (apply List.Forall_cons; [split; vm_compute; reflexivity |]).
  apply List.Forall_nil.
Qed.

(** X6. For a network of 30 nodes the case30 table adds nothing to the
    circular fallback. For a string id that names a member of
    [Object.prototype], generateNodeCoordinates returns that member, which
    is no point; for every other string id it returns the point the
    circular fallback for 30 nodes gives. *)
Theorem case30_table_is_the_fallback (s : string) :
  generateNodeCoordinates h (VStr s) "case30" 30
  = if inherited s then Ok NotAPoint
    else rmap Point (generateCircularLayoutForNode h (VStr s) 30 400 300 80).
Proof.
  unfold generateNodeCoordinates, layout_entry.
  unfold lookup_member at 1. rewrite case30_table. cbv iota.
  change (ToString h (VStr s)) with s. unfold lookup_member.
  destruct (generateCircularLayout h 30 400 300 80 !! s) as [c |] eqn:Hs.
  - destruct (case30_entries s c Hs) as [-> ->]. reflexivity.
  - destruct (inherited s); reflexivity.
Qed.

End CoordinateFacts.

Lemma unnumbered_ids_share_slot_one_witness :
  Adapter.generateCircularLayoutForNode idle_host (VStr "north") 40 400 300 80
  = Adapter.generateCircularLayoutForNode idle_host (VStr "busA") 40 400 300 80.
Proof.
  rewrite (unnumbered_ids_share_slot_one idle_host "north" 40 400 300 80 eq_refl).
  rewrite (unnumbered_ids_share_slot_one idle_host "busA" 40 400 300 80 eq_refl).
  reflexivity.
Defined.

(** * Further properties of the visualization *)

Section RedrawFacts.
Import Viz.

Lemma fold_insert_fixed {A} `{Inhabited A} (g : A -> A) (ls : list nat) (h : list A) :
  (forall ll, ll ∈ ls -> g (h !!! ll) = h !!! ll) ->
  foldl (fun h ll => <[ ll := g (h !!! ll) ]> h) h ls = h.
Proof.
  induction ls as [| a ls IH]; intros Hfix; simpl; [reflexivity |].
  assert (Ha : <[ a := g (h !!! a) ]> h = h).
  { rewrite Hfix by apply list_elem_of_here.
    destruct (decide (a < length h)) as [Hlt | Hge].
    - apply list_insert_id. by apply list_lookup_lookup_total_lt.
    - apply list_insert_ge. lia. }
  rewrite Ha. apply IH. intros ll Hll. apply Hfix. by apply list_elem_of_further.
Qed.

Lemma resolve_references_idem (st : state) :
  resolve_references (resolve_references st) = resolve_references st.
Proof.
  unfold resolve_references at 1.
  change (links (resolve_references st)) with (links st).
  change (resolve_link (resolve_references st)) with (resolve_link st).
  rewrite fold_insert_fixed.
  - unfold resolve_references. reflexivity.
  - intros ll Hll.
    change (link_heap (resolve_references st) !!! ll) with (link_at (resolve_references st) ll).
    rewrite link_at_resolve_references, bool_decide_eq_true_2 by exact Hll.
    apply resolve_link_idem.
Qed.

(** X8. A redraw that follows a redraw changes nothing: the store is the
    one the first redraw left, and the second redraw ends as the first did,
    normally or with the same TypeError. *)
Theorem updateVisualization_idempotent (st : state) :
  updateVisualization (exec updateVisualization st)
  = (outcome updateVisualization st, exec updateVisualization st).
Proof.
  unfold exec, outcome. rewrite !updateVisualization_run. simpl.
  by rewrite resolve_references_idem.
Qed.

End RedrawFacts.
Section ConsistencyFacts.
Import Viz.
Local Open Scope list_scope.

Lemma endpoint_in_spec (st : state) (e : endpoint) :
  endpoint_in st e = true <-> exists l, e = ERef l /\ l ∈ nodes st.
Proof.
  destruct e as [| s | l]; simpl.
  - split; [discriminate | by intros (? & ? & _)].
  - split; [discriminate | by intros (? & ? & _)].
  - rewrite bool_decide_eq_true. split; [by exists l | by intros (? & [= ->] & ?)].
Qed.

Lemma nonempty_spec (s : string) : nonempty s = true <-> s <> "".
Proof.
  unfold nonempty. rewrite negb_true_iff. apply String.eqb_neq.
Qed.

Lemma consistent_spec (st : state) :
  consistent st = true <->
  (forall ll, ll ∈ links st ->
     endpoint_in st (link_source (link_at st ll)) = true
     /\ endpoint_in st (link_target (link_at st ll)) = true)
  /\ (forall n, n ∈ nodes st -> id_of st n <> "")
  /\ (forall a, selectedLinkSource st = Some a -> a ∈ nodes st)
  /\ (forall l, selectedLink st = Some l ->
        is_ref (link_source (link_at st l)) = true
        /\ is_ref (link_target (link_at st l)) = true).
Proof.
  unfold consistent. rewrite !andb_true_iff, !forallb_forall.
  split.
  - intros [[[Hl Hn] Hs] Hk]. repeat split.
    + apply list_elem_of_In, Hl in H. by apply andb_true_iff in H as [? _].
    + apply list_elem_of_In, Hl in H. by apply andb_true_iff in H as [_ ?].
    + intros n Hin. apply nonempty_spec, Hn, list_elem_of_In, Hin.
    + intros a Ha. rewrite Ha in Hs. simpl in Hs. by apply bool_decide_eq_true in Hs.
    + rewrite H in Hk. simpl in Hk. by apply andb_true_iff in Hk as [? _].
    + rewrite H in Hk. simpl in Hk. by apply andb_true_iff in Hk as [_ ?].
  - intros (Hl & Hn & Hs & Hk). repeat split.
    + intros ll Hin. apply list_elem_of_In, Hl in Hin as [H1 H2]. by rewrite H1, H2.
    + intros n Hin. apply nonempty_spec, Hn, list_elem_of_In, Hin.
    + destruct (selectedLinkSource st) as [a |]; simpl; [| done].
      apply bool_decide_eq_true. by apply Hs.
    + destruct (selectedLink st) as [l |]; simpl; [| done].
      destruct (Hk l eq_refl) as [H1 H2]. by rewrite H1, H2.
Qed.

Lemma endpoint_in_ref (st : state) (e : endpoint) :
  endpoint_in st e = true -> is_ref e = true.
Proof. by destruct e. Qed.

Lemma endpoint_in_resolvable (st : state) (e : endpoint) :
  endpoint_in st e = true -> resolvable st e = true.
Proof. by destruct e. Qed.

Lemma consistent_links_resolved (st : state) :
  consistent st = true -> links_resolved st = true.
Proof.
  intros (Hl & _)%consistent_spec. unfold links_resolved. apply forallb_forall.
  intros ll Hin. apply list_elem_of_In, Hl in Hin as [H1 H2].
  by rewrite (endpoint_in_ref _ _ H1), (endpoint_in_ref _ _ H2).
Qed.

(** What the redraw makes of an endpoint it can resolve. *)
Lemma resolve_endpoint_in (st : state) (e : endpoint) :
  (forall n, n ∈ nodes st -> id_of st n <> "") ->
  resolvable st e = true -> endpoint_in st (resolve_endpoint st e) = true.
Proof.
  intros Hn. destruct e as [| s | l]; simpl; [discriminate | |].
  - intros Hs%bool_decide_eq_true. unfold node_ids in Hs.
    apply list_elem_of_In, in_map_iff in Hs as (n & Hid & Hin%list_elem_of_In).
    destruct (find_node_is_Some st s n Hin Hid) as [m Hm]. rewrite Hm. simpl.
    apply bool_decide_eq_true. by apply (find_node_Some _ _ _ Hm).
  - intros Hl%bool_decide_eq_true.
    rewrite (proj2 (nonempty_spec _) (Hn l Hl)).
    destruct (find_node_is_Some st (id_of st l) l Hl eq_refl) as [m Hm]. rewrite Hm.
    destruct (negb (m =? l)%nat); simpl; apply bool_decide_eq_true; [| done].
    by apply (find_node_Some _ _ _ Hm).
Qed.

(** The redraw of a store whose links can all be resolved. *)
Lemma redraw_consistent (st : state) :
  (forall ll, ll ∈ links st ->
     resolvable st (link_source (link_at st ll)) = true
     /\ resolvable st (link_target (link_at st ll)) = true) ->
  (forall n, n ∈ nodes st -> id_of st n <> "") ->
  (forall a, selectedLinkSource st = Some a -> a ∈ nodes st) ->
  (forall l, selectedLink st = Some l ->
     is_ref (link_source (link_at st l)) = true
     /\ is_ref (link_target (link_at st l)) = true) ->
  updateVisualization st = (Ok tt, resolve_references st)
  /\ consistent (resolve_references st) = true.
Proof.
  intros Hl Hn Hs Hk.
  assert (Hc : consistent (resolve_references st) = true).
  { apply consistent_spec. repeat split.
    - rewrite link_at_resolve_references, bool_decide_eq_true_2 by exact H.
      apply (resolve_endpoint_in st _ Hn), Hl, H.
    - rewrite link_at_resolve_references, bool_decide_eq_true_2 by exact H.
      apply (resolve_endpoint_in st _ Hn), Hl, H.
    - exact Hn.
    - exact Hs.
    - rewrite link_at_resolve_references. destruct (Hk l H) as [H1 _].
      case_bool_decide; [| done]. by apply resolve_endpoint_ref.
    - rewrite link_at_resolve_references. destruct (Hk l H) as [_ H2].
      case_bool_decide; [| done]. by apply resolve_endpoint_ref. }
  split; [| exact Hc].
  rewrite updateVisualization_run.
  by rewrite (links_resolved_renderable _ (consistent_links_resolved _ Hc)).
Qed.

Lemma redraw_of_consistent (st : state) :
  consistent st = true ->
  updateVisualization st = (Ok tt, resolve_references st)
  /\ consistent (resolve_references st) = true.
Proof.
  intros (Hl & Hn & Hs & Hk)%consistent_spec. apply redraw_consistent; auto.
  intros ll Hin. destruct (Hl ll Hin) as [H1 H2].
  split; by apply endpoint_in_resolvable.
Qed.

End ConsistencyFacts.

Section SimpleFacts.
Import Viz.
Local Open Scope list_scope.

Lemma simple_pairs_snoc (ps : list (string * string)) (p : string * string) :
  simple_pairs ps = true -> p.1 <> p.2 ->
  (forall q, q ∈ ps -> same_ends q p = false) ->
  simple_pairs (ps ++ [p]) = true.
Proof.
  intros Hps Hp Hq. induction ps as [| q ps IH]; simpl.
  - by rewrite (proj2 (String.eqb_neq _ _) Hp).
  - simpl in Hps. apply andb_true_iff in Hps as [[Hq1 Hq2]%andb_true_iff Hps].
    rewrite Hq1, forallb_app, Hq2. simpl.
    rewrite (Hq q) by apply list_elem_of_here. simpl.
    apply IH; [exact Hps |]. intros r Hr. apply Hq. by apply list_elem_of_further.
Qed.

Lemma simple_pairs_filter {A} (f : A -> string * string) (keep : A -> bool) (l : list A) :
  simple_pairs (map f l) = true -> simple_pairs (map f (List.filter keep l)) = true.
Proof.
  induction l as [| a l IH]; simpl; [done |].
  intros [[Ha1 Ha2]%andb_true_iff Hl]%andb_true_iff.
  destruct (keep a); simpl; [| by apply IH].
  rewrite Ha1, (IH Hl), andb_true_r. simpl.
  apply forallb_forall. intros q Hq. rewrite forallb_forall in Ha2. apply Ha2.
  apply in_map_iff in Hq as (b & <- & Hb). apply filter_In in Hb as [Hb _].
  by apply in_map.
Qed.

Lemma simple_same_pairs (st st' : state) :
  links st' = links st ->
  (forall ll, ll ∈ links st -> link_ids st' ll = link_ids st ll) ->
  simple st' = simple st.
Proof.
  intros Hl Hids. unfold simple. rewrite Hl. f_equal.
  apply map_ext_in. intros ll Hin. by apply Hids, list_elem_of_In.
Qed.

(** The redraw replaces an endpoint by one that stands for the same id. *)
Lemma resolve_endpoint_end_id (st : state) (e : endpoint) :
  (forall n, n ∈ nodes st -> id_of st n <> "") ->
  resolvable st e = true -> end_id st (resolve_endpoint st e) = end_id st e.
Proof.
  intros Hn. destruct e as [| s | l]; simpl; [discriminate | |].
  - intros Hs%bool_decide_eq_true. unfold node_ids in Hs.
    apply list_elem_of_In, in_map_iff in Hs as (n & Hid & Hin%list_elem_of_In).
    destruct (find_node_is_Some st s n Hin Hid) as [m Hm]. rewrite Hm. simpl.
    by apply (find_node_Some _ _ _ Hm).
  - intros Hl%bool_decide_eq_true.
    rewrite (proj2 (nonempty_spec _) (Hn l Hl)).
    destruct (find_node_is_Some st (id_of st l) l Hl eq_refl) as [m Hm]. rewrite Hm.
    destruct (negb (m =? l)%nat); simpl; [| done].
    by apply (find_node_Some _ _ _ Hm).
Qed.

Lemma redraw_link_ids (st : state) (ll : loc) :
  (forall n, n ∈ nodes st -> id_of st n <> "") ->
  ll ∈ links st ->
  resolvable st (link_source (link_at st ll)) = true ->
  resolvable st (link_target (link_at st ll)) = true ->
  link_ids (resolve_references st) ll = link_ids st ll.
Proof.
  intros Hn Hin H1 H2. unfold link_ids.
  rewrite link_at_resolve_references, bool_decide_eq_true_2 by exact Hin. simpl.
  change (end_id (resolve_references st)) with (end_id st).
  by rewrite !resolve_endpoint_end_id.
Qed.

(** The redraw of a store whose links can all be resolved keeps the pairs
    of ids the links join. *)
Lemma redraw_simple (st : state) :
  (forall ll, ll ∈ links st ->
     resolvable st (link_source (link_at st ll)) = true
     /\ resolvable st (link_target (link_at st ll)) = true) ->
  (forall n, n ∈ nodes st -> id_of st n <> "") ->
  simple (resolve_references st) = simple st.
Proof.
  intros Hl Hn. apply simple_same_pairs; [reflexivity |].
  intros ll Hin. destruct (Hl ll Hin) as [H1 H2]. by apply redraw_link_ids.
Qed.

Lemma redraw_simple_consistent (st : state) :
  consistent st = true -> simple (resolve_references st) = simple st.
Proof.
  intros (Hl & Hn & _)%consistent_spec. apply redraw_simple; [| exact Hn].
  intros ll Hin. destruct (Hl ll Hin) as [H1 H2].
  split; by apply endpoint_in_resolvable.
Qed.

(** In a consistent store, the link joins the two ids exactly when its
    pair of ids does. *)
Lemma joins_same_ends (st : state) (a b : string) (ll : loc) :
  is_ref (link_source (link_at st ll)) = true ->
  is_ref (link_target (link_at st ll)) = true ->
  same_ends (link_ids st ll) (a, b) = joins st a b ll.
Proof.
  unfold same_ends, link_ids, joins.
  destruct (link_source (link_at st ll)), (link_target (link_at st ll)); try discriminate.
  reflexivity.
Qed.

End SimpleFacts.

Section StepFacts.
Import Viz.
Local Open Scope list_scope.

(** A node with an id is an object of the arena. *)
Lemma id_in_range (st : state) (n : loc) :
  id_of st n <> "" -> n < length (node_heap st).
Proof.
  intros Hid. destruct (decide (n < length (node_heap st))) as [| Hge]; [done |].
  exfalso. apply Hid. unfold id_of, node_at.
  by rewrite list_lookup_total_alt, lookup_ge_None_2 by lia.
Qed.

Lemma is_ref_in_range (st : state) (l : loc) :
  is_ref (link_source (link_at st l)) = true -> l < length (link_heap st).
Proof.
  intros Hs. destruct (decide (l < length (link_heap st))) as [| Hge]; [done |].
  unfold link_at in Hs.
  rewrite list_lookup_total_alt, lookup_ge_None_2 in Hs by lia. discriminate.
Qed.

(** The parts of the store consistency does not read. *)
Lemma consistent_same (st st' : state) :
  node_heap st' = node_heap st -> link_heap st' = link_heap st ->
  nodes st' = nodes st -> links st' = links st ->
  (forall a, selectedLinkSource st' = Some a -> a ∈ nodes st) ->
  (forall l, selectedLink st' = Some l ->
     is_ref (link_source (link_at st l)) = true
     /\ is_ref (link_target (link_at st l)) = true) ->
  consistent st = true -> consistent st' = true.
Proof.
  intros Hnh Hlh Hns Hls Hs' Hk' (Hl & Hn & _ & _)%consistent_spec.
  apply consistent_spec.
  unfold endpoint_in, link_at, id_of, node_at in *. rewrite Hnh, Hlh, Hns, Hls.
  repeat split; auto; by apply Hl || by apply Hk'.
Qed.

Lemma consistent_add_notification (n : level * message) (st : state) :
  consistent (add_notification n st) = consistent st.
Proof. reflexivity. Qed.

Lemma endpoint_key_ref (st : state) (e : endpoint) :
  is_ref e = true -> exists k, endpoint_key st e = Ok k.
Proof.
  destruct e as [| s | l]; simpl; try discriminate. intros _.
  destruct (nonempty (id_of st l)); by eexists.
Qed.

(** In a consistent store the key of an endpoint of a link is the id of
    its node. *)
Lemma endpoint_key_in (st : state) (e : endpoint) :
  (forall n, n ∈ nodes st -> id_of st n <> "") ->
  endpoint_in st e = true ->
  exists l, e = ERef l /\ l ∈ nodes st /\ endpoint_key st e = Ok (KStr (id_of st l)).
Proof.
  intros Hn (l & -> & Hl)%endpoint_in_spec. exists l. repeat split; [done |].
  simpl. by rewrite (proj2 (nonempty_spec _) (Hn l Hl)).
Qed.

(** *** addNode *)

Lemma id_prefix_nonempty (type : node_kind) (s : string) :
  (id_prefix type ++ s)%string <> "".
Proof. by destruct type. Qed.

Lemma new_node_id (type : node_kind) (count : nat) (v : viewport) :
  node_id (new_node type count v) = (id_prefix type ++ pretty (count + 1)%nat)%string.
Proof. by destruct type. Qed.

Lemma addNode_consistent (type : node_kind) (v : viewport) (st : state) :
  consistent st = true ->
  exists st', addNode type v st = (Ok tt, st')
              /\ consistent st' = true /\ simple st' = simple st.
Proof.
  intros (Hl & Hn & Hs & Hk)%consistent_spec.
  set (st1 := set_nodes (nodes st ++ [length (node_heap st)])
                (set_node_heap (node_heap st ++ [new_node type (length (nodes st)) v]) st)).
  assert (Hid : forall n, n ∈ nodes st -> id_of st1 n = id_of st n).
  { intros n Hin. unfold id_of, node_at, st1; simpl.
    by rewrite lookup_total_app_l by (apply id_in_range, Hn, Hin). }
  assert (Hl1 : forall ll, ll ∈ links st1 ->
            resolvable st1 (link_source (link_at st1 ll)) = true
            /\ resolvable st1 (link_target (link_at st1 ll)) = true).
  { intros ll Hin. destruct (Hl ll Hin) as [H1 H2].
    apply endpoint_in_spec in H1 as (s & Hs1 & Hs2).
    apply endpoint_in_spec in H2 as (t & Ht1 & Ht2).
    change (link_at st1 ll) with (link_at st ll). rewrite Hs1, Ht1. simpl.
    split; apply bool_decide_eq_true, elem_of_app; by left. }
  assert (Hn1 : forall n, n ∈ nodes st1 -> id_of st1 n <> "").
  { intros n [Hin | Hin%list_elem_of_singleton]%elem_of_app.
    + rewrite Hid by done. by apply Hn.
    + subst n. unfold id_of, node_at, st1; simpl.
      rewrite lookup_total_app_r, Nat.sub_diag by lia. simpl.
      rewrite new_node_id. apply id_prefix_nonempty. }
  destruct (redraw_consistent st1) as [Hrun Hc]; [exact Hl1 | exact Hn1 | | |].
  - intros a Ha. apply elem_of_app. left. by apply Hs.
  - intros l Hl'. by apply Hk.
  - eexists. split; [| split; [rewrite consistent_add_notification; exact Hc |]].
    + unfold addNode, bind, gets, alloc_node, modify, showNotification. simpl.
      change (updateVisualization _) with (updateVisualization st1).
      rewrite Hrun. reflexivity.
    + change (simple (resolve_references st1) = simple st).
      rewrite (redraw_simple st1 Hl1 Hn1).
      apply simple_same_pairs; [reflexivity |].
      intros ll Hin. destruct (Hl ll Hin) as [H1 H2].
      apply endpoint_in_spec in H1 as (s & Hs1 & Hs2).
      apply endpoint_in_spec in H2 as (t & Ht1 & Ht2).
      unfold link_ids. change (link_at st1 ll) with (link_at st ll).
      rewrite Hs1, Ht1. simpl. by rewrite !Hid.
Qed.

End StepFacts.

Section StepFacts2.
Import Viz.
Local Open Scope list_scope.

(** *** deleteNode *)

Lemma not_incident_consistent (st : state) (nodeId : string) (ll : loc) :
  consistent st = true -> ll ∈ links st ->
  not_incident st nodeId ll = Ok (negb (incident st nodeId ll)).
Proof.
  intros (Hl & Hn & _)%consistent_spec Hin. destruct (Hl ll Hin) as [H1 H2].
  destruct (endpoint_key_in st _ Hn H1) as (s & Hs & _ & Hks).
  destruct (endpoint_key_in st _ Hn H2) as (t & Ht & _ & Hkt).
  unfold not_incident, incident. rewrite Hks; simpl. rewrite Hkt; simpl.
  rewrite Hs, Ht. simpl. by rewrite negb_orb.
Qed.

(** The redraw after the two filters of deleteNode. *)
Lemma deleteNode_redraw (nodeId : string) (st st2 : state) :
  consistent st = true -> allowed st (Edit (DeleteNode nodeId)) = true ->
  nodes st2 = List.filter (fun n => negb (String.eqb (id_of st n) nodeId)) (nodes st) ->
  links st2 = List.filter (fun ll => negb (incident st nodeId ll)) (links st) ->
  node_heap st2 = node_heap st -> link_heap st2 = link_heap st ->
  selectedLinkSource st2 = selectedLinkSource st -> selectedLink st2 = selectedLink st ->
  updateVisualization st2 = (Ok tt, resolve_references st2)
  /\ consistent (resolve_references st2) = true
  /\ (simple st = true -> simple (resolve_references st2) = true).
Proof.
  intros (Hl & Hn & Hs & Hk)%consistent_spec Ha Hns Hls Hnh Hlh Hss Hsl.
  assert (Hkeep : forall n, n ∈ nodes st -> id_of st n <> nodeId -> n ∈ nodes st2).
  { intros n Hin Hne. rewrite Hns. apply list_elem_of_In, filter_In.
    split; [by apply list_elem_of_In |]. by apply negb_true_iff, String.eqb_neq. }
  assert (Hsub : forall n, n ∈ nodes st2 -> n ∈ nodes st).
  { intros n Hin. rewrite Hns in Hin. apply list_elem_of_In, filter_In in Hin as [Hin _].
    by apply list_elem_of_In. }
  assert (Hat : forall ll, link_at st2 ll = link_at st ll).
  { intros ll. unfold link_at. by rewrite Hlh. }
  assert (Hid : forall n, id_of st2 n = id_of st n).
  { intros n. unfold id_of, node_at. by rewrite Hnh. }
  assert (Hl2 : forall ll, ll ∈ links st2 ->
            resolvable st2 (link_source (link_at st2 ll)) = true
            /\ resolvable st2 (link_target (link_at st2 ll)) = true).
  { intros ll Hin. rewrite Hls in Hin. apply list_elem_of_In, filter_In in Hin as [Hin Hinc].
    apply list_elem_of_In in Hin. destruct (Hl ll Hin) as [H1 H2].
    apply endpoint_in_spec in H1 as (s & Hs1 & Hs2).
    apply endpoint_in_spec in H2 as (t & Ht1 & Ht2).
    apply negb_true_iff in Hinc. unfold incident in Hinc.
    rewrite Hs1, Ht1 in Hinc. simpl in Hinc.
    apply orb_false_iff in Hinc as [Hi1 Hi2].
    rewrite Hat, Hs1, Ht1. simpl.
    split; apply bool_decide_eq_true, Hkeep; auto; by apply String.eqb_neq. }
  assert (Hn2 : forall n, n ∈ nodes st2 -> id_of st2 n <> "").
  { intros n Hin. rewrite Hid. apply Hn, Hsub, Hin. }
  destruct (redraw_consistent st2) as [Hrun Hc2]; [exact Hl2 | exact Hn2 | | |].
  - intros a Hsa. rewrite Hss in Hsa.
    simpl in Ha. rewrite Hsa in Ha. simpl in Ha.
    apply Hkeep; [by apply Hs |]. by apply String.eqb_neq, negb_true_iff.
  - intros l Hsl'. rewrite Hat. apply Hk. by rewrite <- Hsl.
  - split; [exact Hrun |]. split; [exact Hc2 |].
    intros Hsimple. rewrite (redraw_simple st2 Hl2 Hn2).
    unfold simple. rewrite Hls.
    rewrite (map_ext (link_ids st2) (link_ids st)).
    + by apply simple_pairs_filter.
    + intros ll. unfold link_ids. rewrite Hat.
      destruct (link_source (link_at st ll)), (link_target (link_at st ll)); simpl;
        by rewrite ?Hid.
Qed.

Lemma deleteNode_consistent (nodeId : string) (st : state) :
  consistent st = true -> allowed st (Edit (DeleteNode nodeId)) = true ->
  exists st', deleteNode nodeId true st = (Ok tt, st')
              /\ consistent st' = true /\ (simple st = true -> simple st' = true).
Proof.
  intros Hc Ha.
  unfold deleteNode, bind, lift_read, modify, gets, showNotification; simpl.
  rewrite (filter_result_pure _ (fun ll => negb (incident st nodeId ll)))
    by (intros; by apply not_incident_consistent).
  simpl. destruct (sel_is (selectedNode st) nodeId); simpl.
  - match goal with |- context [updateVisualization ?s] =>
      destruct (deleteNode_redraw nodeId st s Hc Ha) as (Hrun & Hc2 & Hs2); try reflexivity;
      rewrite Hrun end.
    eexists. split; [reflexivity |]. split; [by rewrite consistent_add_notification |].
    exact Hs2.
  - match goal with |- context [updateVisualization ?s] =>
      destruct (deleteNode_redraw nodeId st s Hc Ha) as (Hrun & Hc2 & Hs2); try reflexivity;
      rewrite Hrun end.
    eexists. split; [reflexivity |]. split; [by rewrite consistent_add_notification |].
    exact Hs2.
Qed.

(** *** Link-creation mode and clicks *)

Lemma startLinkCreation_consistent (st : state) :
  consistent st = true ->
  exists st', startLinkCreation st = (Ok tt, st')
              /\ consistent st' = true /\ simple st' = simple st.
Proof.
  intros Hc. pose proof Hc as (_ & _ & _ & Hk)%consistent_spec.
  eexists. split; [reflexivity |]. split; [| reflexivity].
  apply (consistent_same st); try reflexivity; [discriminate | exact Hk | exact Hc].
Qed.

Lemma cancelLinkCreation_consistent (st : state) :
  consistent st = true ->
  exists st', cancelLinkCreation st = (Ok tt, st')
              /\ consistent st' = true /\ simple st' = simple st.
Proof.
  intros Hc. pose proof Hc as (_ & _ & _ & Hk)%consistent_spec.
  eexists. split; [reflexivity |]. split; [| reflexivity].
  apply (consistent_same st); try reflexivity; [discriminate | exact Hk | exact Hc].
Qed.

Lemma handleLinkClick_consistent (d : loc) (st : state) :
  consistent st = true -> d ∈ links st ->
  exists st', handleLinkClick d st = (Ok tt, st')
              /\ consistent st' = true /\ simple st' = simple st.
Proof.
  intros Hc Hd. pose proof Hc as (Hl & Hn & Hs & Hk)%consistent_spec.
  destruct (Hl d Hd) as [H1 H2].
  destruct (endpoint_key_in st _ Hn H1) as (s & Hs1 & _ & Hks).
  destruct (endpoint_key_in st _ Hn H2) as (t & Ht1 & _ & Hkt).
  unfold handleLinkClick, displayLinkInfo, bind, modify, lift_read; simpl.
  change (link_at (set_selectedNode None (set_selectedLink (Some d) st))) with (link_at st).
  change (endpoint_key (set_selectedNode None (set_selectedLink (Some d) st)))
    with (endpoint_key st).
  rewrite Hks, Hkt.
  eexists. split; [reflexivity |]. split; [| reflexivity].
  apply (consistent_same st); try reflexivity; [exact Hs | | exact Hc].
  intros l [= <-]. split; by eapply endpoint_in_ref.
Qed.

Lemma joins_node_ids (st : state) (n : loc) :
  n ∈ nodes st -> id_of st n ∈ node_ids st.
Proof.
  intros Hin. unfold node_ids. by apply list_elem_of_In, in_map, list_elem_of_In.
Qed.

Lemma handleNodeClickForLinkCreation_first (st : state) (d : loc) :
  linkCreationMode st = true -> selectedLinkSource st = None ->
  handleNodeClickForLinkCreation d st
  = (Ok tt, add_notification (info, MsgSourceChosen (id_of st d))
              (set_selectedLinkSource (Some d) st)).
Proof.
  intros Hm Hs.
  unfold handleNodeClickForLinkCreation, bind at 1, gets at 1. simpl.
  rewrite Hm; simpl. unfold bind at 1, gets at 1; simpl. rewrite Hs.
  reflexivity.
Qed.

Lemma handleNodeClick_consistent (d : loc) (st : state) :
  consistent st = true -> d ∈ nodes st ->
  exists st', handleNodeClick d st = (Ok tt, st')
              /\ consistent st' = true /\ (simple st = true -> simple st' = true).
Proof.
  intros Hc Hd. pose proof Hc as (Hl & Hn & Hs & Hk)%consistent_spec.
  destruct (linkCreationMode st) eqn:Hm.
  - (* link-creation mode *)
    unfold handleNodeClick, bind at 1, gets at 1. simpl. rewrite Hm.
    destruct (selectedLinkSource st) as [a |] eqn:Hsrc.
    + rewrite (handleNodeClickForLinkCreation_run st a d Hm Hsrc).
      destruct (String.eqb (id_of st a) (id_of st d)) eqn:Hself.
      { eexists. split; [reflexivity |]. split; [| done].
        by rewrite consistent_add_notification. }
      pose proof (Hs a eq_refl) as Ha.
      rewrite (find_result_pure _ (joins st (id_of st a) (id_of st d)))
        by (intros; apply connects_pure; auto using consistent_links_resolved).
      destruct (find _ (links st)) as [x |] eqn:Hf.
      { eexists. split; [reflexivity |]. split; [| done].
        by rewrite consistent_add_notification. }
      set (st1 := pushed (id_of st a) (id_of st d) st).
      assert (Hold : forall ll, ll ∈ links st -> link_at st1 ll = link_at st ll).
      { intros ll Hin. destruct (Hl ll Hin) as [H1 _].
        unfold link_at, st1, pushed; simpl. rewrite lookup_total_app_l; [done |].
        eapply is_ref_in_range, endpoint_in_ref, H1. }
      assert (Hnew : link_at st1 (length (link_heap st))
                     = default_link (id_of st a) (id_of st d)).
      { unfold link_at, st1, pushed; simpl.
        by rewrite lookup_total_app_r, Nat.sub_diag by lia. }
      assert (Hl1 : forall ll, ll ∈ links st1 ->
                resolvable st1 (link_source (link_at st1 ll)) = true
                /\ resolvable st1 (link_target (link_at st1 ll)) = true).
      { intros ll [Hin | Hin%list_elem_of_singleton]%elem_of_app.
        - destruct (Hl ll Hin) as [H1 H2]. rewrite (Hold ll Hin).
          split; by apply endpoint_in_resolvable.
        - subst ll. rewrite Hnew. simpl. change (node_ids st1) with (node_ids st).
          split; apply bool_decide_eq_true; by apply joins_node_ids. }
      assert (Hn1 : forall n, n ∈ nodes st1 -> id_of st1 n <> "").
      { intros n Hin. exact (Hn n Hin). }
      destruct (redraw_consistent st1) as [Hrun Hc1]; [exact Hl1 | exact Hn1 | | |].
      * intros a' Ha'. change (selectedLinkSource st1) with (selectedLinkSource st) in Ha'.
        rewrite Hsrc in Ha'. exact (Hs a' Ha').
      * intros l Hsl. destruct (Hk l Hsl) as [H1 H2].
        replace (link_at st1 l) with (link_at st l); [done |].
        unfold link_at, st1, pushed; simpl. rewrite lookup_total_app_l; [done |].
        by eapply is_ref_in_range.
      * unfold bind. rewrite addLink_run. cbv zeta. fold st1.
        rewrite updateVisualization_run in Hrun.
        destruct (renderable (resolve_references st1)); [| discriminate].
        eexists. split; [reflexivity |]. split.
        -- apply (consistent_same (resolve_references st1)); try reflexivity;
             [discriminate | | exact Hc1].
           by apply consistent_spec in Hc1 as (_ & _ & _ & ?).
        -- intros Hsimple.
           change (simple (resolve_references st1) = true).
           rewrite (redraw_simple st1 Hl1 Hn1).
           unfold simple. change (links st1) with (links st ++ [length (link_heap st)]).
           rewrite map_app. simpl.
           rewrite (map_ext_in (link_ids st1) (link_ids st)).
           2:{ intros ll Hin%list_elem_of_In. unfold link_ids. by rewrite (Hold ll Hin). }
           unfold link_ids at 2. rewrite Hnew. simpl.
           apply simple_pairs_snoc; [exact Hsimple | simpl; by apply String.eqb_neq |].
           intros q Hq. apply list_elem_of_In, in_map_iff in Hq as (ll & <- & Hin).
           apply list_elem_of_In in Hin as Hin'. destruct (Hl ll Hin') as [H1 H2].
           rewrite joins_same_ends by by eapply endpoint_in_ref.
           apply find_existsb in Hf. rewrite <- not_true_iff_false in Hf.
           rewrite <- not_true_iff_false. intros Hj. apply Hf.
           apply existsb_exists. by exists ll.
    + rewrite (handleNodeClickForLinkCreation_first st d Hm Hsrc).
      eexists. split; [reflexivity |]. split; [| done].
      apply (consistent_same st); try reflexivity; [by intros ? [= <-] | exact Hk | exact Hc].
  - (* selection *)
    unfold handleNodeClick, clearNodeInfo, bind, gets, modify; simpl. rewrite Hm.
    destruct (sel_is (selectedNode st) (id_of st d)); simpl.
    + eexists. split; [reflexivity |]. split; [| done].
      apply (consistent_same st); try reflexivity; [exact Hs | discriminate | exact Hc].
    + destruct (nonempty (id_of st d)); simpl.
      * eexists. split; [reflexivity |]. split; [| done].
        apply (consistent_same st); try reflexivity; [exact Hs | discriminate | exact Hc].
      * eexists. split; [reflexivity |]. split; [| done].
        apply (consistent_same st); try reflexivity; [exact Hs | discriminate | exact Hc].
Qed.

End StepFacts2.

Section PageFacts.
Import Viz.
Local Open Scope list_scope.

Lemma key_eq_refl (k : key) : key_eq k k = true.
Proof. destruct k; simpl; [apply String.eqb_refl | apply Nat.eqb_refl]. Qed.

(** The filter callback of deleteSelectedLink on a drawn store. *)
Lemma other_pair_pure (st : state) (l ll : loc) (ks kt : key) :
  endpoint_key st (link_source (link_at st l)) = Ok ks ->
  endpoint_key st (link_target (link_at st l)) = Ok kt ->
  links_resolved st = true -> ll ∈ links st ->
  other_pair st ks kt ll = Ok (negb (parallel st l ll)).
Proof.
  intros Hks Hkt Hr Hin. destruct (links_resolved_ref _ _ Hr Hin) as [H1 H2].
  destruct (endpoint_key_ref st _ H1) as [ks' Hks'].
  destruct (endpoint_key_ref st _ H2) as [kt' Hkt'].
  unfold other_pair, parallel. by rewrite Hks, Hkt, Hks', Hkt'.
Qed.

(** A redraw keeps a drawn store drawn. *)
Lemma redraw_resolved (st : state) :
  links_resolved st = true ->
  updateVisualization st = (Ok tt, resolve_references st)
  /\ links_resolved (resolve_references st) = true.
Proof.
  intros Hr.
  assert (Hr' : links_resolved (resolve_references st) = true).
  { unfold links_resolved. apply forallb_forall. intros ll Hin%list_elem_of_In.
    change (links (resolve_references st)) with (links st) in Hin.
    rewrite link_at_resolve_references, bool_decide_eq_true_2 by exact Hin.
    destruct (links_resolved_ref _ _ Hr Hin) as [H1 H2]. simpl.
    by rewrite !resolve_endpoint_ref. }
  split; [| exact Hr'].
  by rewrite updateVisualization_run, (links_resolved_renderable _ Hr').
Qed.

Lemma deleteSelectedLink_run (st : state) (sh : list toast) (l : loc) :
  selectedLink st = Some l -> links_resolved st = true ->
  is_ref (link_source (link_at st l)) = true ->
  is_ref (link_target (link_at st l)) = true ->
  exists ks kt,
    endpoint_key st (link_source (link_at st l)) = Ok ks
    /\ endpoint_key st (link_target (link_at st l)) = Ok kt
    /\ deleteSelectedLink false {| store := st; shown := sh |}
       = (Ok tt, {| store := st; shown := sh |})
    /\ deleteSelectedLink true {| store := st; shown := sh |}
       = (Ok tt,
          {| store :=
               set_selectedLink None (set_selectedNode None
                 (resolve_references
                    (set_selectedLink None
                       (set_links (List.filter (fun ll => negb (parallel st l ll)) (links st))
                                  st))));
             shown := sh ++ [LinkDeleted ks kt] |}).
Proof.
  intros Hsel Hr H1 H2.
  destruct (endpoint_key_ref st _ H1) as [ks Hks].
  destruct (endpoint_key_ref st _ H2) as [kt Hkt].
  exists ks, kt. split; [exact Hks |]. split; [exact Hkt |].
  split.
  - unfold deleteSelectedLink, pbind, lift, gets, lift_read, pret; simpl.
    rewrite Hsel. simpl. rewrite Hks. simpl. by rewrite Hkt.
  - unfold deleteSelectedLink, pbind, lift, gets, lift_read, modify, show, clearNodeInfo, bind;
      simpl.
    rewrite Hsel. simpl. rewrite Hks. simpl. rewrite Hkt. simpl.
    rewrite (filter_result_pure _ (fun ll => negb (parallel st l ll)))
      by (intros; by apply other_pair_pure).
    simpl.
    match goal with |- context [updateVisualization ?s] =>
      destruct (redraw_resolved s) as [Hrun _]; [| rewrite Hrun] end.
    + unfold links_resolved. apply forallb_forall. intros ll Hin%filter_In.
      destruct Hin as [Hin%list_elem_of_In _].
      destruct (links_resolved_ref _ _ Hr Hin) as [H3 H4].
      change (link_at (set_selectedLink None (set_links ?x st)) ll) with (link_at st ll).
      by rewrite H3, H4.
    + reflexivity.
Qed.

(** X9. In a drawn store, a confirmed deleteSelectedLink keeps, in order,
    exactly the links that do not have both the source key and the target
    key of the selected link: the selected link goes, and with it every
    link that joins the same two ids in the same direction, while a link
    in the opposite direction stays. The nodes are left alone, nothing is
    selected afterwards, and the store is still drawn. Declining the
    confirmation changes nothing. *)
Theorem deleteSelectedLink_removes_parallel_links (st : state) (sh : list toast) (l : loc) :
  selectedLink st = Some l -> links_resolved st = true ->
  is_ref (link_source (link_at st l)) = true ->
  is_ref (link_target (link_at st l)) = true ->
  let p := {| store := st; shown := sh |} in
  let p' := (deleteSelectedLink true p).2 in
  (deleteSelectedLink true p).1 = Ok tt
  /\ links (store p') = List.filter (fun ll => negb (parallel st l ll)) (links st)
  /\ (l ∉ links (store p'))
  /\ nodes (store p') = nodes st
  /\ selectedLink (store p') = None
  /\ selectedNode (store p') = None
  /\ links_resolved (store p') = true
  /\ deleteSelectedLink false p = (Ok tt, p).
Proof.
  intros Hsel Hr H1 H2. cbv zeta.
  destruct (deleteSelectedLink_run st sh l Hsel Hr H1 H2) as (ks & kt & Hks & Hkt & Hno & Hyes).
  rewrite Hyes, Hno. simpl.
  split; [reflexivity |]. split; [reflexivity |]. split.
  { intros Hin. apply list_elem_of_In, filter_In in Hin as [_ Hp].
    unfold parallel in Hp. rewrite Hks, Hkt, !key_eq_refl in Hp. discriminate. }
  split; [reflexivity |]. split; [reflexivity |]. split; [reflexivity |].
  split; [| reflexivity].
  match goal with |- links_resolved (set_selectedLink None (set_selectedNode None ?s)) = true =>
    change (links_resolved s = true) end.
  apply redraw_resolved.
  unfold links_resolved. apply forallb_forall. intros ll Hin%filter_In.
  destruct Hin as [Hin%list_elem_of_In _].
  destruct (links_resolved_ref _ _ Hr Hin) as [H3 H4].
  change (link_at (set_selectedLink None (set_links ?x st)) ll) with (link_at st ll).
  by rewrite H3, H4.
Qed.

End PageFacts.

Section SaveNodeFacts.
Import Viz.
Local Open Scope list_scope.

(** The assignments of saveNodeEdit leave every id as it is. *)
Lemma write_node_id (l : loc) (type : string) (v a p q : float) (st : state) (n : loc) :
  id_of (write_node l type v a p q st) n = id_of st n.
Proof.
  unfold id_of, node_at, write_node; simpl.
  destruct (decide (n = l)) as [-> | Hne].
  - destruct (decide (l < length (node_heap st))) as [Hlt | Hge].
    + by rewrite list_lookup_total_insert_eq.
    + by rewrite list_insert_ge by lia.
  - by rewrite list_lookup_total_insert_ne.
Qed.

Lemma write_node_node_ids (l : loc) (type : string) (v a p q : float) (st : state) :
  node_ids (write_node l type v a p q st) = node_ids st.
Proof.
  unfold node_ids. change (nodes (write_node l type v a p q st)) with (nodes st).
  apply map_ext. intros n. apply write_node_id.
Qed.

Lemma write_node_consistent (l : loc) (type : string) (v a p q : float) (st : state) :
  consistent st = true -> consistent (write_node l type v a p q st) = true.
Proof.
  intros (Hl & Hn & Hs & Hk)%consistent_spec. apply consistent_spec.
  repeat split.
  - by apply (Hl ll).
  - by apply (Hl ll).
  - intros n Hin. rewrite write_node_id. by apply Hn.
  - exact Hs.
  - by apply (Hk l0).
  - by apply (Hk l0).
Qed.

(** What saveNodeEdit does, case by case. *)
Lemma saveNodeEdit_run (f : node_form) (st : state) (sh : list toast) :
  let p := {| store := st; shown := sh |} in
  let bad := PrimFloat.is_nan (f_voltage f) || PrimFloat.is_nan (f_angle f)
             || PrimFloat.is_nan (f_active_power f)
             || PrimFloat.is_nan (f_reactive_power f) in
  saveNodeEdit f p
  = if bad then (Ok tt, {| store := st; shown := sh ++ [InvalidNumbers] |})
    else match find_node st (f_id f) with
         | None => (Ok tt, p)
         | Some l =>
             let nodeType :=
               if nonempty (f_type f) then f_type f else node_type (node_at st l) in
             let negative :=
               (String.eqb nodeType "pv" || String.eqb nodeType "generator")
               && PrimFloat.ltb (f_active_power f) 0 in
             let activePower :=
               if negative then PrimFloat.abs (f_active_power f) else f_active_power f in
             let sh1 := if negative then sh ++ [PowerAdjusted nodeType activePower] else sh in
             let st1 := write_node l nodeType (f_voltage f) (f_angle f) activePower
                                   (f_reactive_power f) st in
             if renderable (resolve_references st1)
             then (Ok tt, {| store := resolve_references st1;
                             shown := sh1 ++ [NodeUpdated (f_id f)] |})
             else (Throw TypeError, {| store := resolve_references st1; shown := sh1 |})
         end.
Proof.
  cbv zeta. unfold saveNodeEdit.
  destruct (_ || _); [reflexivity |].
  unfold pbind at 1, lift at 1, gets at 1. simpl.
  destruct (find_node st (f_id f)) as [l |]; [| reflexivity].
  unfold pbind at 1, lift at 1, gets at 1. simpl.
  destruct (_ && _); simpl;
    unfold pbind, lift, modify, show, pret; simpl;
    rewrite updateVisualization_run;
    destruct (renderable (resolve_references _)); reflexivity.
Qed.

(** X10. saveNodeEdit never changes an id, nor which nodes and links the
    store holds: whatever the form carries and whether the redraw succeeds,
    the node ids, the node collection and the link collection are the
    ones from before. *)
Theorem saveNodeEdit_keeps_ids (f : node_form) (p : page) :
  let p' := (saveNodeEdit f p).2 in
  node_ids (store p') = node_ids (store p)
  /\ nodes (store p') = nodes (store p)
  /\ links (store p') = links (store p).
Proof.
  destruct p as [st sh]. cbv zeta. rewrite saveNodeEdit_run. cbv zeta.
  destruct (_ || _); [done |].
  destruct (find_node st (f_id f)) as [l |]; [| done].
  destruct (renderable _); simpl;
    (split; [| done]);
    match goal with |- node_ids (resolve_references ?s) = _ =>
      change (node_ids (resolve_references s)) with (node_ids s) end;
    apply write_node_node_ids.
Qed.

Lemma abs_not_negative (x : float) : PrimFloat.ltb (PrimFloat.abs x) 0 = false.
Proof.
  rewrite ltb_spec, abs_spec.
  destruct (Prim2SF x) as [s | s | | s m e]; reflexivity.
Qed.

(** X11. After saveNodeEdit has stored a form for a node that is then of
    type pv or generator, the active power of the node is not negative: a
    negative entry is stored as its absolute value. An entry that is not
    negative is stored as entered, for every type. The other numbers are
    stored as entered, the type is the one entered or, with none entered,
    the old one, and the id and the position are kept. *)
Theorem saveNodeEdit_generation_not_negative (f : node_form) (p : page) (l : loc) :
  PrimFloat.is_nan (f_voltage f) || PrimFloat.is_nan (f_angle f)
    || PrimFloat.is_nan (f_active_power f) || PrimFloat.is_nan (f_reactive_power f) = false ->
  find_node (store p) (f_id f) = Some l ->
  l < length (node_heap (store p)) ->
  let old := node_at (store p) l in
  let new := node_at (store (saveNodeEdit f p).2) l in
  node_type new = (if nonempty (f_type f) then f_type f else node_type old)
  /\ (node_type new = "pv" \/ node_type new = "generator" ->
      PrimFloat.ltb (node_active_power new) 0 = false)
  /\ (node_type new = "pv" \/ node_type new = "generator" ->
      PrimFloat.ltb (f_active_power f) 0 = true ->
      node_active_power new = PrimFloat.abs (f_active_power f))
  /\ (PrimFloat.ltb (f_active_power f) 0 = false ->
      node_active_power new = f_active_power f)
  /\ node_voltage new = f_voltage f
  /\ node_angle new = f_angle f
  /\ node_reactive_power new = f_reactive_power f
  /\ node_id new = node_id old /\ node_x new = node_x old /\ node_y new = node_y old.
Proof.
  destruct p as [st sh]. simpl. intros Hbad Hf Hlt.
  rewrite saveNodeEdit_run. cbv zeta. rewrite Hbad, Hf.
  set (nodeType := if nonempty (f_type f) then f_type f else node_type (node_at st l)).
  assert (Hnew : forall a,
    node_at (resolve_references
               (write_node l nodeType (f_voltage f) (f_angle f) a (f_reactive_power f) st)) l
    = {| node_id := node_id (node_at st l); node_type := nodeType;
         node_x := node_x (node_at st l); node_y := node_y (node_at st l);
         node_voltage := f_voltage f; node_angle := f_angle f;
         node_active_power := a; node_reactive_power := f_reactive_power f |}).
  { intros a. unfold node_at, write_node; simpl. by rewrite list_lookup_total_insert_eq. }
  destruct (renderable _); simpl; rewrite Hnew; simpl;
    (split; [reflexivity |]); (split; [| split; [| split; [| done]]]).
  - intros Ht. destruct (_ && _) eqn:Hneg; [apply abs_not_negative |].
    apply andb_false_iff in Hneg as [Hneg | Hneg]; [| exact Hneg].
    destruct Ht as [Ht | Ht]; rewrite Ht in Hneg; discriminate.
  - intros Ht Hlt0. rewrite Hlt0, andb_true_r.
    destruct Ht as [Ht | Ht]; rewrite Ht; reflexivity.
  - intros Hpos. by rewrite Hpos, andb_false_r.
  - intros Ht. destruct (_ && _) eqn:Hneg; [apply abs_not_negative |].
    apply andb_false_iff in Hneg as [Hneg | Hneg]; [| exact Hneg].
    destruct Ht as [Ht | Ht]; rewrite Ht in Hneg; discriminate.
  - intros Ht Hlt0. rewrite Hlt0, andb_true_r.
    destruct Ht as [Ht | Ht]; rewrite Ht; reflexivity.
  - intros Hpos. by rewrite Hpos, andb_false_r.
Qed.

End SaveNodeFacts.

Section SessionFacts.
Import Viz.
Local Open Scope list_scope.

Lemma deleteSelectedLink_consistent (confirmed : bool) (p : page) :
  consistent (store p) = true ->
  exists p', deleteSelectedLink confirmed p = (Ok tt, p')
             /\ consistent (store p') = true
             /\ (simple (store p) = true -> simple (store p') = true).
Proof.
  destruct p as [st sh]. simpl. intros Hc.
  pose proof Hc as (Hl & Hn & Hs & Hk)%consistent_spec.
  destruct (selectedLink st) as [l |] eqn:Hsel.
  - destruct (Hk l eq_refl) as [H1 H2].
    destruct (deleteSelectedLink_run st sh l Hsel (consistent_links_resolved _ Hc) H1 H2)
      as (ks & kt & _ & _ & Hno & Hyes).
    destruct confirmed.
    + rewrite Hyes. eexists. split; [reflexivity |]. simpl.
      set (st2 := set_selectedLink None (set_links _ st)).
      assert (Hl2 : forall ll, ll ∈ links st2 ->
                resolvable st2 (link_source (link_at st2 ll)) = true
                /\ resolvable st2 (link_target (link_at st2 ll)) = true).
      { intros ll Hin. apply list_elem_of_In, filter_In in Hin as [Hin _].
        apply list_elem_of_In in Hin. destruct (Hl ll Hin) as [H3 H4].
        split; by apply endpoint_in_resolvable. }
      assert (Hn2 : forall n, n ∈ nodes st2 -> id_of st2 n <> "").
      { intros n Hin. exact (Hn n Hin). }
      destruct (redraw_consistent st2) as [_ Hc2]; [exact Hl2 | exact Hn2 | | |].
      * intros a Ha. exact (Hs a Ha).
      * discriminate.
      * split.
        -- apply (consistent_same (resolve_references st2)); try reflexivity;
             [| discriminate | exact Hc2].
           by apply consistent_spec in Hc2 as (_ & _ & ? & _).
        -- intros Hsimple. change (simple (resolve_references st2) = true).
           rewrite (redraw_simple st2 Hl2 Hn2).
           by apply (simple_pairs_filter (link_ids st)).
    + rewrite Hno. by eexists.
  - unfold deleteSelectedLink, pbind, lift, gets, show; simpl. rewrite Hsel. simpl.
    by eexists.
Qed.

Lemma write_node_simple (l : loc) (type : string) (v a p q : float) (st : state) :
  simple (write_node l type v a p q st) = simple st.
Proof.
  apply simple_same_pairs; [reflexivity |]. intros ll _. unfold link_ids.
  change (link_at (write_node l type v a p q st) ll) with (link_at st ll).
  destruct (link_source (link_at st ll)), (link_target (link_at st ll)); simpl;
    by rewrite ?write_node_id.
Qed.

Lemma saveNodeEdit_consistent (f : node_form) (p : page) :
  consistent (store p) = true ->
  exists p', saveNodeEdit f p = (Ok tt, p')
             /\ consistent (store p') = true
             /\ simple (store p') = simple (store p).
Proof.
  destruct p as [st sh]. simpl. intros Hc.
  rewrite saveNodeEdit_run. cbv zeta.
  destruct (_ || _); [by eexists |].
  destruct (find_node st (f_id f)) as [l |]; [| by eexists].
  match goal with |- context [renderable (resolve_references ?s)] =>
    pose proof (write_node_consistent l _ _ _ _ _ st Hc : consistent s = true) as Hcw;
    destruct (redraw_of_consistent s Hcw) as [Hrun Hc1];
    rewrite updateVisualization_run in Hrun;
    destruct (renderable (resolve_references s)); [| discriminate]
  end.
  eexists. split; [reflexivity |]. split; [exact Hc1 |]. simpl.
  by rewrite (redraw_simple_consistent _ Hcw), write_node_simple.
Qed.

Lemma perform_consistent (g : gesture) (p : page) :
  consistent (store p) = true -> allowed (store p) g = true ->
  exists p', perform g p = (Ok tt, p')
             /\ consistent (store p') = true
             /\ (simple (store p) = true -> simple (store p') = true).
Proof.
  intros Hc Ha. destruct g as [[d | d] | [type v | nodeId] | | | confirmed | f];
    cbn [perform act handle].
  - apply bool_decide_eq_true in Ha.
    destruct (handleNodeClick_consistent d _ Hc Ha) as (st' & Hrun & Hc' & Hs').
    unfold lift. rewrite Hrun. by eexists.
  - apply bool_decide_eq_true in Ha.
    destruct (handleLinkClick_consistent d _ Hc Ha) as (st' & Hrun & Hc' & Hs').
    unfold lift. rewrite Hrun. eexists. split; [reflexivity |]. split; [done |].
    simpl. by rewrite Hs'.
  - destruct (addNode_consistent type v _ Hc) as (st' & Hrun & Hc' & Hs').
    unfold lift. rewrite Hrun. eexists. split; [reflexivity |]. split; [done |].
    simpl. by rewrite Hs'.
  - destruct (deleteNode_consistent nodeId _ Hc Ha) as (st' & Hrun & Hc' & Hs').
    unfold lift. rewrite Hrun. by eexists.
  - destruct (startLinkCreation_consistent _ Hc) as (st' & Hrun & Hc' & Hs').
    unfold lift. rewrite Hrun. eexists. split; [reflexivity |]. split; [done |].
    simpl. by rewrite Hs'.
  - destruct (cancelLinkCreation_consistent _ Hc) as (st' & Hrun & Hc' & Hs').
    unfold lift. rewrite Hrun. eexists. split; [reflexivity |]. split; [done |].
    simpl. by rewrite Hs'.
  - by apply deleteSelectedLink_consistent.
  - destruct (saveNodeEdit_consistent f p Hc) as (p' & Hrun & Hc' & Hs').
    exists p'. split; [done |]. split; [done |]. by rewrite Hs'.
Qed.


(** X16. The guards of the link-creation gesture hold over a session.
    From a consistent store whose links form a simple graph on the node
    ids (no link from an id to itself, no two links between the same two
    ids in either direction), every such session leaves a simple graph:
    the gestures never create a self-loop or a second link between two
    ids, although addLink itself would. *)
Theorem session_keeps_graph_simple (gs : list gesture) (p : page) :
  consistent (store p) = true -> simple (store p) = true ->
  allowed_all gs p = true ->
  simple (store (play gs p).2) = true.
Proof.
  revert p. induction gs as [| g gs IH]; intros p Hc Hs Ha; simpl.
  - exact Hs.
  - simpl in Ha. apply andb_true_iff in Ha as [Hg Hgs].
    destruct (perform_consistent g p Hc Hg) as (p' & Hrun & Hc' & Hs').
    rewrite Hrun in *. simpl in Hgs.
    specialize (IH p' Hc' (Hs' Hs) Hgs).
    destruct (play gs p') as [rs p2]. exact IH.
Qed.

End SessionFacts.

Section StaleSourceFacts.
Import Viz.
Local Open Scope list_scope.

(** X13. The source chosen for a new link is kept as a node object, and
    deleteNode does not look at it. When the node has been deleted in the
    meantime (no node of the store has its id any more), the click on the
    target still calls addLink: the new link is appended with an undefined
    source, the redraw throws a TypeError, and since cancelLinkCreation is
    not reached the mode stays on with the same source. The store is left
    with a link that no later redraw can draw. *)
Theorem stale_source_leaves_dangling_link (st : state) (a d : loc) :
  linkCreationMode st = true -> selectedLinkSource st = Some a ->
  links_resolved st = true ->
  id_of st a <> "" -> id_of st d <> "" -> id_of st d <> id_of st a ->
  find_node st (id_of st a) = None ->
  linked st (id_of st a) (id_of st d) = false ->
  let st' := exec (handleNodeClickForLinkCreation d) st in
  let newLink := length (link_heap st) in
  outcome (handleNodeClickForLinkCreation d) st = Throw TypeError
  /\ links st' = links st ++ [newLink]
  /\ link_source (link_at st' newLink) = EUndefined
  /\ renderable st' = false
  /\ outcome updateVisualization st' = Throw TypeError
  /\ linkCreationMode st' = true
  /\ selectedLinkSource st' = Some a.
Proof.
  intros Hm Hs Hr Ha Hd Hne Hgone Hl. cbv zeta.
  set (st2 := resolve_references (pushed (id_of st a) (id_of st d) st)).
  assert (Hsrc : link_source (link_at st2 (length (link_heap st))) = EUndefined).
  { unfold st2. rewrite link_at_pushed_new. simpl. by rewrite Hgone. }
  assert (Hnr : renderable st2 = false).
  { destruct (renderable st2) eqn:Hren; [| reflexivity].
    destruct (renderable_defined st2 (length (link_heap st)) Hren) as [Hdef _].
    - unfold st2; simpl. apply elem_of_app. right. apply list_elem_of_here.
    - rewrite Hsrc in Hdef. discriminate. }
  assert (Hrun : handleNodeClickForLinkCreation d st = (Throw TypeError, st2)).
  { rewrite (handleNodeClickForLinkCreation_run st a d Hm Hs).
    rewrite (proj2 (String.eqb_neq _ _)) by congruence.
    rewrite (find_result_pure _ (joins st (id_of st a) (id_of st d)))
      by (intros; by apply connects_pure).
    rewrite (proj2 (find_existsb _ _)) by exact Hl.
    unfold bind. rewrite addLink_run. cbv zeta. fold st2. by rewrite Hnr. }
  unfold exec, outcome. rewrite Hrun. simpl.
  split; [reflexivity |]. split; [reflexivity |]. split; [exact Hsrc |].
  split; [exact Hnr |]. split.
  { rewrite updateVisualization_run. simpl.
    replace (resolve_references st2) with st2
      by (unfold st2; by rewrite resolve_references_idem).
    by rewrite Hnr. }
  split; [exact Hm | exact Hs].
Qed.

End StaleSourceFacts.

Section EditLinkFacts.
Import Viz.
Local Open Scope list_scope.

Lemma split_on_free (sep : ascii) (s : string) :
  free_of sep s = true -> split_on sep s = (s, []).
Proof.
  induction s as [| c s IH]; simpl; [reflexivity |].
  intros [Hc Hs]%andb_true_iff. rewrite (IH Hs).
  apply negb_true_iff in Hc. by rewrite Hc.
Qed.

(** Joining two pieces with the separator and splitting again gives the
    two pieces back, when the pieces do not hold the separator. *)
Lemma split_on_join (sep : ascii) (a b : string) :
  free_of sep a = true -> free_of sep b = true ->
  split_on sep (a ++ String sep b)%string = (a, [b]).
Proof.
  intros Ha Hb. induction a as [| c a IH]; simpl.
  - rewrite (split_on_free _ _ Hb). by rewrite Ascii.eqb_refl.
  - simpl in Ha. apply andb_true_iff in Ha as [Hc Ha].
    rewrite (IH Ha). apply negb_true_iff in Hc. by rewrite Hc.
Qed.

Lemma pair_is_consistent (st : state) (a b : string) (ll : loc) :
  consistent st = true -> ll ∈ links st ->
  pair_is st a (Some b) ll
  = Ok (names st (link_source (link_at st ll)) a && names st (link_target (link_at st ll)) b).
Proof.
  intros (Hl & Hn & _)%consistent_spec Hin. destruct (Hl ll Hin) as [H1 H2].
  destruct (endpoint_key_in st _ Hn H1) as (s & Hs & _ & Hks).
  destruct (endpoint_key_in st _ Hn H2) as (t & Ht & _ & Hkt).
  unfold pair_is. rewrite Hks; simpl. rewrite Hkt; simpl. by rewrite Hs, Ht.
Qed.

(** X14. The edit button of the link panel passes the two ids joined by
    "-" and editLink splits the string at "-" again. In a consistent
    store and for a link whose two ids hold no "-", editLink finds a link
    with these two ids as source and target, the first one of the
    collection, and shows no error. *)
Theorem editLink_finds_link_of_dash_free_ids (st : state) (sh : list toast) (l s t : loc) :
  consistent st = true -> l ∈ links st ->
  link_source (link_at st l) = ERef s -> link_target (link_at st l) = ERef t ->
  free_of "-" (id_of st s) = true -> free_of "-" (id_of st t) = true ->
  let p := {| store := st; shown := sh |} in
  let same ll := names st (link_source (link_at st ll)) (id_of st s)
                 && names st (link_target (link_at st ll)) (id_of st t) in
  exists l',
    editLink (id_of st s ++ "-" ++ id_of st t)%string p = (Ok (Some l'), p)
    /\ List.find same (links st) = Some l'
    /\ l' ∈ links st /\ same l' = true.
Proof.
  intros Hc Hin Hs Ht Hfs Hft. cbv zeta.
  unfold editLink. change ("-" ++ id_of st t)%string with (String "-" (id_of st t)).
  rewrite (split_on_join _ _ _ Hfs Hft). simpl.
  unfold pbind, lift, lift_read; simpl.
  rewrite (find_result_pure _ (fun ll =>
             names st (link_source (link_at st ll)) (id_of st s)
             && names st (link_target (link_at st ll)) (id_of st t)))
    by (intros; by apply pair_is_consistent).
  destruct (find _ (links st)) as [l' |] eqn:Hf.
  - exists l'. split; [reflexivity |]. split; [reflexivity |].
    apply find_some in Hf as [Hin' Hsame]. split; [by apply list_elem_of_In | exact Hsame].
  - exfalso. apply list_elem_of_In in Hin.
    pose proof (find_none _ _ Hf l Hin) as Hn. simpl in Hn.
    rewrite Hs, Ht in Hn. simpl in Hn. by rewrite !String.eqb_refl in Hn.
Qed.

End EditLinkFacts.

Section CounterFacts.
Import Viz.
Local Open Scope list_scope.

Lemma generated_id_inj (t t' : node_kind) (k k' : nat) :
  (id_prefix t ++ pretty k)%string = (id_prefix t' ++ pretty k')%string -> k = k'.
Proof.
  destruct t, t'; simpl; intros H; try discriminate H;
    simplify_eq; by eapply (inj pretty).
Qed.

Lemma addNode_store (type : node_kind) (v : viewport) (st : state) :
  nodes (exec (addNode type v) st) = nodes st ++ [length (node_heap st)]
  /\ node_heap (exec (addNode type v) st)
     = node_heap st ++ [new_node type (length (nodes st)) v].
Proof.
  unfold exec, addNode, bind, gets, alloc_node, modify, showNotification; simpl.
  rewrite updateVisualization_run.
  destruct (renderable _); by simpl.
Qed.

Lemma addNode_counter_free (type : node_kind) (v : viewport) (st : state) :
  counter_free st -> counter_free (exec (addNode type v) st).
Proof.
  intros (Hnd & Hrange & Hcount).
  destruct (addNode_store type v st) as [Hns Hnh].
  assert (Hids : node_ids (exec (addNode type v) st)
                 = node_ids st ++ [(id_prefix type ++ pretty (length (nodes st) + 1))%string]).
  { unfold node_ids, id_of, node_at. rewrite Hns, Hnh, map_app. simpl.
    rewrite lookup_total_app_r, Nat.sub_diag by lia. simpl. rewrite new_node_id.
    f_equal. apply map_ext_in. intros n Hin%list_elem_of_In.
    by rewrite lookup_total_app_l by (by apply Hrange). }
  split; [| split].
  - rewrite Hids. apply NoDup_app. split; [exact Hnd |]. split; [| apply NoDup_singleton].
    intros x Hx ->%list_elem_of_singleton. apply Hcount in Hx. lia.
  - intros n. rewrite Hns, Hnh, length_app. simpl.
    intros [Hin | ->%list_elem_of_singleton]%elem_of_app; [| lia].
    apply Hrange in Hin. lia.
  - intros t k. rewrite Hids, Hns, length_app. simpl.
    intros [Hin | Heq%list_elem_of_singleton]%elem_of_app.
    + apply Hcount in Hin. lia.
    + apply generated_id_inj in Heq. lia.
Qed.

(** X15. Without deletions the counter of addNode is safe. From a store
    whose ids are pairwise distinct and where no id of the form addNode
    builds carries a number beyond the number of nodes, any sequence of
    addNode calls, of any types, leaves the ids pairwise distinct. *)
Theorem addNode_ids_distinct_without_delete (acts : list node_action) (st : state) :
  counter_free st -> forallb is_add acts = true ->
  NoDup (node_ids (run_actions acts st))
  /\ length (nodes (run_actions acts st)) = length (nodes st) + length acts.
Proof.
  intros Hcf Hadd.
  assert (H : counter_free (run_actions acts st)
              /\ length (nodes (run_actions acts st)) = length (nodes st) + length acts).
  { revert st Hcf. induction acts as [| a acts IH]; intros st Hcf.
    - split; [exact Hcf | simpl; lia].
    - simpl in Hadd. apply andb_true_iff in Hadd as [Ha Hadd].
      destruct a as [type v | nodeId]; [| discriminate].
      change (run_actions (AddNode type v :: acts) st)
        with (run_actions acts (exec (addNode type v) st)).
      destruct (IH Hadd (exec (addNode type v) st)) as [Hcf' Hlen];
        [by apply addNode_counter_free |].
      split; [exact Hcf' |]. rewrite Hlen.
      destruct (addNode_store type v st) as [-> _]. rewrite length_app. simpl. lia. }
  destruct H as [(Hnd & _) Hlen]. by split.
Qed.

End CounterFacts.

Section CaseConfigFacts.

Lemma config_for_size_cases (n : nat) :
  config_for_size n
  = applyCaseConfig_config
      (if (n <=? 9)%nat then "case9"
       else if (n <=? 14)%nat then "case14"
       else if (n <=? 30)%nat then "case30"
       else if (n <=? 39)%nat then "case39"
       else if (n <=? 57)%nat then "case57"
       else if (n <=? 118)%nat then "case118"
       else "custom").
Proof.
  unfold config_for_size, Adapter.detectCaseType, arrays. simpl.
  by rewrite length_replicate.
Qed.

(** X17. The simulation profile by network size, as loadGridData and
    loadCaseData select it. Up to 118 nodes a larger network never gets a
    larger link distance, link strength or collision radius than a smaller
    one. Beyond 118 nodes the case type is "custom", applyCaseConfig has no
    entry for it, and the network gets the profile of the 9-bus case, the
    widest one. *)
Theorem profile_by_network_size (n m : nat) :
  n <= m ->
  (m <= 118 ->
     PrimFloat.leb (linkDistance (config_for_size m)) (linkDistance (config_for_size n)) = true
     /\ PrimFloat.leb (forceStrength (config_for_size m))
                      (forceStrength (config_for_size n)) = true
     /\ PrimFloat.leb (collisionRadius (config_for_size m))
                      (collisionRadius (config_for_size n)) = true)
  /\ (118 < m -> config_for_size m = config_for_size 0).
Proof.
  intros Hnm. rewrite !config_for_size_cases. split.
  - intros Hm.
    repeat (match goal with |- context [(?x <=? ?k)%nat] =>
              destruct (Nat.leb_spec x k) end; try lia);
      repeat split; vm_compute; reflexivity.
  - intros Hm.
    repeat (match goal with |- context [(m <=? ?k)%nat] =>
              destruct (Nat.leb_spec m k) end; try lia).
    vm_compute. reflexivity.
Qed.

End CaseConfigFacts.

Lemma profile_by_network_size_witness :
  PrimFloat.leb (collisionRadius (config_for_size 30))
                (collisionRadius (config_for_size 9)) = true
  /\ config_for_size 300 = config_for_size 0.
Proof.
  split.
  - destruct (profile_by_network_size 9 30) as [H _]; [lia |].
    destruct H as (_ & _ & H); [lia | exact H].
  - destruct (profile_by_network_size 9 300) as [_ H]; [lia |].
    apply H. lia.
Defined.

Section VoltageColorFacts.










End VoltageColorFacts.


Lemma session_keeps_graph_simple_witness :
  let gs := [StartLink; Click (ClickNode 0); Click (ClickNode 1);
             Click (ClickNode 0); Click (ClickNode 3);
             Click (ClickLink 4); DeleteLink true;
             Edit (AddNode Viz.generator sample_viewport);
             StartLink; Click (ClickNode 4); Click (ClickNode 2)] in
  simple sample_store = true
  /\ simple (store (play gs (page_of sample_store)).2) = true.
Proof.
  cbv zeta. split; [vm_compute; reflexivity |].
  apply session_keeps_graph_simple; vm_compute; reflexivity.
Defined.

(** The sample store with the link bus1-bus2 selected. *)
Lemma deleteSelectedLink_removes_parallel_links_witness :
  let st := Viz.exec (Viz.handleLinkClick 0) sample_store in
  Viz.links st = [0; 1; 2; 3]
  /\ Viz.links (store (deleteSelectedLink true (page_of st)).2) = [1; 2; 3].
Proof.
  cbv zeta. split; [reflexivity |].
  destruct (deleteSelectedLink_removes_parallel_links
              (Viz.exec (Viz.handleLinkClick 0) sample_store) [] 0
              eq_refl eq_refl eq_refl eq_refl) as (_ & Hl & _).
  unfold page_of. rewrite Hl. reflexivity.
Defined.

(** bus1 of the sample store, a generator, saved with an active power of
    -40. *)
Lemma saveNodeEdit_generation_not_negative_witness :
  let f := {| f_id := "bus1"; f_type := "generator"; f_voltage := 1; f_angle := 0;
              f_active_power := -40; f_reactive_power := 50 |} in
  PrimFloat.ltb
    (Viz.node_active_power
       (Viz.node_at (store (saveNodeEdit f (page_of sample_store)).2) 0)) 0 = false.
Proof.
  cbv zeta.
  match goal with |- context [saveNodeEdit ?f ?p] =>
    destruct (saveNodeEdit_generation_not_negative f p 0 eq_refl eq_refl)
      as (Ht & Hneg & _)
  end.
  - vm_compute. lia.
  - apply Hneg. right. rewrite Ht. reflexivity.
Defined.

(** On the sample store: bus1 is chosen as the source of a new link and
    then deleted; the click on bus2 that follows. *)
Lemma stale_source_leaves_dangling_link_witness :
  let st := Viz.exec (Viz.deleteNode "bus1" true)
              (Viz.exec (Viz.handleNodeClickForLinkCreation 0)
                 (Viz.exec Viz.startLinkCreation sample_store)) in
  Viz.outcome (Viz.handleNodeClickForLinkCreation 1) st = Throw TypeError
  /\ Viz.renderable (Viz.exec (Viz.handleNodeClickForLinkCreation 1) st) = false.
Proof.
  intros st.
  assert (Hm : Viz.linkCreationMode st = true) by (vm_compute; reflexivity).
  assert (Hs : Viz.selectedLinkSource st = Some 0) by (vm_compute; reflexivity).
  assert (Hr : links_resolved st = true) by (vm_compute; reflexivity).
  assert (Ha : Viz.id_of st 0 <> "") by (vm_compute; discriminate).
  assert (Hd : Viz.id_of st 1 <> "") by (vm_compute; discriminate).
  assert (Hne : Viz.id_of st 1 <> Viz.id_of st 0) by (vm_compute; discriminate).
  assert (Hg : Viz.find_node st (Viz.id_of st 0) = None) by (vm_compute; reflexivity).
  assert (Hl : linked st (Viz.id_of st 0) (Viz.id_of st 1) = false)
    by (vm_compute; reflexivity).
  pose proof (stale_source_leaves_dangling_link st 0 1 Hm Hs Hr Ha Hd Hne Hg Hl) as H.
  cbv zeta in H. destruct H as (Hout & _ & _ & Hnr & _).
  split; [exact Hout | exact Hnr].
Defined.

Lemma editLink_finds_link_of_dash_free_ids_witness :
  exists l',
    editLink "bus1-bus2" (page_of sample_store) = (Ok (Some l'), page_of sample_store).
Proof.
  destruct (editLink_finds_link_of_dash_free_ids sample_store [] 0 0 1) as (l' & Hrun & _);
    try (vm_compute; reflexivity).
  - vm_compute. apply list_elem_of_here.
  - exists l'. exact Hrun.
Defined.

Lemma counter_free_sample_store : counter_free sample_store.
Proof.
  split; [| split].
  - apply (bool_decide_unpack _). vm_compute. exact I.
  - intros n Hn. vm_compute in Hn. vm_compute.
    repeat (apply elem_of_cons in Hn as [-> | Hn]; [lia |]). by apply elem_of_nil in Hn.
  - intros type k Hin. exfalso. vm_compute in Hin.
    destruct type; simpl in Hin;
      repeat (apply elem_of_cons in Hin as [Hin | Hin]; [discriminate Hin |]);
      by apply elem_of_nil in Hin.
Qed.

Lemma addNode_ids_distinct_without_delete_witness :
  NoDup (node_ids (run_actions [AddNode Viz.generator sample_viewport;
                                AddNode Viz.generator sample_viewport;
                                AddNode Viz.load sample_viewport] sample_store)).
Proof.
  exact (proj1 (addNode_ids_distinct_without_delete
                  [AddNode Viz.generator sample_viewport;
                   AddNode Viz.generator sample_viewport;
                   AddNode Viz.load sample_viewport] sample_store
                  counter_free_sample_store eq_refl)).
Defined.

Section FlowSessionFacts.
Import Viz.
Local Open Scope list_scope.


End FlowSessionFacts.


Section ModeFacts.
Import Viz.
Local Open Scope list_scope.

(** X20. In link-creation mode a click on a node never touches the
    selection: whatever the store holds and however the click ends (source
    chosen, self-loop or duplicate refused, link added, or an exception
    from a link with an undefined endpoint), the selected node and the
    selected link are the ones from before, and so are the nodes. *)
Theorem link_mode_click_keeps_selection (st : state) (d : loc) :
  linkCreationMode st = true ->
  let st' := exec (handleNodeClick d) st in
  selectedNode st' = selectedNode st
  /\ selectedLink st' = selectedLink st
  /\ nodes st' = nodes st
  /\ node_heap st' = node_heap st.
Proof.
  intros Hm. cbv zeta. unfold exec.
  assert (Hrun : handleNodeClick d st = handleNodeClickForLinkCreation d st).
  { unfold handleNodeClick, bind at 1, gets at 1. simpl. by rewrite Hm. }
  rewrite Hrun. clear Hrun.
  destruct (selectedLinkSource st) as [a |] eqn:Hsrc.
  - rewrite (handleNodeClickForLinkCreation_run st a d Hm Hsrc).
    destruct (String.eqb (id_of st a) (id_of st d)); [by repeat split |].
    destruct (find_result _ (links st)) as [[x |] | e];
      [by repeat split | | by repeat split].
    unfold bind. rewrite addLink_run. cbv zeta.
    destruct (renderable _); by repeat split.
  - by rewrite (handleNodeClickForLinkCreation_first st d Hm Hsrc).
Qed.

End ModeFacts.

Lemma link_mode_click_keeps_selection_witness :
  let st := Viz.exec Viz.startLinkCreation (Viz.exec (Viz.handleNodeClick 1) sample_store) in
  Viz.selectedNode st = Some "bus2"
  /\ Viz.selectedNode (Viz.exec (Viz.handleNodeClick 0) st) = Some "bus2".
Proof.
  cbv zeta. split; [vm_compute; reflexivity |].
  match goal with |- Viz.selectedNode (Viz.exec _ ?st) = _ =>
    destruct (link_mode_click_keeps_selection st 0) as [H _];
      [vm_compute; reflexivity | rewrite H; vm_compute; reflexivity]
  end.
Defined.
